(** * DailyTransaction: the ledger engine and the anomaly detector

    A shallow embedding of [processor/apply_transactions.go],
    [detector/anomaly_detector.go], [ingestion/load_transactions.go] and the
    account summaries of [output/generate_reports.go], together with the
    record types of the [models] package.

    Modelling choices.
    - Go's [float64] is Rocq's primitive binary64 [float]; every [+], [-],
      [/], [<], [>], [<=] and [>=] of the source is the corresponding
      IEEE 754 operation, so NaN, the infinities and rounding are those of
      the program.
    - Go's [int] is a 64-bit two's complement integer: a [Z] with the
      wrap-around of [++] written out.
    - Go's [string] is [string]; [time.Time] is an instant counted in
      nanoseconds ([Z]); [time.Duration] is a saturating 64-bit nanosecond
      count, and [Sub] and [Minutes] follow the standard library.
    - A Go [map] is a reference: the store [heap] maps a reference to the
      [gmap] it currently denotes, and the functions that write through a
      map run in a small state-and-panic monad over that store.  A slice that
      is private to a function is a list.
    - The order in which [range] visits a map is unspecified; where the
      result depends on it, the statements quantify over every order.
    - A text that [fmt.Sprintf] produces from constants or from strings is
      that text; one that formats a number of the run ([%.2f], [%d]) is kept
      as its format and arguments.
    - What the loaders ask of the standard library (opening a file, reading
      its CSV records, parsing a number or a time) is a parameter, the class
      [Stdlib]: the statements about the loaders hold for every file system
      and every parser. *)

From Stdlib Require Import ZArith Zpower Floats String List Lia Bool.
From stdpp Require Import base option list gmap strings fin_maps.

Local Open Scope string_scope.
Local Open Scope Z_scope.
Local Open Scope list_scope.

(** ** Package [models] *)

Module models.

(** [time.Time], as nanoseconds relative to the Unix epoch. *)
Definition Time : Type := Z.

(** The zero [time.Time]: January 1, year 1, 00:00:00 UTC. *)
Definition zeroTime : Time := (-62135596800) * 1000000000.

Module Account.
Record t : Type := mk {
  ID : string;
  Balance : float;
  DailyDebits : float;
  DailyCredits : float;
  LastTransactionTime : Time;
  OverdraftCount : Z
}.

(** The zero value of the struct, which a map read yields for an
    absent key. *)
Definition zero : t := mk "" 0%float 0%float 0%float zeroTime 0.

Definition with_Balance (v : float) (a : t) : t :=
  mk (ID a) v (DailyDebits a) (DailyCredits a) (LastTransactionTime a) (OverdraftCount a).
Definition with_DailyDebits (v : float) (a : t) : t :=
  mk (ID a) (Balance a) v (DailyCredits a) (LastTransactionTime a) (OverdraftCount a).
Definition with_DailyCredits (v : float) (a : t) : t :=
  mk (ID a) (Balance a) (DailyDebits a) v (LastTransactionTime a) (OverdraftCount a).
Definition with_LastTransactionTime (v : Time) (a : t) : t :=
  mk (ID a) (Balance a) (DailyDebits a) (DailyCredits a) v (OverdraftCount a).
Definition with_OverdraftCount (v : Z) (a : t) : t :=
  mk (ID a) (Balance a) (DailyDebits a) (DailyCredits a) (LastTransactionTime a) v.
End Account.

Module Transaction.
Record t : Type := mk {
  ID : string;
  AccountID : string;
  DestinationAccountID : string;
  Timestamp : Time;
  Amount : float;
  Type_ : string;
  Status : string;
  Description : string;
  ValidationMessage : string;
  ProcessingMessage : string
}.

Definition with_Status (v : string) (x : t) : t :=
  mk (ID x) (AccountID x) (DestinationAccountID x) (Timestamp x) (Amount x)
     (Type_ x) v (Description x) (ValidationMessage x) (ProcessingMessage x).
Definition with_ProcessingMessage (v : string) (x : t) : t :=
  mk (ID x) (AccountID x) (DestinationAccountID x) (Timestamp x) (Amount x)
     (Type_ x) (Status x) (Description x) (ValidationMessage x) v.
Definition with_ValidationMessage (v : string) (x : t) : t :=
  mk (ID x) (AccountID x) (DestinationAccountID x) (Timestamp x) (Amount x)
     (Type_ x) (Status x) (Description x) v (ProcessingMessage x).
End Transaction.

(** The text of [Anomaly.Description] is produced by [fmt.Sprintf]; it is
    kept as the format used together with the arguments handed to it. *)
Inductive description : Type :=
| LargeTransactionText (amount : float)
    (* "Large transaction: $%.2f" *)
| AccountOverdraftText (balance : float)
    (* "Account in overdraft: $%.2f" *)
| RapidWithdrawalsText (count : Z) (totalAmount : float) (minutes : Z).
    (* "%d withdrawals totaling $%.2f in %d minutes" *)

Module Anomaly.
Record t : Type := mk {
  TransactionID : string;
  AccountID : string;
  Timestamp : Time;
  Type_ : string;
  Description : description;
  Severity : string
}.
End Anomaly.

End models.
Export models.

(** ** Go runtime: machine integers and maps as references *)

Module goruntime.

(** Wrap-around of the 64-bit [int]. *)
Definition wrap_int (z : Z) : Z := (z + 2 ^ 63) mod 2 ^ 64 - 2 ^ 63.

(** [x++] on an [int]. *)
Definition int_incr (z : Z) : Z := wrap_int (z + 1).

(** A map value in Go is a reference: the nil map, or the address of a
    table in the store. *)
Inductive mapref : Type :=
| nil_map
| map_at (l : positive).

Abbreviation heap := (gmap positive (gmap string Account.t)).

(** Computations that read and write maps and may panic ([None]). *)
Definition M (A : Type) : Type := heap -> option (A * heap).

Definition ret {A} (a : A) : M A := fun h => Some (a, h).

Definition bind {A B} (c : M A) (k : A -> M B) : M B :=
  fun h => match c h with
           | Some (a, h') => k a h'
           | None => None
           end.

(** [make(map[string]models.Account)]: a fresh, empty table. *)
Definition map_make : M mapref :=
  fun h => let l := fresh (dom h) in Some (map_at l, <[l := ∅]> h).

(** The table a reference denotes; the nil map reads as empty. *)
Definition table (h : heap) (r : mapref) : gmap string Account.t :=
  match r with
  | nil_map => ∅
  | map_at l => default ∅ (h !! l)
  end.

(** [m[k]]: the zero value when the key is absent. *)
Definition map_get (r : mapref) (k : string) : M Account.t :=
  fun h => Some (default Account.zero (table h r !! k), h).

(** [m[k] = v]: panics on the nil map. *)
Definition map_set (r : mapref) (k : string) (v : Account.t) : M unit :=
  fun h => match r with
           | nil_map => None
           | map_at l =>
               match h !! l with
               | Some m => Some (tt, <[l := <[k := v]> m]> h)
               | None => None
               end
           end.

(** The key-value pairs a [range] over the map visits. *)
Definition map_range (r : mapref) : M (list (string * Account.t)) :=
  fun h => Some (map_to_list (table h r), h).

(** A reference a Go program can hold: nil, or the address of a table
    that exists. *)
Definition valid_ref (h : heap) (r : mapref) : Prop :=
  match r with
  | nil_map => True
  | map_at l => is_Some (h !! l)
  end.

(** ** [time.Duration] and the conversions of [float64] *)

Definition minDuration : Z := - 2 ^ 63.
Definition maxDuration : Z := 2 ^ 63 - 1.

(** [t.Sub(u)]: the difference in nanoseconds, saturated to the range of
    [Duration]. *)
Definition Time_Sub (t u : Time) : Z :=
  Z.max minDuration (Z.min maxDuration (t - u)).

(** [float64(n)] for a 64-bit integer [n] with [-2^63 < n < 2^63]. *)
Definition float_of_int (n : Z) : float :=
  if n <? 0 then (- PrimFloat.of_uint63 (Uint63.of_Z (- n)))%float
  else PrimFloat.of_uint63 (Uint63.of_Z n).

(** [time.Minute], in nanoseconds. *)
Definition Minute : Z := 60 * 1000000000.

(** [d.Minutes()]: whole minutes plus the fraction [nsec / (60 * 1e9)]. *)
Definition Duration_Minutes (d : Z) : float :=
  let min := Z.quot d Minute in
  let nsec := Z.rem d Minute in
  (float_of_int min + float_of_int nsec / 60000000000)%float.

(** [int(f)]: the fractional part is discarded; NaN and the infinities
    have no defined result and read as zero here, values outside the
    range wrap. *)
Definition int_of_float (f : float) : Z :=
  match Prim2SF f with
  | S754_finite s m e =>
      let magnitude := if 0 <=? e then Z.pos m * 2 ^ e else Z.pos m / 2 ^ (- e) in
      wrap_int (if s then - magnitude else magnitude)
  | _ => 0
  end.

End goruntime.
Export goruntime.

#[export] Instance M_ret : MRet M := @ret.
#[export] Instance M_bind : MBind M := fun A B k c => bind c k.

(** ** Package [processor] *)

Module processor.

(** Maximum allowed overdraft. *)
Definition OverdraftLimit : float := (-1000)%float.
(** Maximum daily withdrawal limit. *)
Definition MaxDailyWithdrawalLimit : float := 5000%float.

(** [a > b] on [float64]. *)
Definition gtb (a b : float) : bool := (b <? a)%float.

(** [fmt.Sprintf("Exceeds daily withdrawal limit of $%.2f", MaxDailyWithdrawalLimit)] *)
Definition msg_daily_limit : string := "Exceeds daily withdrawal limit of $5000.00".
(** [fmt.Sprintf("Would exceed overdraft limit of $%.2f", -OverdraftLimit)] *)
Definition msg_overdraft_limit : string := "Would exceed overdraft limit of $1000.00".

Definition processCredit (transaction : Transaction.t) (account : Account.t)
    (accounts : mapref) : M (Transaction.t * mapref) :=
  let account := Account.with_Balance
                   (Account.Balance account + Transaction.Amount transaction)%float account in
  let account := Account.with_DailyCredits
                   (Account.DailyCredits account + Transaction.Amount transaction)%float account in
  map_set accounts (Transaction.AccountID transaction) account;;
  let transaction := Transaction.with_Status "completed" transaction in
  ret (transaction, accounts).

Definition processDebit (transaction : Transaction.t) (account : Account.t)
    (accounts : mapref) : M (Transaction.t * mapref) :=
  if gtb (Account.DailyDebits account + Transaction.Amount transaction)%float
         MaxDailyWithdrawalLimit
  then
    let transaction := Transaction.with_Status "rejected" transaction in
    let transaction := Transaction.with_ProcessingMessage msg_daily_limit transaction in
    ret (transaction, accounts)
  else
    let newBalance := (Account.Balance account - Transaction.Amount transaction)%float in
    if (newBalance <? OverdraftLimit)%float
    then
      let transaction := Transaction.with_Status "rejected" transaction in
      let transaction := Transaction.with_ProcessingMessage msg_overdraft_limit transaction in
      ret (transaction, accounts)
    else
      let account := Account.with_Balance newBalance account in
      let account := Account.with_DailyDebits
                       (Account.DailyDebits account + Transaction.Amount transaction)%float
                       account in
      let '(account, transaction) :=
        if (newBalance <? 0)%float
        then (Account.with_OverdraftCount (int_incr (Account.OverdraftCount account)) account,
              Transaction.with_ProcessingMessage "Account in overdraft" transaction)
        else (account, transaction) in
      map_set accounts (Transaction.AccountID transaction) account;;
      let transaction := Transaction.with_Status "completed" transaction in
      ret (transaction, accounts).

Definition processTransfer (transaction : Transaction.t)
    (accounts : mapref) : M (Transaction.t * mapref) :=
  sourceAccount ← map_get accounts (Transaction.AccountID transaction);
  destAccount ← map_get accounts (Transaction.DestinationAccountID transaction);
  let newBalance := (Account.Balance sourceAccount - Transaction.Amount transaction)%float in
  if (newBalance <? OverdraftLimit)%float
  then
    let transaction := Transaction.with_Status "rejected" transaction in
    let transaction := Transaction.with_ProcessingMessage msg_overdraft_limit transaction in
    ret (transaction, accounts)
  else
    let sourceAccount := Account.with_Balance newBalance sourceAccount in
    let sourceAccount := Account.with_DailyDebits
                           (Account.DailyDebits sourceAccount + Transaction.Amount transaction)%float
                           sourceAccount in
    let destAccount := Account.with_Balance
                         (Account.Balance destAccount + Transaction.Amount transaction)%float
                         destAccount in
    let destAccount := Account.with_DailyCredits
                         (Account.DailyCredits destAccount + Transaction.Amount transaction)%float
                         destAccount in
    let '(sourceAccount, transaction) :=
      if (newBalance <? 0)%float
      then (Account.with_OverdraftCount (int_incr (Account.OverdraftCount sourceAccount))
              sourceAccount,
            Transaction.with_ProcessingMessage "Source account in overdraft" transaction)
      else (sourceAccount, transaction) in
    map_set accounts (Transaction.AccountID transaction) sourceAccount;;
    map_set accounts (Transaction.DestinationAccountID transaction) destAccount;;
    let transaction := Transaction.with_Status "completed" transaction in
    ret (transaction, accounts).

(** The [switch transaction.Type] of the loop body. *)
Definition dispatch (transaction : Transaction.t) (account : Account.t)
    (processedAccounts : mapref) : M (Transaction.t * mapref) :=
  if String.eqb (Transaction.Type_ transaction) "credit"
  then processCredit transaction account processedAccounts
  else if String.eqb (Transaction.Type_ transaction) "debit"
  then processDebit transaction account processedAccounts
  else if String.eqb (Transaction.Type_ transaction) "transfer"
  then processTransfer transaction processedAccounts
  else ret (transaction, processedAccounts).

(** One iteration of the loop over [processedTransactions]: the stamped
    transaction written to [processedTransactions[i]] and the map the
    variable [processedAccounts] holds afterwards. *)
Definition process_one (transaction : Transaction.t)
    (processedAccounts : mapref) : M (Transaction.t * mapref) :=
  account ← map_get processedAccounts (Transaction.AccountID transaction);
  '(stamped, processedAccounts) ← dispatch transaction account processedAccounts;
  (if String.eqb (Transaction.Status stamped) "completed"
   then
     account ← map_get processedAccounts (Transaction.AccountID transaction);
     let account := Account.with_LastTransactionTime
                      (Transaction.Timestamp transaction) account in
     map_set processedAccounts (Transaction.AccountID transaction) account
   else ret tt);;
  ret (stamped, processedAccounts).

(** The loop [for i, transaction := range processedTransactions]. *)
Fixpoint process_loop (processedTransactions : list Transaction.t)
    (processedAccounts : mapref) : M (list Transaction.t * mapref) :=
  match processedTransactions with
  | [] => ret ([], processedAccounts)
  | transaction :: rest =>
      '(stamped, processedAccounts) ← process_one transaction processedAccounts;
      '(rest', processedAccounts) ← process_loop rest processedAccounts;
      ret (stamped :: rest', processedAccounts)
  end.

(** The loop [for id, account := range accounts] that seeds the copy. *)
Fixpoint copy_entries (entries : list (string * Account.t))
    (processedAccounts : mapref) : M unit :=
  match entries with
  | [] => ret tt
  | (id, account) :: rest =>
      map_set processedAccounts id account;;
      copy_entries rest processedAccounts
  end.

(** [ProcessTransactions] returns the map first and the stamped
    transactions second.  The slice [processedTransactions] is a fresh
    copy of the argument, so it is a list value here. *)
Definition ProcessTransactions (transactions : list Transaction.t)
    (accounts : mapref) : M (mapref * list Transaction.t) :=
  processedAccounts ← map_make;
  entries ← map_range accounts;
  copy_entries entries processedAccounts;;
  let processedTransactions := transactions in
  '(processedTransactions, processedAccounts) ←
      process_loop processedTransactions processedAccounts;
  ret (processedAccounts, processedTransactions).

End processor.
Export processor.

(** ** Package [ingestion]: validation *)

Module ingestion.

(** [_, exists := accounts[id]] *)
Definition has_account (accounts : gmap string Account.t) (id : string) : bool :=
  match accounts !! id with Some _ => true | None => false end.

(** The tests of the loop body for a pending transaction: the flag [valid]
    and the [reason] of the last test that failed. *)
Definition check (accounts : gmap string Account.t) (transaction : Transaction.t)
  : bool * string :=
  let valid := true in
  let reason := "" in
  let '(valid, reason) :=
    if (Transaction.Amount transaction <=? 0)%float
    then (false, "Transaction amount must be positive")
    else (valid, reason) in
  let '(valid, reason) :=
    if negb (has_account accounts (Transaction.AccountID transaction))
    then (false, "Account " +:+ Transaction.AccountID transaction +:+ " does not exist")
    else (valid, reason) in
  let '(valid, reason) :=
    if String.eqb (Transaction.Type_ transaction) "transfer"
    then
      if String.eqb (Transaction.DestinationAccountID transaction) ""
      then (false, "Transfer is missing destination account")
      else if negb (has_account accounts (Transaction.DestinationAccountID transaction))
      then (false, "Destination account " +:+ Transaction.DestinationAccountID transaction
                     +:+ " does not exist")
      else if String.eqb (Transaction.DestinationAccountID transaction)
                         (Transaction.AccountID transaction)
      then (false, "Source and destination accounts cannot be the same")
      else (valid, reason)
    else (valid, reason) in
  (valid, reason).

(** The loop [for _, transaction := range transactions]. *)
Fixpoint validate_loop (accounts : gmap string Account.t)
    (transactions validTransactions invalidTransactions : list Transaction.t)
  : list Transaction.t * list Transaction.t :=
  match transactions with
  | [] => (validTransactions, invalidTransactions)
  | transaction :: rest =>
      if String.eqb (Transaction.Status transaction) "rejected"
      then validate_loop accounts rest validTransactions
             (invalidTransactions ++
              [Transaction.with_ValidationMessage "Already rejected in input file"
                 transaction])
      else if negb (String.eqb (Transaction.Status transaction) "pending")
      then validate_loop accounts rest validTransactions
             (invalidTransactions ++
              [Transaction.with_ValidationMessage
                 "Only pending transactions can be processed" transaction])
      else
        let '(valid, reason) := check accounts transaction in
        if valid
        then validate_loop accounts rest (validTransactions ++ [transaction])
               invalidTransactions
        else validate_loop accounts rest validTransactions
               (invalidTransactions ++
                [Transaction.with_ValidationMessage reason transaction])
  end.

Definition ValidateTransactions (transactions : list Transaction.t)
    (accounts : gmap string Account.t) : list Transaction.t * list Transaction.t :=
  validate_loop accounts transactions [] [].

End ingestion.
Export ingestion.

(** ** Package [detector] *)

Module detector.

(** Transactions at or above this amount are considered large. *)
Definition LargeTransactionThreshold : float := 10000%float.
(** Number of withdrawals in a short period considered suspicious. *)
Definition RapidWithdrawalThreshold : nat := 3.
(** Time window in minutes for rapid withdrawal detection. *)
Definition RapidWithdrawalTimeWindowMins : float := 60%float.
(** Maximum allowed overdraft. *)
Definition OverdraftLimit : float := (-1000)%float.
(** The constant expressions [OverdraftLimit/2] and [OverdraftLimit*0.8],
    which the compiler evaluates exactly. *)
Definition OverdraftLimit_half : float := (-500)%float.
Definition OverdraftLimit_080 : float := (-800)%float.

(** The severity chosen for an account whose balance is negative. *)
Definition overdraft_severity (balance : float) : string :=
  let severity := "low" in
  let severity := if (balance <? OverdraftLimit_half)%float then "medium" else severity in
  let severity := if (balance <? OverdraftLimit_080)%float then "high" else severity in
  severity.

(** [append(withdrawalsByAccount[id], transaction)] stored back under [id]. *)
Definition track (withdrawalsByAccount : gmap string (list Transaction.t))
    (transaction : Transaction.t) : gmap string (list Transaction.t) :=
  <[Transaction.AccountID transaction :=
      default [] (withdrawalsByAccount !! Transaction.AccountID transaction)
      ++ [transaction]]> withdrawalsByAccount.

(** The body of the first loop for one transaction. *)
Definition inspect (accounts : gmap string Account.t) (transaction : Transaction.t)
    (anomalies : list Anomaly.t)
    (withdrawalsByAccount : gmap string (list Transaction.t))
  : list Anomaly.t * gmap string (list Transaction.t) :=
  if negb (String.eqb (Transaction.Status transaction) "completed")
  then (anomalies, withdrawalsByAccount)
  else
    let anomalies :=
      if (LargeTransactionThreshold <=? Transaction.Amount transaction)%float
      then anomalies ++
           [Anomaly.mk (Transaction.ID transaction) (Transaction.AccountID transaction)
              (Transaction.Timestamp transaction) "large_transaction"
              (LargeTransactionText (Transaction.Amount transaction)) "medium"]
      else anomalies in
    let withdrawalsByAccount :=
      if String.eqb (Transaction.Type_ transaction) "debit"
      then track withdrawalsByAccount transaction
      else withdrawalsByAccount in
    let account := default Account.zero (accounts !! Transaction.AccountID transaction) in
    let anomalies :=
      if (Account.Balance account <? 0)%float
      then anomalies ++
           [Anomaly.mk (Transaction.ID transaction) (Transaction.AccountID transaction)
              (Transaction.Timestamp transaction) "account_overdraft"
              (AccountOverdraftText (Account.Balance account))
              (overdraft_severity (Account.Balance account))]
      else anomalies in
    (anomalies, withdrawalsByAccount).

(** The loop [for _, transaction := range transactions]. *)
Fixpoint inspect_all (accounts : gmap string Account.t)
    (transactions : list Transaction.t) (anomalies : list Anomaly.t)
    (withdrawalsByAccount : gmap string (list Transaction.t))
  : list Anomaly.t * gmap string (list Transaction.t) :=
  match transactions with
  | [] => (anomalies, withdrawalsByAccount)
  | transaction :: rest =>
      let '(anomalies, withdrawalsByAccount) :=
        inspect accounts transaction anomalies withdrawalsByAccount in
      inspect_all accounts rest anomalies withdrawalsByAccount
  end.

(** [withdrawals[i]]; the loops below only index within the slice. *)
Definition at_index (withdrawals : list Transaction.t) (i : nat) : Transaction.t :=
  default (Transaction.mk "" "" "" zeroTime 0%float "" "" "" "" "") (withdrawals !! i).

(** The window ending at index [i] starts at [i - (N - 1)]. *)
Definition window_start (i : nat) : nat := (i - (RapidWithdrawalThreshold - 1))%nat.

(** [timeWindow]: from the first to the last withdrawal of the window. *)
Definition timeWindow (withdrawals : list Transaction.t) (i : nat) : Z :=
  Time_Sub (Transaction.Timestamp (at_index withdrawals i))
           (Transaction.Timestamp (at_index withdrawals (window_start i))).

(** The test [timeWindow.Minutes() <= RapidWithdrawalTimeWindowMins]. *)
Definition within_window (withdrawals : list Transaction.t) (i : nat) : bool :=
  (Duration_Minutes (timeWindow withdrawals i) <=? RapidWithdrawalTimeWindowMins)%float.

(** The loop [for j := start; j <= i; j++] that sums the amounts,
    starting from [0.0]. *)
Definition totalAmount (withdrawals : list Transaction.t) (i : nat) : float :=
  fold_left (fun total j => (total + Transaction.Amount (at_index withdrawals j))%float)
            (seq (window_start i) (S i - window_start i)) 0%float.

Definition rapid_anomaly (accountID : string) (withdrawals : list Transaction.t)
    (i : nat) : Anomaly.t :=
  Anomaly.mk (Transaction.ID (at_index withdrawals i)) accountID
    (Transaction.Timestamp (at_index withdrawals i)) "rapid_withdrawals"
    (RapidWithdrawalsText (Z.of_nat RapidWithdrawalThreshold)
       (totalAmount withdrawals i)
       (int_of_float (Duration_Minutes (timeWindow withdrawals i))))
    "high".

(** The loop [for i := N - 1; i < len(withdrawals); i++] over the indices
    still to visit; the [break] ends it at the first window reported. *)
Fixpoint scan_windows (accountID : string) (withdrawals : list Transaction.t)
    (indices : list nat) (anomalies : list Anomaly.t) : list Anomaly.t :=
  match indices with
  | [] => anomalies
  | i :: rest =>
      if within_window withdrawals i
      then anomalies ++ [rapid_anomaly accountID withdrawals i]
      else scan_windows accountID withdrawals rest anomalies
  end.

(** The body of the second loop for one account. *)
Definition check_rapid (accountID : string) (withdrawals : list Transaction.t)
    (anomalies : list Anomaly.t) : list Anomaly.t :=
  if (RapidWithdrawalThreshold <=? length withdrawals)%nat
  then scan_windows accountID withdrawals
         (seq (RapidWithdrawalThreshold - 1)
              (length withdrawals - (RapidWithdrawalThreshold - 1)))
         anomalies
  else anomalies.

(** The loop [for accountID, withdrawals := range withdrawalsByAccount],
    visiting the entries in the order given. *)
Fixpoint check_all (entries : list (string * list Transaction.t))
    (anomalies : list Anomaly.t) : list Anomaly.t :=
  match entries with
  | [] => anomalies
  | (accountID, withdrawals) :: rest =>
      check_all rest (check_rapid accountID withdrawals anomalies)
  end.

(** Go leaves the order in which a [range] visits a map unspecified.
    [DetectAnomalies_returns] holds of every slice the function can
    return: one per order of visiting [withdrawalsByAccount]. *)
Definition DetectAnomalies_returns (transactions : list Transaction.t)
    (accounts : gmap string Account.t) (result : list Anomaly.t) : Prop :=
  exists entries,
    entries ≡ₚ map_to_list (inspect_all accounts transactions [] ∅).2 /\
    result = check_all entries (inspect_all accounts transactions [] ∅).1.

(** The run that visits the map in the order of [map_to_list]. *)
Definition DetectAnomalies (transactions : list Transaction.t)
    (accounts : gmap string Account.t) : list Anomaly.t :=
  let '(anomalies, withdrawalsByAccount) := inspect_all accounts transactions [] ∅ in
  check_all (map_to_list withdrawalsByAccount) anomalies.

End detector.
Export detector.

(** ** Package [output]: the account summaries *)

Module AccountSummary.
Record t : Type := mk {
  AccountID : string;
  Date : string;
  OpeningBalance : float;
  ClosingBalance : float;
  TotalDebits : float;
  TotalCredits : float;
  TransactionCount : Z;
  OverdraftCount : Z
}.

Definition with_OpeningBalance (v : float) (s : t) : t :=
  mk (AccountID s) (Date s) v (ClosingBalance s) (TotalDebits s) (TotalCredits s)
     (TransactionCount s) (OverdraftCount s).
Definition with_TotalDebits (v : float) (s : t) : t :=
  mk (AccountID s) (Date s) (OpeningBalance s) (ClosingBalance s) v (TotalCredits s)
     (TransactionCount s) (OverdraftCount s).
Definition with_TotalCredits (v : float) (s : t) : t :=
  mk (AccountID s) (Date s) (OpeningBalance s) (ClosingBalance s) (TotalDebits s) v
     (TransactionCount s) (OverdraftCount s).
Definition with_TransactionCount (v : Z) (s : t) : t :=
  mk (AccountID s) (Date s) (OpeningBalance s) (ClosingBalance s) (TotalDebits s)
     (TotalCredits s) v (OverdraftCount s).
End AccountSummary.

Module output.

(** The summary the first loop stores for an account. *)
Definition new_summary (accountID dateStr : string) (account : Account.t)
  : AccountSummary.t :=
  AccountSummary.mk accountID dateStr (Account.Balance account) (Account.Balance account)
    0%float 0%float 0 (Account.OverdraftCount account).

(** The loop [for accountID, account := range accounts], over the entries
    in the order visited.  [summaries] maps an account id to the summary
    its pointer refers to; every pointer is created here, one per key. *)
Fixpoint create_summaries (entries : list (string * Account.t)) (dateStr : string)
    (summaries : gmap string AccountSummary.t) : gmap string AccountSummary.t :=
  match entries with
  | [] => summaries
  | (accountID, account) :: rest =>
      create_summaries rest dateStr
        (<[accountID := new_summary accountID dateStr account]> summaries)
  end.

(** The updates through the pointer [summary]: the count, then the
    [switch transaction.Type]. *)
Definition update_source (transaction : Transaction.t) (summary : AccountSummary.t)
  : AccountSummary.t :=
  let summary := AccountSummary.with_TransactionCount
                   (int_incr (AccountSummary.TransactionCount summary)) summary in
  if String.eqb (Transaction.Type_ transaction) "credit"
  then
    let summary := AccountSummary.with_OpeningBalance
                     (AccountSummary.OpeningBalance summary
                      - Transaction.Amount transaction)%float summary in
    AccountSummary.with_TotalCredits
      (AccountSummary.TotalCredits summary + Transaction.Amount transaction)%float summary
  else if String.eqb (Transaction.Type_ transaction) "debit"
  then
    let summary := AccountSummary.with_OpeningBalance
                     (AccountSummary.OpeningBalance summary
                      + Transaction.Amount transaction)%float summary in
    AccountSummary.with_TotalDebits
      (AccountSummary.TotalDebits summary + Transaction.Amount transaction)%float summary
  else if String.eqb (Transaction.Type_ transaction) "transfer"
  then
    let summary := AccountSummary.with_OpeningBalance
                     (AccountSummary.OpeningBalance summary
                      + Transaction.Amount transaction)%float summary in
    AccountSummary.with_TotalDebits
      (AccountSummary.TotalDebits summary + Transaction.Amount transaction)%float summary
  else summary.

(** The updates through the pointer [destSummary]. *)
Definition update_destination (transaction : Transaction.t)
    (destSummary : AccountSummary.t) : AccountSummary.t :=
  let destSummary := AccountSummary.with_TransactionCount
                       (int_incr (AccountSummary.TransactionCount destSummary))
                       destSummary in
  let destSummary := AccountSummary.with_OpeningBalance
                       (AccountSummary.OpeningBalance destSummary
                        - Transaction.Amount transaction)%float destSummary in
  AccountSummary.with_TotalCredits
    (AccountSummary.TotalCredits destSummary + Transaction.Amount transaction)%float
    destSummary.

(** The body of the second loop.  The source summary is updated before the
    destination is looked up, so a transfer from an account to itself
    updates the one summary twice. *)
Definition tally (summaries : gmap string AccountSummary.t)
    (transaction : Transaction.t) : gmap string AccountSummary.t :=
  if negb (String.eqb (Transaction.Status transaction) "completed")
  then summaries
  else
    match summaries !! Transaction.AccountID transaction with
    | None => summaries
    | Some summary =>
        let summaries :=
          <[Transaction.AccountID transaction := update_source transaction summary]>
            summaries in
        if String.eqb (Transaction.Type_ transaction) "transfer"
        then
          match summaries !! Transaction.DestinationAccountID transaction with
          | Some destSummary =>
              <[Transaction.DestinationAccountID transaction :=
                  update_destination transaction destSummary]> summaries
          | None => summaries
          end
        else summaries
    end.

(** The summaries after the first two loops. *)
Definition summaries_of (entries : list (string * Account.t))
    (transactions : list Transaction.t) (dateStr : string)
  : gmap string AccountSummary.t :=
  fold_left tally transactions (create_summaries entries dateStr ∅).

(** Every slice [GenerateAccountSummary] can return: one per order in which
    the two [range] loops over maps visit their entries. *)
Definition GenerateAccountSummary_returns (accounts : gmap string Account.t)
    (transactions : list Transaction.t) (dateStr : string)
    (result : list AccountSummary.t) : Prop :=
  exists entries visited,
    entries ≡ₚ map_to_list accounts /\
    visited ≡ₚ map_to_list (summaries_of entries transactions dateStr) /\
    result = visited.*2.

(** The run that visits both maps in the order of [map_to_list]. *)
Definition GenerateAccountSummary (accounts : gmap string Account.t)
    (transactions : list Transaction.t) (dateStr : string) : list AccountSummary.t :=
  (map_to_list (summaries_of (map_to_list accounts) transactions dateStr)).*2.

End output.
Export output.

(** ** The loaders of the packages [processor] and [ingestion] *)

(** What the loaders use of the standard library: opening a file, reading
    all records of a CSV file, and parsing numbers and times.  Each call
    returns a value or an error of the library. *)
Class Stdlib : Type := {
  syserror : Type;
  file : Type;
  os_Open : string -> syserror + file;
  csv_ReadAll : file -> syserror + list (list string);
  strconv_ParseFloat : string -> syserror + float;
  strconv_Atoi : string -> syserror + Z;
  time_Parse_RFC3339 : string -> syserror + Time
}.

(** An error made by [fmt.Errorf]: the format, the line number given for
    [%d] and the error wrapped by [%w]. *)
Record error `{Stdlib} : Type := Errorf {
  format : string;
  line : option Z;
  cause : option syserror
}.
Arguments Errorf {_} _ _ _.

Module loaders.
Section WithStdlib.
Context `{lib : Stdlib}.

(** The body of the loop of [LoadAccounts] for a data row: the account
    read from [record], or the error returned.  The fields [record[0]],
    [record[1]] and [record[2]] are read after the tests on [len(record)],
    within the slice. *)
Definition account_of_record (record : list string) (i : nat) : error + Account.t :=
  if (length record <? 2)%nat
  then inl (Errorf "invalid record format at line %d: insufficient fields"
              (Some (Z.of_nat i + 1)) None)
  else
    let accountID := nth 0 record "" in
    match strconv_ParseFloat (nth 1 record "") with
    | inl err => inl (Errorf "invalid balance at line %d: %w"
                        (Some (Z.of_nat i + 1)) (Some err))
    | inr balance =>
        let account := Account.mk accountID balance 0%float 0%float zeroTime 0 in
        let account :=
          if (2 <? length record)%nat
          then match strconv_Atoi (nth 2 record "") with
               | inr overdraftCount =>
                   Account.with_OverdraftCount overdraftCount account
               | inl _ => account
               end
          else account in
        inr account
    end.

(** The loop [for i, record := range records] of [LoadAccounts], from the
    index [i] on. *)
Fixpoint load_accounts (records : list (list string)) (i : nat)
    (accounts : gmap string Account.t) : error + gmap string Account.t :=
  match records with
  | [] => inr accounts
  | record :: rest =>
      if (i =? 0)%nat then load_accounts rest (S i) accounts
      else
        match account_of_record record i with
        | inl err => inl err
        | inr account =>
            load_accounts rest (S i) (<[nth 0 record "" := account]> accounts)
        end
  end.

Definition LoadAccounts (filePath : string) : error + gmap string Account.t :=
  match os_Open filePath with
  | inl err => inl (Errorf "error opening accounts file: %w" None (Some err))
  | inr file =>
      match csv_ReadAll file with
      | inl err => inl (Errorf "error reading CSV: %w" None (Some err))
      | inr records =>
          if (length records <? 2)%nat
          then inl (Errorf "accounts file is empty or missing data rows" None None)
          else load_accounts records 0 ∅
      end
  end.

Definition with_Timestamp (v : Time) (tx : Transaction.t) : Transaction.t :=
  Transaction.mk (Transaction.ID tx) (Transaction.AccountID tx)
    (Transaction.DestinationAccountID tx) v (Transaction.Amount tx)
    (Transaction.Type_ tx) (Transaction.Status tx) (Transaction.Description tx)
    (Transaction.ValidationMessage tx) (Transaction.ProcessingMessage tx).
Definition with_Amount (v : float) (tx : Transaction.t) : Transaction.t :=
  Transaction.mk (Transaction.ID tx) (Transaction.AccountID tx)
    (Transaction.DestinationAccountID tx) (Transaction.Timestamp tx) v
    (Transaction.Type_ tx) (Transaction.Status tx) (Transaction.Description tx)
    (Transaction.ValidationMessage tx) (Transaction.ProcessingMessage tx).
Definition with_Type (v : string) (tx : Transaction.t) : Transaction.t :=
  Transaction.mk (Transaction.ID tx) (Transaction.AccountID tx)
    (Transaction.DestinationAccountID tx) (Transaction.Timestamp tx)
    (Transaction.Amount tx) v (Transaction.Status tx) (Transaction.Description tx)
    (Transaction.ValidationMessage tx) (Transaction.ProcessingMessage tx).
Definition with_Description (v : string) (tx : Transaction.t) : Transaction.t :=
  Transaction.mk (Transaction.ID tx) (Transaction.AccountID tx)
    (Transaction.DestinationAccountID tx) (Transaction.Timestamp tx)
    (Transaction.Amount tx) (Transaction.Type_ tx) (Transaction.Status tx) v
    (Transaction.ValidationMessage tx) (Transaction.ProcessingMessage tx).
Definition with_DestinationAccountID (v : string) (tx : Transaction.t) : Transaction.t :=
  Transaction.mk (Transaction.ID tx) (Transaction.AccountID tx) v
    (Transaction.Timestamp tx) (Transaction.Amount tx) (Transaction.Type_ tx)
    (Transaction.Status tx) (Transaction.Description tx)
    (Transaction.ValidationMessage tx) (Transaction.ProcessingMessage tx).

(** [parseTransaction] returns the transaction as far as it is filled in,
    with the error if there is one; an index outside the record panics
    ([None]). *)
Definition parseTransaction (record : list string) (lineNum : Z)
  : option (Transaction.t * option error) :=
  id ← record !! 0%nat;
  accountID ← record !! 1%nat;
  let transaction := Transaction.mk id accountID "" zeroTime 0%float "" "" "" "" "" in
  field ← record !! 2%nat;
  match time_Parse_RFC3339 field with
  | inl err =>
      Some (transaction,
            Some (Errorf "invalid timestamp at line %d: %w" (Some lineNum) (Some err)))
  | inr timestamp =>
      let transaction := with_Timestamp timestamp transaction in
      field ← record !! 3%nat;
      match strconv_ParseFloat field with
      | inl err =>
          Some (transaction,
                Some (Errorf "invalid amount at line %d: %w" (Some lineNum) (Some err)))
      | inr amount =>
          let transaction := with_Amount amount transaction in
          transactionType ← record !! 4%nat;
          if negb (String.eqb transactionType "credit")
             && negb (String.eqb transactionType "debit")
             && negb (String.eqb transactionType "transfer")
          then
            Some (transaction,
                  Some (Errorf
                    "invalid transaction type at line %d: must be 'credit', 'debit', or 'transfer'"
                    (Some lineNum) None))
          else
            let transaction := with_Type transactionType transaction in
            status ← record !! 5%nat;
            if negb (String.eqb status "pending")
               && negb (String.eqb status "completed")
               && negb (String.eqb status "rejected")
            then
              Some (transaction,
                    Some (Errorf
                      "invalid status at line %d: must be 'pending', 'completed', or 'rejected'"
                      (Some lineNum) None))
            else
              let transaction := Transaction.with_Status status transaction in
              let transaction :=
                if (6 <? length record)%nat
                then with_Description (nth 6 record "") transaction
                else transaction in
              if String.eqb transactionType "transfer" && (length record <? 8)%nat
              then
                Some (transaction,
                      Some (Errorf
                        "transfer transaction at line %d is missing destination account"
                        (Some lineNum) None))
              else if String.eqb transactionType "transfer"
              then
                destination ← record !! 7%nat;
                Some (with_DestinationAccountID destination transaction, None)
              else Some (transaction, None)
      end
  end.

(** The data rows of [LoadTransactions], from the index [i] on. *)
Fixpoint load_transactions (records : list (list string)) (i : nat)
    (transactions : list Transaction.t) : option (error + list Transaction.t) :=
  match records with
  | [] => Some (inr transactions)
  | record :: rest =>
      if (i =? 0)%nat then load_transactions rest (S i) transactions
      else if (length record <? 6)%nat
      then Some (inl (Errorf "invalid record format at line %d: insufficient fields"
                        (Some (Z.of_nat i + 1)) None))
      else
        '(transaction, err) ← parseTransaction record (Z.of_nat i + 1);
        match err with
        | Some err => Some (inl err)
        | None => load_transactions rest (S i) (transactions ++ [transaction])
        end
  end.

(** [LoadTransactions] opens a fixed file, whatever [filePath] is. *)
Definition LoadTransactions (filePath : string) : option (error + list Transaction.t) :=
  match os_Open "data/transactions_2025-04-15.csv" with
  | inl err => Some (inl (Errorf "error opening transactions file: %w" None (Some err)))
  | inr file =>
      match csv_ReadAll file with
      | inl err => Some (inl (Errorf "error reading CSV: %w" None (Some err)))
      | inr records =>
          if (length records <? 2)%nat
          then Some (inl (Errorf "transaction file is empty or missing data rows"
                            None None))
          else load_transactions records 0 []
      end
  end.

End WithStdlib.
End loaders.
Export loaders.

(** * Vocabulary of the statements *)

(** [accounts[id]] read from a table. *)
Abbreviation account_of m id := (default Account.zero (m !! id)).

(** A transaction as the ledger engine expects it. *)
Definition validated (accounts : gmap string Account.t) (tx : Transaction.t) : Prop :=
  Transaction.Status tx = "pending" /\
  (Transaction.Amount tx <=? 0)%float = false /\
  is_Some (accounts !! Transaction.AccountID tx) /\
  (Transaction.Type_ tx = "transfer" ->
     Transaction.DestinationAccountID tx <> Transaction.AccountID tx /\
     is_Some (accounts !! Transaction.DestinationAccountID tx)).

(** The balances of a table are at or above the overdraft floor. *)
Definition above_floor (m : gmap string Account.t) : Prop :=
  forall id a, m !! id = Some a ->
               (processor.OverdraftLimit <=? Account.Balance a)%float = true.

(** ** The accounting identity *)

(** The value of a finite float as an integer multiple of [2^-1074], the
    smallest positive binary64 number (no binary64 number has an exponent
    below -1074); infinities and NaN have no value. *)
Definition scaled (x : float) : option Z :=
  match Prim2SF x with
  | S754_zero _ => Some 0
  | S754_finite s m e => Some ((if s then - Z.pos m else Z.pos m) * 2 ^ (e + 1074))
  | S754_infinity _ | S754_nan => None
  end.

(** The three running totals of an account. *)
Definition totals (a : Account.t) : float * float * float :=
  (Account.Balance a, Account.DailyCredits a, Account.DailyDebits a).

(** The totals have values. *)
Definition finite_totals (t : float * float * float) : Prop :=
  let '(b, c, d) := t in
  is_Some (scaled b) /\ is_Some (scaled c) /\ is_Some (scaled d).

(** The identity between the totals before and after, on their values:
    the change of the balance is the change of the daily credits minus the
    change of the daily debits. *)
Definition accounting_identity (before after : float * float * float) : Prop :=
  let '(b0, c0, d0) := before in
  let '(b1, c1, d1) := after in
  exists vb0 vc0 vd0 vb1 vc1 vd1,
    scaled b0 = Some vb0 /\ scaled c0 = Some vc0 /\ scaled d0 = Some vd0 /\
    scaled b1 = Some vb1 /\ scaled c1 = Some vc1 /\ scaled d1 = Some vd1 /\
    vb1 - vb0 = (vc1 - vc0) - (vd1 - vd0).

(** The same identity computed in binary64 arithmetic. *)
Definition accounting_identity_float (before after : float * float * float) : bool :=
  let '(b0, c0, d0) := before in
  let '(b1, c1, d1) := after in
  (b1 - b0 =? (c1 - c0) - (d1 - d0))%float.

(** An amount moved into or out of an account by a completed transaction. *)
Inductive movement : Type :=
| Credited (amount : float)
| Debited (amount : float).

(** What the handlers do to the totals of an account they credit or debit. *)
Definition apply_movement (t : float * float * float) (mv : movement)
  : float * float * float :=
  let '(b, c, d) := t in
  match mv with
  | Credited a => ((b + a)%float, (c + a)%float, d)
  | Debited a => ((b - a)%float, c, (d + a)%float)
  end.

(** [r] is the sum of [x] and [a] without rounding. *)
Definition exact_sum (x a r : float) : Prop :=
  exists vx va, scaled x = Some vx /\ scaled a = Some va /\ scaled r = Some (vx + va).

(** [r] is the difference of [x] and [a] without rounding. *)
Definition exact_difference (x a r : float) : Prop :=
  exists vx va, scaled x = Some vx /\ scaled a = Some va /\ scaled r = Some (vx - va).

(** No operation of the movement rounds. *)
Definition exact_movement (t : float * float * float) (mv : movement) : Prop :=
  let '(b, c, d) := t in
  match mv with
  | Credited a => exact_sum b a (b + a)%float /\ exact_sum c a (c + a)%float
  | Debited a => exact_difference b a (b - a)%float /\ exact_sum d a (d + a)%float
  end.

Fixpoint all_exact (t : float * float * float) (moves : list movement) : Prop :=
  match moves with
  | [] => True
  | mv :: rest => exact_movement t mv /\ all_exact (apply_movement t mv) rest
  end.

(** What a transaction, as [ProcessTransactions] returns it, has moved
    into or out of account [id]: nothing unless it is [completed]; a credit
    of the account, or a transfer to it, credits its amount; a debit of the
    account, or a transfer from it to another account, debits its amount.
    A transfer from an account to itself only credits it, the write of the
    destination coming last. *)
Definition movement_of (id : string) (stamped : Transaction.t) : list movement :=
  let amount := Transaction.Amount stamped in
  let from_id := String.eqb (Transaction.AccountID stamped) id in
  let to_id := String.eqb (Transaction.DestinationAccountID stamped) id in
  if negb (String.eqb (Transaction.Status stamped) "completed") then []
  else if String.eqb (Transaction.Type_ stamped) "credit" then
    if from_id then [Credited amount] else []
  else if String.eqb (Transaction.Type_ stamped) "debit" then
    if from_id then [Debited amount] else []
  else if String.eqb (Transaction.Type_ stamped) "transfer" then
    if to_id then [Credited amount]
    else if from_id then [Debited amount] else []
  else [].

(** The movements of account [id] in a batch, in the order of the batch. *)
Definition movements_of (id : string) (stamped : list Transaction.t) : list movement :=
  flat_map (movement_of id) stamped.

(** ** The detector *)

(** A completed debit of account [id]: what the first loop files under
    [withdrawalsByAccount[id]]. *)
Definition is_withdrawal_of (id : string) (tx : Transaction.t) : bool :=
  String.eqb (Transaction.Status tx) "completed"
  && String.eqb (Transaction.Type_ tx) "debit"
  && String.eqb (Transaction.AccountID tx) id.

(** A [rapid_withdrawals] anomaly of account [id]. *)
Definition is_rapid_for (id : string) (an : Anomaly.t) : bool :=
  String.eqb (Anomaly.Type_ an) "rapid_withdrawals"
  && String.eqb (Anomaly.AccountID an) id.



(** An [account_overdraft] anomaly. *)
Definition is_overdraft (an : Anomaly.t) : bool :=
  String.eqb (Anomaly.Type_ an) "account_overdraft".

(** The [account_overdraft] anomaly the first loop appends for a completed
    transaction whose source account has the balance [balance]. *)
Definition overdraft_anomaly (tx : Transaction.t) (balance : float) : Anomaly.t :=
  Anomaly.mk (Transaction.ID tx) (Transaction.AccountID tx) (Transaction.Timestamp tx)
    "account_overdraft" (AccountOverdraftText balance) (overdraft_severity balance).

(** ** Rounding *)

(** The remainder that a right shift has dropped is not zero. *)
Definition inexact (mrs : shr_record) : bool := shr_r mrs || shr_s mrs.

(** The mantissa of 1000 at the exponent -43. *)
Definition M1000 : positive := 8796093022208000.

(** [-1000] as a specification float. *)
Definition SF_floor : spec_float := S754_finite true M1000 (-43).

(** ** Bounds on a binary64 number *)








(** ** The further properties *)

(** [stamped] is [tx] with a status and a processing message. *)
Definition stamp_of (tx stamped : Transaction.t) : Prop :=
  exists status message,
    stamped = Transaction.with_ProcessingMessage message
                (Transaction.with_Status status tx).

(** The outcomes that the type of a transaction allows. *)
Definition outcome_of (tx stamped : Transaction.t) : Prop :=
  (Transaction.Type_ tx = "credit" -> Transaction.Status stamped = "completed") /\
  (Transaction.Type_ tx = "debit" \/ Transaction.Type_ tx = "transfer" ->
     Transaction.Status stamped = "completed" \/
     Transaction.Status stamped = "rejected") /\
  (Transaction.Type_ tx <> "credit" -> Transaction.Type_ tx <> "debit" ->
   Transaction.Type_ tx <> "transfer" -> stamped = tx).

(** The time of the last completed transaction that names [id] as its
    account, [init] when there is none. *)
Fixpoint last_completed (id : string) (stamped : list Transaction.t) (init : Time)
  : Time :=
  match stamped with
  | [] => init
  | st :: rest =>
      last_completed id rest
        (if String.eqb (Transaction.Status st) "completed"
            && String.eqb (Transaction.AccountID st) id
         then Transaction.Timestamp st else init)
  end.

(** The tests a transaction has to pass, as one condition. *)
Definition accepts (accounts : gmap string Account.t) (tx : Transaction.t) : bool :=
  String.eqb (Transaction.Status tx) "pending"
  && negb (Transaction.Amount tx <=? 0)%float
  && has_account accounts (Transaction.AccountID tx)
  && (negb (String.eqb (Transaction.Type_ tx) "transfer")
      || (negb (String.eqb (Transaction.DestinationAccountID tx) "")
          && has_account accounts (Transaction.DestinationAccountID tx)
          && negb (String.eqb (Transaction.DestinationAccountID tx)
                              (Transaction.AccountID tx)))).

(** The message of a refused transaction: a failure of the status comes
    first, then one of the destination of a transfer, then a missing
    account, then the amount. *)
Definition refusal (accounts : gmap string Account.t) (tx : Transaction.t) : string :=
  if String.eqb (Transaction.Status tx) "rejected"
  then "Already rejected in input file"
  else if negb (String.eqb (Transaction.Status tx) "pending")
  then "Only pending transactions can be processed"
  else if String.eqb (Transaction.Type_ tx) "transfer"
          && String.eqb (Transaction.DestinationAccountID tx) ""
  then "Transfer is missing destination account"
  else if String.eqb (Transaction.Type_ tx) "transfer"
          && negb (has_account accounts (Transaction.DestinationAccountID tx))
  then "Destination account " +:+ Transaction.DestinationAccountID tx +:+ " does not exist"
  else if String.eqb (Transaction.Type_ tx) "transfer"
          && String.eqb (Transaction.DestinationAccountID tx) (Transaction.AccountID tx)
  then "Source and destination accounts cannot be the same"
  else if negb (has_account accounts (Transaction.AccountID tx))
  then "Account " +:+ Transaction.AccountID tx +:+ " does not exist"
  else "Transaction amount must be positive".

(** A transaction whose status is [completed]. *)
Definition is_completed (tx : Transaction.t) : bool :=
  String.eqb (Transaction.Status tx) "completed".

(** A [large_transaction] anomaly. *)
Definition is_large (an : Anomaly.t) : bool :=
  String.eqb (Anomaly.Type_ an) "large_transaction".

(** The [large_transaction] anomaly the first loop appends for a completed
    transaction at or above the threshold. *)
Definition large_anomaly (tx : Transaction.t) : Anomaly.t :=
  Anomaly.mk (Transaction.ID tx) (Transaction.AccountID tx) (Transaction.Timestamp tx)
    "large_transaction" (LargeTransactionText (Transaction.Amount tx)) "medium".

(** [_, exists := summaries[id]] *)
Definition has_summary (summaries : gmap string AccountSummary.t) (id : string) : bool :=
  match summaries !! id with Some _ => true | None => false end.

(** What one transaction does to the summary of the account [id], when
    [known] tells which accounts have a summary. *)
Definition touch (known : string -> bool) (id : string) (s : AccountSummary.t)
    (tx : Transaction.t) : AccountSummary.t :=
  if is_completed tx && known (Transaction.AccountID tx)
  then
    let s := if String.eqb (Transaction.AccountID tx) id then update_source tx s else s in
    if String.eqb (Transaction.Type_ tx) "transfer"
       && String.eqb (Transaction.DestinationAccountID tx) id
    then update_destination tx s else s
  else s.

(** A completed transaction whose account is [id]. *)
Definition counts_as_source (id : string) (tx : Transaction.t) : bool :=
  is_completed tx && String.eqb (Transaction.AccountID tx) id.

(** A completed transfer to [id] from an account that has a summary. *)
Definition counts_as_destination (accounts : gmap string Account.t) (id : string)
    (tx : Transaction.t) : bool :=
  is_completed tx && has_account accounts (Transaction.AccountID tx)
  && String.eqb (Transaction.Type_ tx) "transfer"
  && String.eqb (Transaction.DestinationAccountID tx) id.

(** What a stamped transaction adds to the daily debits of [id]. *)
Definition debits_step (id : string) (total : float) (st : Transaction.t) : float :=
  if is_completed st && String.eqb (Transaction.AccountID st) id
     && (String.eqb (Transaction.Type_ st) "debit"
         || String.eqb (Transaction.Type_ st) "transfer")
  then (total + Transaction.Amount st)%float else total.

(** What a stamped transaction adds to the daily credits of [id]. *)
Definition credits_step (id : string) (total : float) (st : Transaction.t) : float :=
  if is_completed st
     && ((String.eqb (Transaction.Type_ st) "credit"
          && String.eqb (Transaction.AccountID st) id)
         || (String.eqb (Transaction.Type_ st) "transfer"
             && String.eqb (Transaction.DestinationAccountID st) id))
  then (total + Transaction.Amount st)%float else total.

(** An account as [LoadAccounts] files it: under its own id, with the
    daily counters at zero and no last transaction. *)
Definition fresh_account (id : string) (a : Account.t) : Prop :=
  Account.ID a = id /\
  Account.DailyDebits a = 0%float /\
  Account.DailyCredits a = 0%float /\
  Account.LastTransactionTime a = zeroTime.

(** The row that decides the account filed under [id]: the last one whose
    first field is [id]. *)
Definition deciding_row (id : string) (rows : list (list string)) : option (list string) :=
  last (List.filter (fun row => String.eqb (nth 0 row "") id) rows).

Section ParsedFrom.
Context `{lib : Stdlib}.

(** What a transaction that [parseTransaction] returns without error has
    taken from its record. *)
Definition parsed_from (record : list string) (tx : Transaction.t) : Prop :=
  record !! 0%nat = Some (Transaction.ID tx) /\
  record !! 1%nat = Some (Transaction.AccountID tx) /\
  time_Parse_RFC3339 (nth 2 record "") = inr (Transaction.Timestamp tx) /\
  strconv_ParseFloat (nth 3 record "") = inr (Transaction.Amount tx) /\
  record !! 4%nat = Some (Transaction.Type_ tx) /\
  (Transaction.Type_ tx = "credit" \/ Transaction.Type_ tx = "debit" \/
   Transaction.Type_ tx = "transfer") /\
  record !! 5%nat = Some (Transaction.Status tx) /\
  (Transaction.Status tx = "pending" \/ Transaction.Status tx = "completed" \/
   Transaction.Status tx = "rejected") /\
  Transaction.Description tx = nth 6 record "" /\
  (if String.eqb (Transaction.Type_ tx) "transfer"
   then record !! 7%nat = Some (Transaction.DestinationAccountID tx)
   else Transaction.DestinationAccountID tx = "") /\
  Transaction.ValidationMessage tx = "" /\
  Transaction.ProcessingMessage tx = "".

End ParsedFrom.

(** ** Concrete data *)

Module examples.

Definition account (id : string) (balance : float) : Account.t :=
  Account.mk id balance 0%float 0%float zeroTime 0.

Definition pending (id src dst : string) (ts : Time) (amount : float)
    (type : string) : Transaction.t :=
  Transaction.mk id src dst ts amount type "pending" "" "" "".

Definition completed (id src : string) (ts : Time) (amount : float)
    (type : string) : Transaction.t :=
  Transaction.mk id src "" ts amount type "completed" "" "" "".

(** [A1] holds 100 and [A2] holds 50. *)
Definition accounts : gmap string Account.t :=
  {[ "A1" := account "A1" 100%float; "A2" := account "A2" 50%float ]}.

Definition store : heap := {[ 1%positive := accounts ]}.

Definition debit_50 : Transaction.t := pending "T1" "A1" "" 5 50%float "debit".
Definition debit_1200 : Transaction.t := pending "T2" "A1" "" 6 1200%float "debit".
Definition transfer_200 : Transaction.t := pending "T3" "A1" "A2" 7 200%float "transfer".
Definition credit_100 : Transaction.t := pending "T4" "A1" "" 8 100%float "credit".

(** A transfer of 30 from [A1] to itself, which validation would refuse. *)
Definition self_transfer : Transaction.t := pending "T7" "A1" "A1" 11 30%float "transfer".

(** [A1] holds 1e16 and [A2] holds 50; a transfer of 1 from [A1] to [A2]. *)
Definition large_accounts : gmap string Account.t :=
  {[ "A1" := account "A1" 1e16%float; "A2" := account "A2" 50%float ]}.
Definition large_store : heap := {[ 1%positive := large_accounts ]}.
Definition transfer_1 : Transaction.t :=
  pending "T9" "A1" "A2" 13 1%float "transfer".

(** [A1] starts below the overdraft floor. *)
Definition overdrawn_store : heap :=
  {[ 1%positive := {[ "A1" := account "A1" (-2000)%float ]} ]}.

(** [A1] holds 10000; a transfer of 6000 to [A2]. *)
Definition rich_store : heap :=
  {[ 1%positive := {[ "A1" := account "A1" 10000%float;
                      "A2" := account "A2" 50%float ]} ]}.
Definition transfer_6000 : Transaction.t :=
  pending "T5" "A1" "A2" 9 6000%float "transfer".

(** [A1] holds 0.1 (the binary64 number nearest to it); a credit of 0.2. *)
Definition dime_store : heap :=
  {[ 1%positive := {[ "A1" := account "A1" 0x1.999999999999ap-4%float ]} ]}.
Definition credit_020 : Transaction.t :=
  pending "T6" "A1" "" 10 0x1.999999999999ap-3%float "credit".

Definition minute : Z := 60000000000.

(** Four completed debits of 100 on [A2] within ten minutes. *)
Definition four_debits : list Transaction.t :=
  [ completed "W1" "A2" 0 100%float "debit";
    completed "W2" "A2" (2 * minute) 100%float "debit";
    completed "W3" "A2" (5 * minute) 100%float "debit";
    completed "W4" "A2" (9 * minute) 100%float "debit" ].

(** [A1] ends the day at -600. *)
Definition final_accounts : gmap string Account.t :=
  {[ "A1" := account "A1" (-600)%float; "A2" := account "A2" 50%float ]}.

Definition day : list Transaction.t :=
  completed "C1" "A1" 0 20%float "credit" :: four_debits.

End examples.

(** ** Concrete files *)

Module files.

(** A file system with three files, read as CSV records, and parsers that
    know the numbers and the times the files hold. *)
Definition accounts_csv : list (list string) :=
  [ ["account_id"; "balance"];
    ["A1"; "100"];
    ["A2"; "50"] ].

Definition transactions_csv : list (list string) :=
  [ ["transaction_id"; "account_id"; "timestamp"; "amount"; "type"; "status"];
    ["T1"; "A1"; "1970-01-01T00:00:00.000000005Z"; "50"; "debit"; "pending"];
    ["T3"; "A1"; "1970-01-01T00:00:00.000000007Z"; "200"; "transfer"; "pending"; ""; "A2"] ].

(** The second data row has no balance. *)
Definition broken_csv : list (list string) :=
  [ ["account_id"; "balance"];
    ["A1"; "100"];
    ["A2"] ].

Definition open (path : string) : string + list (list string) :=
  if String.eqb path "data/accounts.csv" then inr accounts_csv
  else if String.eqb path "data/transactions_2025-04-15.csv" then inr transactions_csv
  else if String.eqb path "data/broken.csv" then inr broken_csv
  else inl "no such file or directory".

Definition parse_float (s : string) : string + float :=
  if String.eqb s "100" then inr 100%float
  else if String.eqb s "50" then inr 50%float
  else if String.eqb s "200" then inr 200%float
  else inl "invalid syntax".

Definition parse_int (s : string) : string + Z :=
  if String.eqb s "0" then inr 0 else inl "invalid syntax".

Definition parse_time (s : string) : string + Time :=
  if String.eqb s "1970-01-01T00:00:00.000000005Z" then inr 5
  else if String.eqb s "1970-01-01T00:00:00.000000007Z" then inr 7
  else inl "cannot parse".

Definition lib : Stdlib :=
  {| syserror := string;
     file := list (list string);
     os_Open := open;
     csv_ReadAll := inr;
     strconv_ParseFloat := parse_float;
     strconv_Atoi := parse_int;
     time_Parse_RFC3339 := parse_time |}.

(** A completed credit of 20000 on [A1], then the day of [examples.day]. *)
Definition busy_day : list Transaction.t :=
  examples.completed "L1" "A1" 0 20000%float "credit" :: examples.day.

End files.

(** * Facts about binary64 arithmetic

    The primitive operations are specified by the functions of [SpecFloat]
    on [spec_float]; the facts below are proved from that specification. *)

(** ** Comparisons *)

Lemma compare_cont_flip (p q : positive) :
  Pos.compare_cont Eq q p = CompOpp (Pos.compare_cont Eq p q).
Proof. symmetry. apply (Pos.compare_cont_antisym p q Eq). Qed.

Lemma SFcompare_antisym (x y : spec_float) :
  SFcompare y x = option_map CompOpp (SFcompare x y).
Proof.
  destruct x as [sx|sx| |sx mx ex], y as [sy|sy| |sy my ey]; cbn;
    try reflexivity;
    try (destruct sx; reflexivity); try (destruct sy; reflexivity);
    try (destruct sx, sy; reflexivity).
  rewrite (Z.compare_antisym ex ey), (compare_cont_flip mx my).
  destruct sx, sy; cbn; try reflexivity;
    destruct (ex ?= ey); cbn; try reflexivity;
    now rewrite ?CompOpp_involutive.
Qed.

Lemma SFcompare_refl (x : spec_float) :
  x <> S754_nan -> SFcompare x x = Some Eq.
Proof.
  destruct x as [s|s| |s m e]; cbn; intros H; try congruence.
  - destruct s; reflexivity.
  - destruct s; rewrite Z.compare_refl, Pos.compare_cont_refl; reflexivity.
Qed.

(** A float that equals itself is a number. *)
Lemma eqb_self_not_nan (x : float) :
  (x =? x)%float = true <-> Prim2SF x <> S754_nan.
Proof.
  rewrite FloatAxioms.eqb_spec. unfold SFeqb. split.
  - intros H Hn. rewrite Hn in H. discriminate.
  - intros H. now rewrite SFcompare_refl.
Qed.

Lemma SFcompare_defined (x y : spec_float) :
  x <> S754_nan -> y <> S754_nan -> exists c, SFcompare x y = Some c.
Proof.
  destruct x, y; cbn; intros; try congruence; eauto.
Qed.

Lemma ltb_false_leb (x y : float) :
  (x =? x)%float = true -> (y =? y)%float = true ->
  (y <? x)%float = false -> (x <=? y)%float = true.
Proof.
  rewrite !eqb_self_not_nan, FloatAxioms.ltb_spec, FloatAxioms.leb_spec. intros Hx Hy.
  unfold SFltb, SFleb. rewrite (SFcompare_antisym (Prim2SF x) (Prim2SF y)).
  destruct (SFcompare_defined _ _ Hx Hy) as [c ->]. now destruct c.
Qed.

Lemma leb_true_ltb (x y : float) :
  (x <=? y)%float = true -> (y <? x)%float = false.
Proof.
  rewrite FloatAxioms.ltb_spec, FloatAxioms.leb_spec.
  unfold SFltb, SFleb. rewrite (SFcompare_antisym (Prim2SF x) (Prim2SF y)).
  destruct (SFcompare _ _) as [[]|]; cbn; congruence.
Qed.

Lemma leb_true_not_nan (x y : float) :
  (x <=? y)%float = true -> (x =? x)%float = true /\ (y =? y)%float = true.
Proof.
  rewrite !eqb_self_not_nan, FloatAxioms.leb_spec. unfold SFleb.
  destruct (Prim2SF x), (Prim2SF y); cbn; intros H; split; congruence.
Qed.

Lemma ltb_800_500 (b : float) :
  (b <? -800)%float = true -> (b <? -500)%float = true.
Proof.
  rewrite !FloatAxioms.ltb_spec.
  change (Prim2SF (-800)%float) with (S754_finite true 7036874417766400 (-43)).
  change (Prim2SF (-500)%float) with (S754_finite true 8796093022208000 (-44)).
  unfold SFltb, SFcompare.
  destruct (Prim2SF b) as [s|s| |s m e].
  - discriminate.
  - destruct s; [reflexivity|discriminate].
  - discriminate.
  - destruct s; [|discriminate].
    destruct (Z.compare_spec e (-43)) as [He|He|He]; try discriminate.
    + subst e. intros _. reflexivity.
    + intros _.
      destruct (Z.compare_spec e (-44)) as [He'|He'|He']; try reflexivity; lia.
Qed.

(** ** Digits and shifts of the rounding algorithm *)

Lemma digits2_pos_bounds (p : positive) :
  2 ^ (Z.pos (digits2_pos p) - 1) <= Z.pos p < 2 ^ Z.pos (digits2_pos p).
Proof.
  induction p as [p IH|p IH|]; cbn [digits2_pos].
  - rewrite Pos2Z.inj_succ. replace (Z.succ (Z.pos (digits2_pos p)) - 1)
      with (Z.succ (Z.pos (digits2_pos p) - 1)) by lia.
    rewrite !Z.pow_succ_r by lia. lia.
  - rewrite Pos2Z.inj_succ. replace (Z.succ (Z.pos (digits2_pos p)) - 1)
      with (Z.succ (Z.pos (digits2_pos p) - 1)) by lia.
    rewrite !Z.pow_succ_r by lia. lia.
  - cbn. lia.
Qed.

Lemma iter_xO_value (p d : positive) :
  Z.pos (Pos.iter xO p d) = Z.pos p * 2 ^ Z.pos d.
Proof.
  change (Pos.iter xO p d) with (shift_pos d p).
  rewrite shift_pos_correct, Zpower_pos_nat, Zpower_nat_Z, positive_nat_Z. lia.
Qed.

Lemma shr_1_spec (mrs : shr_record) :
  0 <= shr_m mrs ->
  shr_m (shr_1 mrs) = shr_m mrs / 2 /\
  (inexact mrs = false -> shr_m mrs mod 2 = 0 -> inexact (shr_1 mrs) = false).
Proof.
  destruct mrs as [m r s]. cbn [shr_m]. intros Hm.
  destruct m as [|[p|p|]|p]; try lia; unfold inexact; cbn [shr_1 shr_m shr_r shr_s].
  - split; [reflexivity|]. intros ->. reflexivity.
  - split; [rewrite Pos2Z.inj_xI; apply Z.div_unique with 1; lia|].
    intros _ H. rewrite Pos2Z.inj_xI in H.
    replace (2 * Z.pos p + 1) with (1 + Z.pos p * 2) in H by lia.
    rewrite Z.mod_add in H by lia. discriminate.
  - split; [rewrite Pos2Z.inj_xO; apply Z.div_unique with 0; lia|].
    intros ->. reflexivity.
  - split; [reflexivity|]. intros _ H. discriminate.
Qed.

Lemma iter_shr_1_spec (n : positive) (mrs : shr_record) :
  0 <= shr_m mrs ->
  shr_m (SpecFloat.iter_pos shr_1 n mrs) = shr_m mrs / 2 ^ Z.pos n /\
  (inexact mrs = false -> shr_m mrs mod 2 ^ Z.pos n = 0 ->
   inexact (SpecFloat.iter_pos shr_1 n mrs) = false).
Proof.
  revert mrs.
  assert (Hcompose : forall (a b : Z) (f g : shr_record -> shr_record),
    0 <= a -> 0 <= b ->
    (forall mrs, 0 <= shr_m mrs ->
       shr_m (f mrs) = shr_m mrs / 2 ^ a /\
       (inexact mrs = false -> shr_m mrs mod 2 ^ a = 0 -> inexact (f mrs) = false)) ->
    (forall mrs, 0 <= shr_m mrs ->
       shr_m (g mrs) = shr_m mrs / 2 ^ b /\
       (inexact mrs = false -> shr_m mrs mod 2 ^ b = 0 -> inexact (g mrs) = false)) ->
    forall mrs, 0 <= shr_m mrs ->
       shr_m (g (f mrs)) = shr_m mrs / 2 ^ (a + b) /\
       (inexact mrs = false -> shr_m mrs mod 2 ^ (a + b) = 0 ->
        inexact (g (f mrs)) = false)).
  { intros a b f g Ha Hb Hf Hg mrs Hm.
    destruct (Hf mrs Hm) as [Hfm Hfi].
    assert (Hpa : 0 < 2 ^ a) by (apply Z.pow_pos_nonneg; lia).
    assert (Hpb : 0 < 2 ^ b) by (apply Z.pow_pos_nonneg; lia).
    assert (Hm' : 0 <= shr_m (f mrs)) by (rewrite Hfm; apply Z.div_pos; lia).
    destruct (Hg (f mrs) Hm') as [Hgm Hgi].
    rewrite Z.pow_add_r by lia.
    split.
    - rewrite Hgm, Hfm, Z.div_div by lia. reflexivity.
    - intros Hi Hmod.
      apply Z.mod_divide in Hmod; [|lia]. destruct Hmod as [k Hk].
      apply Hgi.
      + apply Hfi; [exact Hi|]. rewrite Hk.
        replace (k * (2 ^ a * 2 ^ b)) with ((k * 2 ^ b) * 2 ^ a) by ring.
        apply Z.mod_mul. lia.
      + rewrite Hfm, Hk.
        replace (k * (2 ^ a * 2 ^ b)) with ((k * 2 ^ b) * 2 ^ a) by ring.
        rewrite Z.div_mul by lia. apply Z.mod_mul. lia. }
  induction n as [n IH|n IH|]; intros mrs Hm; cbn [SpecFloat.iter_pos].
  - replace (Z.pos n~1) with ((1 + Z.pos n) + Z.pos n) by lia.
    apply (Hcompose (1 + Z.pos n) (Z.pos n) (fun x => SpecFloat.iter_pos shr_1 n (shr_1 x))
                    (SpecFloat.iter_pos shr_1 n)); try lia; try exact IH.
    apply (Hcompose 1 (Z.pos n) shr_1 (SpecFloat.iter_pos shr_1 n)); try lia; try exact IH.
    intros x Hx. rewrite Z.pow_1_r. apply shr_1_spec. exact Hx.
  - replace (Z.pos n~0) with (Z.pos n + Z.pos n) by lia.
    apply (Hcompose (Z.pos n) (Z.pos n) (SpecFloat.iter_pos shr_1 n) (SpecFloat.iter_pos shr_1 n));
      try lia; try exact IH.
  - rewrite Z.pow_1_r. apply shr_1_spec. exact Hm.
Qed.

Lemma fexp64_unfold (e : Z) : fexp prec emax e = Z.max (e - 53) (-1074).
Proof. reflexivity. Qed.

Lemma loc_exact_of_inexact (mrs : shr_record) :
  inexact mrs = false -> loc_of_shr_record mrs = loc_Exact.
Proof. destruct mrs as [m [|] [|]]; cbn; congruence. Qed.

(** The right shift that brings a mantissa to its canonical exponent. *)
Lemma shr_fexp_exact (m e : Z) :
  0 <= m ->
  let n := Z.max (fexp prec emax (Zdigits2 m + e) - e) 0 in
  exists mrs,
    shr_fexp prec emax m e loc_Exact = (mrs, e + n) /\
    shr_m mrs = m / 2 ^ n /\
    (m mod 2 ^ n = 0 -> loc_of_shr_record mrs = loc_Exact).
Proof.
  intros Hm n. unfold shr_fexp, shr. subst n.
  destruct (fexp prec emax (Zdigits2 m + e) - e) as [|k|k] eqn:Hk.
  - exists (Build_shr_record m false false). cbn [Z.max shr_record_of_loc shr_m].
    rewrite Z.add_0_r, Z.div_1_r. auto.
  - destruct (iter_shr_1_spec k (Build_shr_record m false false) Hm) as [H1 H2].
    eexists. rewrite (Z.max_l (Z.pos k) 0) by lia.
    split; [reflexivity|]. split; [exact H1|].
    intros Hmod. apply loc_exact_of_inexact. apply H2; [reflexivity|exact Hmod].
  - exists (Build_shr_record m false false). rewrite (Z.max_r (Z.neg k) 0) by lia.
    cbn [shr_record_of_loc shr_m]. rewrite Z.add_0_r, Z.div_1_r. auto.
Qed.

Lemma round_nearest_even_bounds (m : Z) (l : location) :
  m <= round_nearest_even m l <= m + 1 /\
  (l = loc_Exact -> round_nearest_even m l = m).
Proof.
  destruct l as [|[| |]]; cbn; try (split; [lia|congruence]).
  destruct (Z.even m); split; try lia; congruence.
Qed.

(** The outcome of rounding a non-negative mantissa keeps the sign and is
    never NaN. *)
Lemma binary_round_aux_shape (s : bool) (m e : Z) :
  0 <= m ->
  (binary_round_aux prec emax s m e loc_Exact = S754_zero s) \/
  (exists m' e', binary_round_aux prec emax s m e loc_Exact = S754_finite s m' e') \/
  (binary_round_aux prec emax s m e loc_Exact = S754_infinity s).
Proof.
  intros Hm. unfold binary_round_aux.
  destruct (shr_fexp_exact m e Hm) as (mrs & -> & Hm1 & _).
  set (m1 := round_nearest_even (shr_m mrs) (loc_of_shr_record mrs)).
  assert (Hm1' : 0 <= m1).
  { pose proof (round_nearest_even_bounds (shr_m mrs) (loc_of_shr_record mrs)) as [Hb _].
    fold m1 in Hb. rewrite Hm1 in Hb.
    assert (0 <= m / 2 ^ Z.max (fexp prec emax (Zdigits2 m + e) - e) 0)
      by (apply Z.div_pos; [lia|apply Z.pow_pos_nonneg; lia]).
    lia. }
  match goal with
  | |- context [shr_fexp prec emax m1 ?e2 loc_Exact] =>
      destruct (shr_fexp_exact m1 e2 Hm1') as (mrs2 & -> & Hm2 & _)
  end.
  assert (0 <= shr_m mrs2).
  { rewrite Hm2. apply Z.div_pos; [lia|apply Z.pow_pos_nonneg; lia]. }
  destruct (shr_m mrs2) as [|p|p]; [left; reflexivity| |lia].
  right. destruct (_ <=? _); [left; eauto|right; reflexivity].
Qed.

Lemma value_digits_bound (m : positive) (e : Z) :
  -1074 <= e ->
  Z.pos m * 2 ^ (e + 1074) <= Z.pos M1000 * 2 ^ 1031 ->
  Z.pos (digits2_pos m) + e <= 10.
Proof.
  intros He Hval.
  pose proof (digits2_pos_bounds m) as [Hlo _].
  assert (Hpe : 0 < 2 ^ (e + 1074)) by (apply Z.pow_pos_nonneg; lia).
  assert (H1 : 2 ^ (Z.pos (digits2_pos m) - 1) * 2 ^ (e + 1074) < 2 ^ 53 * 2 ^ 1031).
  { eapply Z.le_lt_trans; [apply Z.mul_le_mono_nonneg_r; [lia|exact Hlo]|].
    eapply Z.le_lt_trans; [exact Hval|].
    apply Z.mul_lt_mono_pos_r; [apply Z.pow_pos_nonneg; lia|].
    unfold M1000. reflexivity. }
  rewrite <- !Z.pow_add_r in H1 by lia.
  apply Z.pow_lt_mono_r_iff in H1; lia.
Qed.

(** Rounding a negative value that is not below [-1000] does not go below
    [-1000]. *)
Lemma binary_round_aux_floor (q : positive) (e0 : Z) :
  -1074 <= e0 ->
  e0 <= fexp prec emax (Z.pos (digits2_pos q) + e0) ->
  Z.pos q * 2 ^ (e0 + 1074) <= Z.pos M1000 * 2 ^ 1031 ->
  SFleb SF_floor (binary_round_aux prec emax true (Z.pos q) e0 loc_Exact) = true.
Proof.
  intros He0 Hcanon Hval.
  pose proof (value_digits_bound q e0 He0 Hval) as Hsum.
  rewrite fexp64_unfold in Hcanon.
  unfold binary_round_aux.
  destruct (shr_fexp_exact (Z.pos q) e0 ltac:(lia)) as (mrs & -> & Hm1 & Hex1).
  cbn [Zdigits2] in *. rewrite fexp64_unfold in *.
  set (e1 := Z.max (Z.pos (digits2_pos q) + e0 - 53) (-1074)) in *.
  replace (Z.max (e1 - e0) 0) with (e1 - e0) in * by lia.
  replace (e0 + (e1 - e0)) with e1 by lia.
  set (n := e1 - e0) in *.
  set (K := Z.pos M1000 * 2 ^ (-43 - e1)).
  assert (Hpn : 0 < 2 ^ n) by (apply Z.pow_pos_nonneg; lia).
  assert (HqK : Z.pos q <= K * 2 ^ n).
  { assert (Hp0 : 0 < 2 ^ (e0 + 1074)) by (apply Z.pow_pos_nonneg; lia).
    apply (Z.mul_le_mono_pos_r _ _ (2 ^ (e0 + 1074)) Hp0).
    eapply Z.le_trans; [exact Hval|]. unfold K.
    rewrite <- !Z.mul_assoc, <- !Z.pow_add_r by lia.
    replace (-43 - e1 + (n + (e0 + 1074))) with 1031 by lia. lia. }
  set (m1 := round_nearest_even (shr_m mrs) (loc_of_shr_record mrs)).
  assert (Hm1b : 0 <= m1 <= K).
  { pose proof (round_nearest_even_bounds (shr_m mrs) (loc_of_shr_record mrs))
      as [Hb Hexact]. fold m1 in Hb, Hexact. rewrite Hm1 in Hb.
    assert (Hdiv0 : 0 <= Z.pos q / 2 ^ n) by (apply Z.div_pos; lia).
    assert (HdivK : Z.pos q / 2 ^ n <= K)
      by (apply Z.div_le_upper_bound; lia).
    split; [lia|].
    destruct (Z.eq_dec (Z.pos q mod 2 ^ n) 0) as [Hmod|Hmod].
    - rewrite (Hexact (Hex1 Hmod)), Hm1. exact HdivK.
    - pose proof (Z.div_mod (Z.pos q) (2 ^ n) ltac:(lia)) as Hdm.
      pose proof (Z.mod_pos_bound (Z.pos q) (2 ^ n) Hpn) as Hmb.
      assert (Z.pos q / 2 ^ n < K); [|lia].
      apply (Z.mul_lt_mono_pos_l (2 ^ n)); lia. }
  destruct (shr_fexp_exact m1 e1 ltac:(lia)) as (mrs2 & -> & Hm2 & _).
  rewrite fexp64_unfold in *.
  set (n2 := Z.max (Z.max (Zdigits2 m1 + e1 - 53) (-1074) - e1) 0) in *.
  assert (Hpn2 : 0 < 2 ^ n2) by (apply Z.pow_pos_nonneg; lia).
  assert (Hres0 : 0 <= shr_m mrs2) by (rewrite Hm2; apply Z.div_pos; lia).
  destruct (shr_m mrs2) as [|mm|mm] eqn:Hmm; [reflexivity| |lia].
  assert (Hm1pos : 0 < m1).
  { destruct (Z.eq_dec m1 0) as [H0|H0]; [|lia].
    rewrite H0, Z.div_0_l in Hm2 by lia. discriminate. }
  destruct m1 as [|pm1|pm1] eqn:Hpm1; try lia.
  assert (Hsum1 : Z.pos (digits2_pos pm1) + e1 <= 10).
  { apply value_digits_bound; [lia|].
    assert (Hp1 : 0 < 2 ^ (e1 + 1074)) by (apply Z.pow_pos_nonneg; lia).
    eapply Z.le_trans; [apply Z.mul_le_mono_nonneg_r; [lia|apply Hm1b]|].
    unfold K. rewrite <- Z.mul_assoc, <- Z.pow_add_r by lia.
    replace (-43 - e1 + (e1 + 1074)) with 1031 by lia. lia. }
  cbn [Zdigits2] in n2.
  assert (He2 : e1 + n2 <= -43) by lia.
  replace (e1 + n2 <=? emax - prec) with true
    by (symmetry; apply Z.leb_le; change (emax - prec) with 971; lia).
  unfold SFleb, SFcompare, SF_floor.
  destruct (Z.compare_spec (-43) (e1 + n2)) as [Heq|Hlt|Hgt]; [|lia|reflexivity].
  assert (Hle : Z.pos mm <= Z.pos M1000).
  { rewrite Hm2. apply Z.div_le_upper_bound; [lia|].
    eapply Z.le_trans; [apply Hm1b|]. unfold K.
    replace (-43 - e1) with n2 by lia. lia. }
  change (PosDef.Pos.compare_cont Eq M1000 mm) with (Pos.compare M1000 mm).
  destruct (Pos.compare_spec M1000 mm) as [_|Hlt|_]; try reflexivity.
  apply Pos2Z.pos_lt_pos in Hlt. clear -Hle Hlt. lia.
Qed.

Lemma digits_iter_xO (p k : positive) :
  Z.pos (digits2_pos (Pos.iter xO p k)) = Z.pos (digits2_pos p) + Z.pos k.
Proof.
  induction k as [|k IH] using Pos.peano_ind.
  - cbn. lia.
  - rewrite Pos.iter_succ. cbn [digits2_pos]. lia.
Qed.

Lemma shl_align_fst (mx : positive) (ex ez : Z) :
  ez <= ex ->
  Z.pos (fst (shl_align mx ex ez)) = Z.pos mx * 2 ^ (ex - ez).
Proof.
  intros Hle. unfold shl_align.
  destruct (ez - ex) as [|k|k] eqn:Hk; cbn [fst]; try lia.
  - replace (ex - ez) with 0 by lia. lia.
  - rewrite iter_xO_value. f_equal. f_equal. lia.
Qed.

Lemma binary_round_shape (s : bool) (p : positive) (e : Z) :
  (binary_round prec emax s p e = S754_zero s) \/
  (exists m' e', binary_round prec emax s p e = S754_finite s m' e') \/
  (binary_round prec emax s p e = S754_infinity s).
Proof.
  unfold binary_round. destruct (shl_align _ _ _) as [mz ez].
  apply binary_round_aux_shape. lia.
Qed.

Lemma binary_round_floor (p : positive) (e : Z) :
  -1074 <= e ->
  Z.pos p * 2 ^ (e + 1074) <= Z.pos M1000 * 2 ^ 1031 ->
  SFleb SF_floor (binary_round prec emax true p e) = true.
Proof.
  intros He Hval. unfold binary_round, shl_align.
  rewrite fexp64_unfold.
  set (e1 := Z.max (Z.pos (digits2_pos p) + e - 53) (-1074)).
  destruct (e1 - e) as [|k|k] eqn:Hk.
  - apply binary_round_aux_floor; [lia| |exact Hval]. rewrite fexp64_unfold. lia.
  - apply binary_round_aux_floor; [lia| |exact Hval]. rewrite fexp64_unfold. lia.
  - apply binary_round_aux_floor; [lia| |].
    + rewrite fexp64_unfold, digits_iter_xO. lia.
    + rewrite iter_xO_value, <- Z.mul_assoc, <- Z.pow_add_r by lia.
      replace (Z.pos k + (e1 + 1074)) with (e + 1074) by lia. exact Hval.
Qed.

Lemma valid_binary_finite (s : bool) (m : positive) (e : Z) :
  valid_binary (S754_finite s m e) = true ->
  -1074 <= e /\ Z.pos m < 2 ^ 53.
Proof.
  unfold SpecFloat.valid_binary, bounded, canonical_mantissa. rewrite fexp64_unfold.
  intros H. apply andb_true_iff in H as [H _]. apply Z.eqb_eq in H.
  split; [lia|].
  pose proof (digits2_pos_bounds m) as [_ Hhi].
  eapply Z.lt_le_trans; [exact Hhi|]. apply Z.pow_le_mono_r; lia.
Qed.

Lemma SFleb_floor_shape (r : spec_float) :
  r = S754_zero false \/ (exists m e, r = S754_finite false m e) \/
  r = S754_infinity false ->
  SFleb SF_floor r = true.
Proof. intros [->|[(m & e & ->)| ->]]; reflexivity. Qed.

(** Adding a non-negative number to a number that is not below [-1000]
    gives a number that is not below [-1000]: rounding to nearest is
    monotone and [-1000] is representable. *)
Lemma SFadd_floor (X A : spec_float) :
  valid_binary X = true -> valid_binary A = true ->
  SFleb SF_floor X = true ->
  SFleb (S754_zero false) A = true ->
  SFleb SF_floor (SFadd prec emax X A) = true.
Proof.
  intros HvX HvA HX HA.
  destruct A as [sa|sa| |sa ma ea]; try discriminate HA.
  - (* A is a zero *)
    destruct X as [sx|sx| |sx mx ex]; try exact HX.
    destruct sx, sa; reflexivity.
  - (* A is an infinity, hence the positive one *)
    destruct sa; [discriminate HA|].
    destruct X as [sx|sx| |sx mx ex]; try reflexivity; try discriminate HX.
    destruct sx; [discriminate HX|reflexivity].
  - (* A is finite, hence positive *)
    destruct sa; [discriminate HA|].
    destruct X as [sx|sx| |sx mx ex]; try reflexivity; try discriminate HX.
    + destruct sx; [discriminate HX|reflexivity].
    + apply valid_binary_finite in HvX as [Hex Hmx].
      apply valid_binary_finite in HvA as [Hea Hma].
      cbn [SFadd]. set (ez := Z.min ex ea).
      pose proof (shl_align_fst mx ex ez ltac:(lia)) as Hx'.
      pose proof (shl_align_fst ma ea ez ltac:(lia)) as Ha'.
      destruct sx; cbn [cond_Zopp].
      * destruct (- Z.pos (fst (shl_align mx ex ez)) + Z.pos (fst (shl_align ma ea ez)))
          as [|p|p] eqn:Hsum; cbn [binary_normalize].
        -- reflexivity.
        -- apply SFleb_floor_shape, binary_round_shape.
        -- apply binary_round_floor; [lia|].
           assert (Hp : Z.pos p <= Z.pos mx * 2 ^ (ex - ez)) by lia.
           assert (Hpz : 0 < 2 ^ (ez + 1074)) by (apply Z.pow_pos_nonneg; lia).
           eapply Z.le_trans; [apply Z.mul_le_mono_nonneg_r; [lia|exact Hp]|].
           rewrite <- Z.mul_assoc, <- Z.pow_add_r by lia.
           replace (ex - ez + (ez + 1074)) with (ex + 1074) by lia.
           clear - HX Hex Hmx.
           unfold SFleb, SFcompare, SF_floor in HX.
           destruct (Z.compare_spec (-43) ex) as [Heq|Hlt|Hgt]; [| discriminate HX |].
           ++ subst ex. change (-43 + 1074) with 1031.
              apply Z.mul_le_mono_nonneg_r; [apply Z.pow_nonneg; lia|].
              change (PosDef.Pos.compare_cont Eq M1000 mx) with (Pos.compare M1000 mx) in HX.
              destruct (Pos.compare_spec M1000 mx) as [Heq|Hlt|Hgt];
                [subst; apply Z.le_refl|discriminate HX|].
              apply Pos2Z.pos_lt_pos in Hgt. apply Z.lt_le_incl. exact Hgt.
           ++ apply Z.le_trans with (2 ^ 53 * 2 ^ 1030).
              ** apply Z.mul_le_mono_nonneg; try lia.
                 apply Z.pow_le_mono_r; lia.
              ** rewrite <- Z.pow_add_r by lia.
                 change (53 + 1030) with (52 + 1031). rewrite Z.pow_add_r by lia.
                 apply Z.mul_le_mono_nonneg_r; [apply Z.pow_nonneg; lia|].
                 unfold M1000. discriminate.
      * apply SFleb_floor_shape.
        change (Z.pos (fst (shl_align mx ex ez)) + Z.pos (fst (shl_align ma ea ez)))
          with (Z.pos (fst (shl_align mx ex ez) + fst (shl_align ma ea ez))).
        apply binary_round_shape.
Qed.

(** The floor and zero as specification floats. *)
Lemma Prim2SF_floor : Prim2SF (-1000)%float = SF_floor.
Proof. reflexivity. Qed.

Lemma Prim2SF_zero : Prim2SF 0%float = S754_zero false.
Proof. reflexivity. Qed.

Lemma add_floor (x a : float) :
  (-1000 <=? x)%float = true -> (0 <=? a)%float = true ->
  (-1000 <=? x + a)%float = true.
Proof.
  rewrite !FloatAxioms.leb_spec, add_spec, Prim2SF_floor, Prim2SF_zero.
  apply SFadd_floor; apply Prim2SF_valid.
Qed.

Lemma binary_normalize_not_nan (m e : Z) (s : bool) :
  binary_normalize prec emax m e s <> S754_nan.
Proof.
  destruct m as [|p|p]; cbn [binary_normalize]; [discriminate| |].
  - destruct (binary_round_shape false p e) as [->|[(m' & e' & ->)| ->]]; discriminate.
  - destruct (binary_round_shape true p e) as [->|[(m' & e' & ->)| ->]]; discriminate.
Qed.

(** A non-negative number below [+oo]: a zero or a positive finite number. *)
Lemma nonneg_finite_shape (y : float) :
  (0 <=? y)%float = true -> (y <? infinity)%float = true ->
  (exists s, Prim2SF y = S754_zero s) \/ (exists m e, Prim2SF y = S754_finite false m e).
Proof.
  rewrite FloatAxioms.leb_spec, FloatAxioms.ltb_spec, Prim2SF_zero.
  change (Prim2SF infinity) with (S754_infinity false).
  destruct (Prim2SF y) as [s|s| |s m e]; intros H0 Hinf.
  - left. eauto.
  - destruct s; discriminate.
  - discriminate.
  - destruct s; [discriminate|]. right. eauto.
Qed.

(** Subtracting a finite number from a number gives a number. *)
Lemma sub_is_number (x y : float) :
  (x =? x)%float = true ->
  (0 <=? y)%float = true -> (y <? infinity)%float = true ->
  (x - y =? x - y)%float = true.
Proof.
  intros Hx H0 Hinf. apply eqb_self_not_nan. apply eqb_self_not_nan in Hx.
  rewrite sub_spec. unfold SF64sub.
  destruct (nonneg_finite_shape y H0 Hinf) as [[s ->]|(m & e & ->)];
    destruct (Prim2SF x) as [sx|sx| |sx mx ex]; try congruence; try discriminate.
  - cbn [SFsub]. destruct sx, s; discriminate.
  - cbn [SFsub]. apply binary_normalize_not_nan.
Qed.

(** A difference that passed the floor test of the handlers is at or above
    the floor. *)
Lemma sub_floor (x y : float) :
  (x =? x)%float = true ->
  (0 <=? y)%float = true -> (y <? infinity)%float = true ->
  (x - y <? -1000)%float = false ->
  (-1000 <=? x - y)%float = true.
Proof.
  intros Hx H0 Hinf Hlt.
  apply ltb_false_leb; [reflexivity|apply sub_is_number; assumption|exact Hlt].
Qed.

(** ** Rounding to nearest between two numbers *)













(** ** Valid numbers and their values *)





(** ** Comparing with a normal number *)




(** ** Numbers that are not positive *)



(** ** Conversion from integers *)








(** ** Division by the nanoseconds of a minute *)





(** ** Sums of positive numbers *)


(** ** The minutes of a duration against the window of 60 minutes *)





(** * Properties of the ledger engine *)

(** ** Running the map operations *)

Section MapRuns.
Context {A B : Type}.

Lemma bind_run (c : M A) (k : A -> M B) (h h' : heap) (a : A) :
  c h = Some (a, h') -> (c ≫= k) h = k a h'.
Proof. intros Hc. unfold mbind, M_bind, bind. now rewrite Hc. Qed.

Lemma bind_panic (c : M A) (k : A -> M B) (h : heap) :
  c h = None -> (c ≫= k) h = None.
Proof. intros Hc. unfold mbind, M_bind, bind. now rewrite Hc. Qed.
End MapRuns.

Lemma table_at (h : heap) (l : positive) (m : gmap string Account.t) :
  h !! l = Some m -> table h (map_at l) = m.
Proof. intros Hl. simpl. now rewrite Hl. Qed.

Lemma map_get_run (r : mapref) (k : string) (h : heap) :
  map_get r k h = Some (default Account.zero (table h r !! k), h).
Proof. reflexivity. Qed.

Lemma map_set_run (l : positive) (k : string) (v : Account.t) (h : heap)
    (m : gmap string Account.t) :
  h !! l = Some m ->
  map_set (map_at l) k v h = Some (tt, <[l := <[k := v]> m]> h).
Proof. intros Hl. unfold map_set. now rewrite Hl. Qed.

Lemma map_set_nil (k : string) (v : Account.t) (h : heap) :
  map_set nil_map k v h = None.
Proof. reflexivity. Qed.

(** Tactic: run a monadic computation on a store whose table at the
    reference is known. *)
Ltac run_go :=
  repeat first
    [ progress (unfold mbind, M_bind, bind, ret, map_get)
    | erewrite map_set_run by (first [eassumption | apply lookup_insert_eq])
    | rewrite insert_insert_eq
    | erewrite table_at by (first [eassumption | apply lookup_insert_eq])
    | progress cbn beta iota zeta ].

(** ** The three handlers *)

Lemma processCredit_run (tx : Transaction.t) (a : Account.t) (l : positive)
    (h : heap) (m : gmap string Account.t) :
  h !! l = Some m ->
  processCredit tx a (map_at l) h =
    Some ((Transaction.with_Status "completed" tx, map_at l),
          <[l := <[Transaction.AccountID tx :=
                     Account.mk (Account.ID a)
                       (Account.Balance a + Transaction.Amount tx)%float
                       (Account.DailyDebits a)
                       (Account.DailyCredits a + Transaction.Amount tx)%float
                       (Account.LastTransactionTime a)
                       (Account.OverdraftCount a)]> m]> h).
Proof. intros Hl. unfold processCredit. run_go. reflexivity. Qed.

Lemma processDebit_run (tx : Transaction.t) (a : Account.t) (l : positive)
    (h : heap) (m : gmap string Account.t) :
  h !! l = Some m ->
  let dd := (Account.DailyDebits a + Transaction.Amount tx)%float in
  let nb := (Account.Balance a - Transaction.Amount tx)%float in
  processDebit tx a (map_at l) h =
    if gtb dd MaxDailyWithdrawalLimit
    then Some ((Transaction.with_ProcessingMessage msg_daily_limit
                  (Transaction.with_Status "rejected" tx), map_at l), h)
    else if (nb <? processor.OverdraftLimit)%float
    then Some ((Transaction.with_ProcessingMessage msg_overdraft_limit
                  (Transaction.with_Status "rejected" tx), map_at l), h)
    else Some ((Transaction.with_Status "completed"
                  (if (nb <? 0)%float
                   then Transaction.with_ProcessingMessage "Account in overdraft" tx
                   else tx), map_at l),
               <[l := <[Transaction.AccountID tx :=
                          Account.mk (Account.ID a) nb dd (Account.DailyCredits a)
                            (Account.LastTransactionTime a)
                            (if (nb <? 0)%float
                             then int_incr (Account.OverdraftCount a)
                             else Account.OverdraftCount a)]> m]> h).
Proof.
  intros Hl dd nb. unfold processDebit. fold dd nb.
  destruct (gtb dd MaxDailyWithdrawalLimit); [reflexivity|].
  destruct (nb <? processor.OverdraftLimit)%float; [reflexivity|].
  destruct (nb <? 0)%float; run_go; reflexivity.
Qed.

Lemma processTransfer_run (tx : Transaction.t) (l : positive)
    (h : heap) (m : gmap string Account.t) :
  h !! l = Some m ->
  let s := default Account.zero (m !! Transaction.AccountID tx) in
  let d := default Account.zero (m !! Transaction.DestinationAccountID tx) in
  let nb := (Account.Balance s - Transaction.Amount tx)%float in
  processTransfer tx (map_at l) h =
    if (nb <? processor.OverdraftLimit)%float
    then Some ((Transaction.with_ProcessingMessage msg_overdraft_limit
                  (Transaction.with_Status "rejected" tx), map_at l), h)
    else Some ((Transaction.with_Status "completed"
                  (if (nb <? 0)%float
                   then Transaction.with_ProcessingMessage "Source account in overdraft" tx
                   else tx), map_at l),
               <[l := <[Transaction.DestinationAccountID tx :=
                          Account.mk (Account.ID d)
                            (Account.Balance d + Transaction.Amount tx)%float
                            (Account.DailyDebits d)
                            (Account.DailyCredits d + Transaction.Amount tx)%float
                            (Account.LastTransactionTime d)
                            (Account.OverdraftCount d)]>
                      (<[Transaction.AccountID tx :=
                           Account.mk (Account.ID s) nb
                             (Account.DailyDebits s + Transaction.Amount tx)%float
                             (Account.DailyCredits s)
                             (Account.LastTransactionTime s)
                             (if (nb <? 0)%float
                              then int_incr (Account.OverdraftCount s)
                              else Account.OverdraftCount s)]> m)]> h).
Proof.
  intros Hl s d nb. unfold processTransfer. run_go. fold s d nb.
  destruct (nb <? processor.OverdraftLimit)%float; [reflexivity|].
  destruct (nb <? 0)%float; run_go; reflexivity.
Qed.

(** ** One iteration of the loop

    [process_one] never panics on an existing table, returns the map it was
    given, and changes no other table.  The seven outcomes are told apart by
    the type of the transaction and by the two tests of the handlers. *)

Lemma process_one_cases (tx : Transaction.t) (l : positive) (h : heap)
    (m : gmap string Account.t) :
  h !! l = Some m ->
  let src := Transaction.AccountID tx in
  let dst := Transaction.DestinationAccountID tx in
  let amt := Transaction.Amount tx in
  let ts := Transaction.Timestamp tx in
  let a := default Account.zero (m !! src) in
  let d := default Account.zero (m !! dst) in
  let nb := (Account.Balance a - amt)%float in
  let dd := (Account.DailyDebits a + amt)%float in
  let debited :=
    Account.mk (Account.ID a) nb dd (Account.DailyCredits a)
      (Account.LastTransactionTime a)
      (if (nb <? 0)%float then int_incr (Account.OverdraftCount a)
       else Account.OverdraftCount a) in
  let credited :=
    Account.mk (Account.ID d) (Account.Balance d + amt)%float (Account.DailyDebits d)
      (Account.DailyCredits d + amt)%float (Account.LastTransactionTime d)
      (Account.OverdraftCount d) in
  exists stamped m',
    process_one tx (map_at l) h = Some ((stamped, map_at l), <[l := m']> h) /\
    ( (Transaction.Type_ tx = "credit" /\
       stamped = Transaction.with_Status "completed" tx /\
       m' = <[src := Account.mk (Account.ID a) (Account.Balance a + amt)%float
                       (Account.DailyDebits a) (Account.DailyCredits a + amt)%float
                       ts (Account.OverdraftCount a)]> m)
    \/ (Transaction.Type_ tx = "debit" /\
        gtb dd MaxDailyWithdrawalLimit = true /\
        stamped = Transaction.with_ProcessingMessage msg_daily_limit
                    (Transaction.with_Status "rejected" tx) /\
        m' = m)
    \/ (Transaction.Type_ tx = "debit" /\
        gtb dd MaxDailyWithdrawalLimit = false /\
        (nb <? processor.OverdraftLimit)%float = true /\
        stamped = Transaction.with_ProcessingMessage msg_overdraft_limit
                    (Transaction.with_Status "rejected" tx) /\
        m' = m)
    \/ (Transaction.Type_ tx = "debit" /\
        gtb dd MaxDailyWithdrawalLimit = false /\
        (nb <? processor.OverdraftLimit)%float = false /\
        stamped = Transaction.with_Status "completed"
                    (if (nb <? 0)%float
                     then Transaction.with_ProcessingMessage "Account in overdraft" tx
                     else tx) /\
        m' = <[src := Account.with_LastTransactionTime ts debited]> m)
    \/ (Transaction.Type_ tx = "transfer" /\
        (nb <? processor.OverdraftLimit)%float = true /\
        stamped = Transaction.with_ProcessingMessage msg_overdraft_limit
                    (Transaction.with_Status "rejected" tx) /\
        m' = m)
    \/ (Transaction.Type_ tx = "transfer" /\
        (nb <? processor.OverdraftLimit)%float = false /\
        stamped = Transaction.with_Status "completed"
                    (if (nb <? 0)%float
                     then Transaction.with_ProcessingMessage
                            "Source account in overdraft" tx
                     else tx) /\
        m' = <[src := Account.with_LastTransactionTime ts
                        (default Account.zero
                           (<[dst := credited]> (<[src := debited]> m) !! src))]>
               (<[dst := credited]> (<[src := debited]> m)))
    \/ (Transaction.Type_ tx <> "credit" /\ Transaction.Type_ tx <> "debit" /\
        Transaction.Type_ tx <> "transfer" /\
        stamped = tx /\
        m' = if String.eqb (Transaction.Status tx) "completed"
             then <[src := Account.with_LastTransactionTime ts a]> m
             else m) ).
Proof.
  intros Hl src dst amt ts a d nb dd debited credited.
  unfold process_one, dispatch.
  rewrite (bind_run _ _ _ _ _ (map_get_run _ _ _)).
  rewrite (table_at _ _ _ Hl). fold src a.
  destruct (String.eqb_spec (Transaction.Type_ tx) "credit") as [Hc|Hc].
  { erewrite bind_run by (apply processCredit_run; exact Hl).
    do 2 eexists; split; [|left; split; [exact Hc|split; reflexivity]].
    cbn. run_go. rewrite ?lookup_insert_eq, ?insert_insert_eq. reflexivity. }
  destruct (String.eqb_spec (Transaction.Type_ tx) "debit") as [Hd|Hd].
  { pose proof (processDebit_run tx a l h m Hl) as Hrun. cbv zeta in Hrun.
    fold amt dd nb in Hrun.
    destruct (gtb dd MaxDailyWithdrawalLimit) eqn:Hlim.
    { erewrite bind_run by exact Hrun.
      do 2 eexists; split; [|right; left; repeat split; [exact Hd|reflexivity..]].
      cbn. run_go. now rewrite (insert_id h l m Hl). }
    destruct (nb <? processor.OverdraftLimit)%float eqn:Hfloor.
    { erewrite bind_run by exact Hrun.
      do 2 eexists; split;
        [|right; right; left; repeat split; [exact Hd|reflexivity..]].
      cbn. run_go. now rewrite (insert_id h l m Hl). }
    erewrite bind_run by exact Hrun.
    do 2 eexists; split;
      [|right; right; right; left; repeat split; [exact Hd|reflexivity..]].
    destruct (nb <? 0)%float; cbn; run_go;
      rewrite ?lookup_insert_eq, ?insert_insert_eq; reflexivity. }
  destruct (String.eqb_spec (Transaction.Type_ tx) "transfer") as [Ht|Ht].
  { pose proof (processTransfer_run tx l h m Hl) as Hrun. cbv zeta in Hrun.
    fold src dst amt a d nb dd in Hrun.
    destruct (nb <? processor.OverdraftLimit)%float eqn:Hfloor.
    { erewrite bind_run by exact Hrun.
      do 2 eexists; split;
        [|do 4 right; left; repeat split; [exact Ht|reflexivity..]].
      cbn. run_go. now rewrite (insert_id h l m Hl). }
    erewrite bind_run by exact Hrun.
    do 2 eexists; split;
      [|do 5 right; left; repeat split; [exact Ht|reflexivity..]].
    destruct (nb <? 0)%float; cbn; run_go; reflexivity. }
  do 2 eexists; split;
    [|do 6 right; repeat split; [exact Hc|exact Hd|exact Ht|reflexivity..]].
  run_go.
  destruct (String.eqb (Transaction.Status tx) "completed"); run_go.
  - reflexivity.
  - now rewrite (insert_id h l m Hl).
Qed.

(** ** The loop and the whole function *)

(** A property of the table of accounts that every iteration preserves
    holds when the loop is over; the loop stamps every transaction, never
    panics and only writes to the table it was given. *)
Lemma process_loop_invariant (I : gmap string Account.t -> Prop)
    (txs : list Transaction.t) :
  (forall tx m stamped m' l h,
      tx ∈ txs -> h !! l = Some m -> I m ->
      process_one tx (map_at l) h = Some ((stamped, map_at l), <[l := m']> h) ->
      I m') ->
  forall l h m,
    h !! l = Some m -> I m ->
    exists stamped m',
      process_loop txs (map_at l) h = Some ((stamped, map_at l), <[l := m']> h) /\
      I m' /\ length stamped = length txs.
Proof.
  induction txs as [|tx txs IH]; intros Hstep l h m Hl HI.
  - exists [], m. cbn. unfold ret. rewrite (insert_id h l m Hl). auto.
  - destruct (process_one_cases tx l h m Hl) as (st & m1 & Hone & _).
    assert (HI1 : I m1) by (eapply (Hstep tx m st m1 l h); [left| | |]; eassumption).
    destruct (IH (fun tx' m0 st' m0' l0 h0 Hin => Hstep tx' m0 st' m0' l0 h0
                    (list_elem_of_further _ _ _ Hin))
                 l (<[l := m1]> h) m1 (lookup_insert_eq _ _ _) HI1)
      as (sts & m2 & Hloop & HI2 & Hlen).
    exists (st :: sts), m2. split; [|split; [exact HI2|cbn; now rewrite Hlen]].
    cbn [process_loop]. erewrite bind_run by exact Hone. cbn.
    erewrite bind_run by exact Hloop. cbn. unfold ret.
    now rewrite insert_insert_eq.
Qed.

(** Seeding the copy writes every visited entry into the new table. *)
Lemma copy_entries_run (entries : list (string * Account.t)) (l : positive)
    (h : heap) (m0 : gmap string Account.t) :
  h !! l = Some m0 ->
  copy_entries entries (map_at l) h =
    Some (tt, <[l := fold_left (fun acc p => <[p.1 := p.2]> acc) entries m0]> h).
Proof.
  revert h m0. induction entries as [|[id a] rest IH]; intros h m0 Hl.
  - cbn. unfold ret. now rewrite (insert_id h l m0 Hl).
  - cbn [copy_entries]. erewrite bind_run by (apply map_set_run; exact Hl).
    rewrite (IH _ (<[id := a]> m0)) by apply lookup_insert_eq.
    now rewrite insert_insert_eq.
Qed.

Lemma copy_of_map_to_list (m : gmap string Account.t) :
  fold_left (fun acc p => <[p.1 := p.2]> acc) (map_to_list m)
            (∅ : gmap string Account.t) = m.
Proof.
  rewrite <- fold_left_rev_right.
  transitivity (list_to_map (rev (map_to_list m)) : gmap string Account.t).
  - generalize (rev (map_to_list m)). intros es.
    induction es as [|[k v] es IH]; [reflexivity|]. cbn. now rewrite IH.
  - transitivity (list_to_map (map_to_list m) : gmap string Account.t);
      [|apply list_to_map_to_list].
    symmetry. apply list_to_map_proper; [apply NoDup_fst_map_to_list|].
    rewrite rev_alt. symmetry. apply reverse_Permutation.
Qed.

(** [ProcessTransactions] allocates one new table, seeds it with the
    entries of the argument, runs the loop on it and returns it. *)
Lemma ProcessTransactions_invariant (I : gmap string Account.t -> Prop)
    (txs : list Transaction.t) (r : mapref) (h : heap) :
  valid_ref h r ->
  (forall tx m stamped m' l h0,
      tx ∈ txs -> h0 !! l = Some m -> I m ->
      process_one tx (map_at l) h0 = Some ((stamped, map_at l), <[l := m']> h0) ->
      I m') ->
  I (table h r) ->
  exists stamped m',
    ProcessTransactions txs r h =
      Some ((map_at (fresh (dom h)), stamped), <[fresh (dom h) := m']> h) /\
    I m' /\ length stamped = length txs.
Proof.
  intros Hvalid Hstep HI.
  set (l' := fresh (dom h)).
  assert (Hfresh : h !! l' = None)
    by (apply not_elem_of_dom; apply is_fresh).
  assert (Htable : table (<[l' := ∅]> h) r = table h r).
  { destruct r as [|l]; [reflexivity|]. cbn.
    destruct Hvalid as [m Hm].
    rewrite lookup_insert_ne; [reflexivity|]. intros ->. congruence. }
  destruct (process_loop_invariant I txs Hstep l' (<[l' := table h r]> h)
              (table h r) (lookup_insert_eq _ _ _) HI)
    as (stamped & m' & Hloop & HI' & Hlen).
  exists stamped, m'. split; [|split; assumption].
  unfold ProcessTransactions.
  erewrite bind_run by reflexivity. fold l'.
  erewrite bind_run by reflexivity. rewrite Htable.
  erewrite bind_run by (apply copy_entries_run; apply lookup_insert_eq).
  rewrite copy_of_map_to_list, insert_insert_eq.
  erewrite bind_run by exact Hloop. cbn. unfold ret.
  now rewrite insert_insert_eq.
Qed.

(** Every transaction of the slice is stamped by one run of [process_one],
    on the table the earlier iterations have left. *)
Lemma process_loop_step (tx : Transaction.t) (rest : list Transaction.t)
    (l : positive) (h h1 : heap) (stamped : Transaction.t) :
  process_one tx (map_at l) h = Some ((stamped, map_at l), h1) ->
  process_loop (tx :: rest) (map_at l) h
    = match process_loop rest (map_at l) h1 with
      | Some ((rest', r'), h2) => Some ((stamped :: rest', r'), h2)
      | None => None
      end.
Proof.
  intros Hone. cbn [process_loop]. erewrite bind_run by exact Hone. cbn.
  unfold mbind, M_bind, bind, ret.
  destruct (process_loop rest (map_at l) h1) as [[[rest' r'] h2]|]; reflexivity.
Qed.

(** The loop of [ProcessTransactions] runs on the new table, seeded with the
    entries of the argument. *)
Lemma ProcessTransactions_runs_loop (txs : list Transaction.t) (r : mapref) (h : heap) :
  valid_ref h r ->
  exists stamped m',
    process_loop txs (map_at (fresh (dom h))) (<[fresh (dom h) := table h r]> h)
      = Some ((stamped, map_at (fresh (dom h))), <[fresh (dom h) := m']> h) /\
    ProcessTransactions txs r h
      = Some ((map_at (fresh (dom h)), stamped), <[fresh (dom h) := m']> h).
Proof.
  intros Hvalid.
  set (l' := fresh (dom h)).
  assert (Htable : table (<[l' := ∅]> h) r = table h r).
  { destruct r as [|l]; [reflexivity|]. cbn. destruct Hvalid as [m Hm].
    rewrite lookup_insert_ne; [reflexivity|]. intros Heq.
    pose proof (is_fresh (dom h)) as Hfresh. fold l' in Hfresh. rewrite Heq in Hfresh.
    apply Hfresh, elem_of_dom. eauto. }
  destruct (process_loop_invariant (fun _ => True) txs (fun _ _ _ _ _ _ _ _ _ _ => I)
              l' (<[l' := table h r]> h) (table h r) (lookup_insert_eq _ _ _) I)
    as (stamped & m' & Hloop & _ & _).
  exists stamped, m'. split.
  - rewrite Hloop. now rewrite insert_insert_eq.
  - unfold ProcessTransactions.
    erewrite bind_run by reflexivity. fold l'.
    erewrite bind_run by reflexivity. rewrite Htable.
    erewrite bind_run by (apply copy_entries_run; apply lookup_insert_eq).
    rewrite copy_of_map_to_list, insert_insert_eq.
    erewrite bind_run by exact Hloop. cbn. unfold ret.
    now rewrite insert_insert_eq.
Qed.

(** ** What validation guarantees *)

Lemma has_account_true (accounts : gmap string Account.t) (id : string) :
  has_account accounts id = true -> is_Some (accounts !! id).
Proof. unfold has_account. destruct (accounts !! id); [eauto|discriminate]. Qed.

Lemma check_passes (accounts : gmap string Account.t) (tx : Transaction.t) :
  (check accounts tx).1 = true ->
  (Transaction.Amount tx <=? 0)%float = false /\
  is_Some (accounts !! Transaction.AccountID tx) /\
  (Transaction.Type_ tx = "transfer" ->
     Transaction.DestinationAccountID tx <> Transaction.AccountID tx /\
     is_Some (accounts !! Transaction.DestinationAccountID tx)).
Proof.
  unfold check.
  destruct (Transaction.Amount tx <=? 0)%float;
    destruct (has_account accounts (Transaction.AccountID tx)) eqn:Hsrc;
    destruct (String.eqb_spec (Transaction.Type_ tx) "transfer") as [Hty|Hty];
    destruct (String.eqb (Transaction.DestinationAccountID tx) "");
    destruct (has_account accounts (Transaction.DestinationAccountID tx)) eqn:Hdst;
    destruct (String.eqb_spec (Transaction.DestinationAccountID tx)
                              (Transaction.AccountID tx)) as [Hsame|Hsame];
    cbn; intros Hvalid; try discriminate Hvalid;
    (split; [reflexivity|]); (split; [apply has_account_true; exact Hsrc|]);
    intros Htransfer; try contradiction;
    (split; [exact Hsame|apply has_account_true; exact Hdst]).
Qed.

Lemma validate_loop_validated (accounts : gmap string Account.t)
    (txs valid invalid : list Transaction.t) :
  Forall (validated accounts) valid ->
  Forall (validated accounts) (validate_loop accounts txs valid invalid).1.
Proof.
  revert valid invalid. induction txs as [|tx txs IH]; intros valid invalid Hvalid;
    cbn [validate_loop]; [exact Hvalid|].
  destruct (String.eqb (Transaction.Status tx) "rejected"); [apply IH; exact Hvalid|].
  destruct (String.eqb_spec (Transaction.Status tx) "pending") as [Hpending|_];
    cbn [negb]; [|apply IH; exact Hvalid].
  destruct (check accounts tx) as [ok reason] eqn:Hcheck.
  destruct ok; [|apply IH; exact Hvalid].
  apply IH. apply Forall_app. split; [exact Hvalid|].
  constructor; [|constructor].
  split; [exact Hpending|]. apply check_passes. now rewrite Hcheck.
Qed.

(** Every transaction that [ValidateTransactions] lets through, and that
    [main] hands to [ProcessTransactions], is pending, has an amount that is
    not [<= 0], names an existing account and, if it is a transfer, names a
    different existing destination. *)
Lemma ValidateTransactions_validated (txs : list Transaction.t)
    (accounts : gmap string Account.t) :
  Forall (validated accounts) (ValidateTransactions txs accounts).1.
Proof. apply validate_loop_validated. constructor. Qed.

(** ** Claims about the ledger engine *)

(** C7.  [ProcessTransactions] leaves the caller's mapping as it was.  For
    every store, every reference the caller can hold and every slice of
    transactions, the call returns without panicking; the map it returns is
    a table that did not exist before; the final store is the initial one
    with that single new table added, so every table that existed before the
    call, the caller's among them, maps every account id to the same
    [Account] as before. *)
Theorem C7_caller_mapping_unchanged (txs : list Transaction.t) (r : mapref) (h : heap) :
  valid_ref h r ->
  exists l' stamped m',
    ProcessTransactions txs r h = Some ((map_at l', stamped), <[l' := m']> h) /\
    h !! l' = None /\
    map_at l' <> r /\
    (forall l, is_Some (h !! l) -> <[l' := m']> h !! l = h !! l) /\
    (forall id, table (<[l' := m']> h) r !! id = table h r !! id).
Proof.
  intros Hvalid.
  destruct (ProcessTransactions_invariant (fun _ => True) txs r h Hvalid)
    as (stamped & m' & Hrun & _ & _); [trivial..|].
  assert (Hfresh : h !! fresh (dom h) = None)
    by (apply not_elem_of_dom; apply is_fresh).
  assert (Hother : forall l, is_Some (h !! l) ->
                             <[fresh (dom h) := m']> h !! l = h !! l).
  { intros l [m Hm]. apply lookup_insert_ne. intros Heq.
    rewrite Heq in Hfresh. congruence. }
  exists (fresh (dom h)), stamped, m'. repeat split; try assumption.
  - intros <-. cbn in Hvalid. destruct Hvalid as [m Hm]. congruence.
  - intros id. destruct r as [|l]; [reflexivity|]. cbn.
    now rewrite (Hother l Hvalid).
Qed.

(** C6.  A transaction that [process_one], the body of the loop of
    [ProcessTransactions], stamps [rejected] leaves the store exactly as it
    was: no field of any account changes, in particular none of the source
    account and none of the destination account. *)
Theorem C6_rejection_changes_nothing (tx : Transaction.t) (l : positive) (h : heap)
    (m : gmap string Account.t) :
  h !! l = Some m ->
  exists stamped h',
    process_one tx (map_at l) h = Some ((stamped, map_at l), h') /\
    (Transaction.Status stamped = "rejected" ->
       h' = h /\
       table h' (map_at l) !! Transaction.AccountID tx = m !! Transaction.AccountID tx /\
       table h' (map_at l) !! Transaction.DestinationAccountID tx
         = m !! Transaction.DestinationAccountID tx).
Proof.
  intros Hl.
  assert (Hsame : <[l := m]> h = h /\
            table (<[l := m]> h) (map_at l) !! Transaction.AccountID tx
              = m !! Transaction.AccountID tx /\
            table (<[l := m]> h) (map_at l) !! Transaction.DestinationAccountID tx
              = m !! Transaction.DestinationAccountID tx).
  { rewrite (insert_id h l m Hl), (table_at h l m Hl). auto. }
  destruct (process_one_cases tx l h m Hl) as (stamped & m' & Hrun & Hcases).
  exists stamped, (<[l := m']> h). split; [exact Hrun|]. intros Hrej.
  destruct Hcases as [(_ & -> & _)|[(_ & _ & _ & ->)|[(_ & _ & _ & _ & ->)|
    [(_ & _ & _ & -> & _)|[(_ & _ & _ & ->)|[(_ & _ & -> & _)|(_ & _ & _ & -> & ->)]]]]]];
    try exact Hsame; try discriminate Hrej.
  destruct (String.eqb_spec (Transaction.Status tx) "completed") as [Hc|_];
    [congruence|exact Hsame].
Qed.

(** C4.  The decision taken for a debit.  With [a] the account read for the
    transaction, [dd = a.DailyDebits + amount] and [nb = a.Balance - amount]:
    when [dd] exceeds the daily withdrawal limit the debit is stamped
    [rejected] with the message that cites the limit, whatever the floor test
    would say, and the store is unchanged; otherwise, when [nb] is below the
    overdraft floor it is stamped [rejected] with the message that cites the
    floor and the store is unchanged; otherwise it is stamped [completed],
    the balance becomes [nb], the daily-debit counter becomes [dd], and, when
    [nb] is negative, the overdraft counter is incremented and the
    informational message is set. *)
Theorem C4_debit_decision (tx : Transaction.t) (l : positive) (h : heap)
    (m : gmap string Account.t) :
  h !! l = Some m ->
  Transaction.Type_ tx = "debit" ->
  let a := account_of m (Transaction.AccountID tx) in
  let dd := (Account.DailyDebits a + Transaction.Amount tx)%float in
  let nb := (Account.Balance a - Transaction.Amount tx)%float in
  exists stamped h',
    process_one tx (map_at l) h = Some ((stamped, map_at l), h') /\
    (gtb dd MaxDailyWithdrawalLimit = true ->
       Transaction.Status stamped = "rejected" /\
       Transaction.ProcessingMessage stamped = "Exceeds daily withdrawal limit of $5000.00" /\
       h' = h) /\
    (gtb dd MaxDailyWithdrawalLimit = false ->
     (nb <? processor.OverdraftLimit)%float = true ->
       Transaction.Status stamped = "rejected" /\
       Transaction.ProcessingMessage stamped = "Would exceed overdraft limit of $1000.00" /\
       h' = h) /\
    (gtb dd MaxDailyWithdrawalLimit = false ->
     (nb <? processor.OverdraftLimit)%float = false ->
       Transaction.Status stamped = "completed" /\
       exists a',
         h' = <[l := <[Transaction.AccountID tx := a']> m]> h /\
         Account.Balance a' = nb /\
         Account.DailyDebits a' = dd /\
         Account.DailyCredits a' = Account.DailyCredits a /\
         Account.ID a' = Account.ID a /\
         ((nb <? 0)%float = true ->
            Account.OverdraftCount a' = int_incr (Account.OverdraftCount a) /\
            Transaction.ProcessingMessage stamped = "Account in overdraft") /\
         ((nb <? 0)%float = false ->
            Account.OverdraftCount a' = Account.OverdraftCount a /\
            Transaction.ProcessingMessage stamped = Transaction.ProcessingMessage tx)).
Proof.
  intros Hl Hty a dd nb.
  destruct (process_one_cases tx l h m Hl) as (stamped & m' & Hrun & Hcases).
  cbv zeta in Hcases. fold a dd nb in Hcases.
  exists stamped, (<[l := m']> h). split; [exact Hrun|].
  destruct Hcases as [(Hc & _)|[(_ & Hlim & -> & ->)|[(_ & Hlim & Hfl & -> & ->)|
    [(_ & Hlim & Hfl & -> & ->)|[(Ht & _)|[(Ht & _)|(_ & Hd & _)]]]]]];
    try congruence.
  - rewrite (insert_id h l m Hl).
    split; [intros _; repeat split|split; intros Hf; congruence].
  - rewrite (insert_id h l m Hl).
    split; [congruence|].
    split; [intros _ _; repeat split|intros _ Hf; congruence].
  - split; [congruence|]. split; [congruence|]. intros _ _.
    split; [reflexivity|]. eexists; split; [reflexivity|]. cbn.
    do 4 (split; [reflexivity|]).
    split; intros Hneg; rewrite Hneg; split; reflexivity.
Qed.

(** C5.  A transfer is stamped [rejected] exactly when the balance of the
    source account minus the amount is below the overdraft floor, and is
    stamped [completed] otherwise.  The verdict is the same in every store in
    which the source account has the same balance: neither the state of the
    destination account nor the daily debit total of the source (and so the
    daily withdrawal limit) has a say. *)
Theorem C5_transfer_rejection (tx : Transaction.t) (l : positive) (h : heap)
    (m : gmap string Account.t) :
  h !! l = Some m ->
  Transaction.Type_ tx = "transfer" ->
  exists stamped h',
    process_one tx (map_at l) h = Some ((stamped, map_at l), h') /\
    (Transaction.Status stamped = "rejected" <->
     (Account.Balance (account_of m (Transaction.AccountID tx)) - Transaction.Amount tx
        <? processor.OverdraftLimit)%float = true) /\
    (Transaction.Status stamped = "rejected" \/ Transaction.Status stamped = "completed") /\
    (forall l2 h2 m2,
        h2 !! l2 = Some m2 ->
        Account.Balance (account_of m2 (Transaction.AccountID tx))
          = Account.Balance (account_of m (Transaction.AccountID tx)) ->
        exists stamped2 h2',
          process_one tx (map_at l2) h2 = Some ((stamped2, map_at l2), h2') /\
          Transaction.Status stamped2 = Transaction.Status stamped).
Proof.
  intros Hl Hty.
  assert (Hverdict : forall l0 h0 m0, h0 !! l0 = Some m0 ->
    exists stamped h',
      process_one tx (map_at l0) h0 = Some ((stamped, map_at l0), h') /\
      Transaction.Status stamped =
        if (Account.Balance (account_of m0 (Transaction.AccountID tx))
            - Transaction.Amount tx <? processor.OverdraftLimit)%float
        then "rejected" else "completed").
  { intros l0 h0 m0 Hl0.
    destruct (process_one_cases tx l0 h0 m0 Hl0) as (stamped & m' & Hrun & Hcases).
    exists stamped, (<[l0 := m']> h0). split; [exact Hrun|].
    destruct Hcases as [(Hc & _)|[(Hd & _)|[(Hd & _)|
      [(Hd & _)|[(_ & Hfl & -> & _)|[(_ & Hfl & -> & _)|(_ & _ & Hn & _)]]]]]];
      try congruence; rewrite Hfl; reflexivity. }
  destruct (Hverdict l h m Hl) as (stamped & h' & Hrun & Hst).
  exists stamped, h'. split; [exact Hrun|]. rewrite Hst.
  split; [|split].
  - destruct (_ <? _)%float; split; intros; congruence.
  - destruct (_ <? _)%float; auto.
  - intros l2 h2 m2 Hl2 Hbal.
    destruct (Hverdict l2 h2 m2 Hl2) as (stamped2 & h2' & Hrun2 & Hst2).
    exists stamped2, h2'. split; [exact Hrun2|]. now rewrite Hst2, Hbal.
Qed.

(** C2, as amended.  Transfer atomicity, for a transfer between two
    different accounts (which is what [ValidateTransactions] lets through,
    see [ValidateTransactions_validated]): when it is stamped [completed],
    the one step that stamps it replaces the balance of the source by that
    balance minus the amount and the balance of the destination by that
    balance plus the same amount, in binary64 arithmetic; when it is stamped
    [rejected], the table of accounts is unchanged, so neither balance
    changes.  No other stamp is possible. *)
Theorem C2_transfer_atomic (tx : Transaction.t) (l : positive) (h : heap)
    (m : gmap string Account.t) :
  h !! l = Some m ->
  Transaction.Type_ tx = "transfer" ->
  Transaction.AccountID tx <> Transaction.DestinationAccountID tx ->
  let src := Transaction.AccountID tx in
  let dst := Transaction.DestinationAccountID tx in
  exists stamped m',
    process_one tx (map_at l) h = Some ((stamped, map_at l), <[l := m']> h) /\
    (Transaction.Status stamped = "completed" \/ Transaction.Status stamped = "rejected") /\
    (Transaction.Status stamped = "completed" ->
       Account.Balance (account_of m' src)
         = (Account.Balance (account_of m src) - Transaction.Amount tx)%float /\
       Account.Balance (account_of m' dst)
         = (Account.Balance (account_of m dst) + Transaction.Amount tx)%float) /\
    (Transaction.Status stamped = "rejected" ->
       m' = m /\ <[l := m']> h = h).
Proof.
  intros Hl Hty Hne src dst.
  destruct (process_one_cases tx l h m Hl) as (stamped & m' & Hrun & Hcases).
  exists stamped, m'. split; [exact Hrun|].
  destruct Hcases as [(Hc & _)|[(Hd & _)|[(Hd & _)|
    [(Hd & _)|[(_ & Hfl & -> & ->)|[(_ & Hfl & -> & ->)|(_ & _ & Hn & _)]]]]]];
    try congruence.
  - split; [right; reflexivity|]. split; [discriminate|]. intros _.
    split; [reflexivity|apply insert_id; exact Hl].
  - split; [left; reflexivity|]. split; [|discriminate]. intros _.
    subst src dst.
    repeat (rewrite lookup_insert_eq || (rewrite lookup_insert_ne by congruence)).
    cbn. split; reflexivity.
Qed.

(** ** The daily limit and the overdraft floor *)

(** C3, as amended.  A debit that is stamped [completed] leaves the daily
    debit total of its account at the previous total plus the amount, and
    that total does not exceed the daily withdrawal limit: it is at most the
    limit whenever it is a number.  (Transfers are not tested against the
    limit.) *)
Theorem C3_completed_debit_within_limit (tx : Transaction.t) (l : positive)
    (h : heap) (m : gmap string Account.t) :
  h !! l = Some m ->
  Transaction.Type_ tx = "debit" ->
  exists stamped m',
    process_one tx (map_at l) h = Some ((stamped, map_at l), <[l := m']> h) /\
    (Transaction.Status stamped = "completed" ->
       let total := Account.DailyDebits (account_of m' (Transaction.AccountID tx)) in
       total = (Account.DailyDebits (account_of m (Transaction.AccountID tx))
                + Transaction.Amount tx)%float /\
       gtb total MaxDailyWithdrawalLimit = false /\
       ((total =? total)%float = true ->
        (total <=? MaxDailyWithdrawalLimit)%float = true)).
Proof.
  intros Hl Hty.
  destruct (process_one_cases tx l h m Hl) as (stamped & m' & Hrun & Hcases).
  exists stamped, m'. split; [exact Hrun|]. intros Hdone.
  destruct Hcases as [(Hc & _)|[(_ & _ & -> & _)|[(_ & _ & _ & -> & _)|
    [(_ & Hlim & _ & _ & ->)|[(Ht & _)|[(Ht & _)|(_ & Hd & _)]]]]]];
    try congruence; try discriminate Hdone.
  rewrite lookup_insert_eq. cbn.
  split; [reflexivity|]. split; [exact Hlim|].
  intros Hnum. apply ltb_false_leb; [exact Hnum|reflexivity|exact Hlim].
Qed.

Lemma above_floor_account_of (m : gmap string Account.t) (id : string) :
  above_floor m ->
  (processor.OverdraftLimit <=? Account.Balance (account_of m id))%float = true.
Proof.
  intros Hm. destruct (m !! id) as [a|] eqn:Ha; cbn; [exact (Hm id a Ha)|reflexivity].
Qed.

Lemma above_floor_insert (m : gmap string Account.t) (id : string) (a : Account.t) :
  above_floor m ->
  (processor.OverdraftLimit <=? Account.Balance a)%float = true ->
  above_floor (<[id := a]> m).
Proof.
  intros Hm Ha id' a' Hlook.
  destruct (decide (id = id')) as [->|Hne].
  - rewrite lookup_insert_eq in Hlook. now inversion Hlook; subst.
  - rewrite lookup_insert_ne in Hlook by exact Hne. exact (Hm id' a' Hlook).
Qed.

(** One iteration keeps the balances at or above the floor when the amount
    is a non-negative finite number. *)
Lemma process_one_above_floor (tx : Transaction.t) (l : positive) (h : heap)
    (m m' : gmap string Account.t) (stamped : Transaction.t) :
  (0 <=? Transaction.Amount tx)%float = true ->
  (Transaction.Amount tx <? infinity)%float = true ->
  h !! l = Some m ->
  above_floor m ->
  process_one tx (map_at l) h = Some ((stamped, map_at l), <[l := m']> h) ->
  above_floor m'.
Proof.
  intros Hpos Hfin Hl Hm Hrun.
  destruct (process_one_cases tx l h m Hl) as (stamped0 & m0 & Hrun0 & Hcases).
  rewrite Hrun0 in Hrun. injection Hrun as _ Hheap.
  assert (m0 = m') as <-.
  { apply (f_equal (fun x => x !! l)) in Hheap.
    rewrite !lookup_insert_eq in Hheap. congruence. }
  clear Hheap Hrun0.
  pose proof (above_floor_account_of m (Transaction.AccountID tx) Hm) as Hsrc.
  pose proof (above_floor_account_of m (Transaction.DestinationAccountID tx) Hm) as Hdst.
  pose proof (leb_true_not_nan _ _ Hsrc) as [_ Hnum].
  destruct Hcases as [(_ & _ & ->)|[(_ & _ & _ & ->)|[(_ & _ & _ & _ & ->)|
    [(_ & _ & Hfl & _ & ->)|[(_ & _ & _ & ->)|[(_ & Hfl & _ & ->)|(_ & _ & _ & _ & ->)]]]]]];
    try exact Hm.
  - apply above_floor_insert; [exact Hm|]. cbn. apply add_floor; assumption.
  - apply above_floor_insert; [exact Hm|]. cbn. apply sub_floor; assumption.
  - set (m2 := <[Transaction.DestinationAccountID tx := _]> (<[Transaction.AccountID tx := _]> m)).
    assert (Hm2 : above_floor m2).
    { apply above_floor_insert; [apply above_floor_insert; [exact Hm|]|]; cbn.
      - apply sub_floor; assumption.
      - apply add_floor; assumption. }
    apply above_floor_insert; [exact Hm2|]. cbn.
    apply above_floor_account_of. exact Hm2.
  - destruct (String.eqb _ _); [|exact Hm].
    apply above_floor_insert; [exact Hm|]. cbn. exact Hsrc.
Qed.

(** C1, as amended.  When every account of the mapping starts at or above
    the overdraft floor and every transaction has a non-negative finite
    amount, then after [ProcessTransactions] has applied the whole sequence
    every account of the returned mapping has a balance at or above the
    floor. *)
Theorem C1_balances_stay_above_floor (txs : list Transaction.t) (r : mapref)
    (h : heap) :
  valid_ref h r ->
  (forall id a, table h r !! id = Some a ->
                (processor.OverdraftLimit <=? Account.Balance a)%float = true) ->
  (forall tx, tx ∈ txs ->
              (0 <=? Transaction.Amount tx)%float = true /\
              (Transaction.Amount tx <? infinity)%float = true) ->
  exists l' stamped m',
    ProcessTransactions txs r h = Some ((map_at l', stamped), <[l' := m']> h) /\
    (forall id a, m' !! id = Some a ->
                  (processor.OverdraftLimit <=? Account.Balance a)%float = true).
Proof.
  intros Hvalid Hinit Hamounts.
  destruct (ProcessTransactions_invariant above_floor txs r h Hvalid)
    as (stamped & m' & Hrun & Hfinal & _).
  - intros tx m stamped m' l h0 Hin Hl Hm Hone.
    destruct (Hamounts tx Hin) as [Hpos Hfin].
    exact (process_one_above_floor tx l h0 m m' stamped Hpos Hfin Hl Hm Hone).
  - exact Hinit.
  - exists (fresh (dom h)), stamped, m'. split; [exact Hrun|exact Hfinal].
Qed.

(** ** The accounting identity *)

Lemma accounting_identity_refl (t : float * float * float) :
  finite_totals t -> accounting_identity t t.
Proof.
  destruct t as [[b c] d]. intros ([vb Hb] & [vc Hc] & [vd Hd]).
  exists vb, vc, vd, vb, vc, vd. repeat split; try assumption. lia.
Qed.

(** Movements that do not round keep the identity. *)
Lemma exact_movements_identity (moves : list movement) (t : float * float * float) :
  finite_totals t -> all_exact t moves ->
  accounting_identity t (fold_left apply_movement moves t).
Proof.
  revert t. induction moves as [|mv rest IH]; intros t Hfin Hex; cbn [fold_left].
  - apply accounting_identity_refl. exact Hfin.
  - destruct Hex as [Hmv Hrest].
    assert (Hstep : accounting_identity t (apply_movement t mv) /\
                    finite_totals (apply_movement t mv)).
    { destruct t as [[b c] d]. destruct Hfin as ([vb Hb] & [vc Hc] & [vd Hd]).
      destruct mv as [a|a]; cbn in Hmv |- *.
      - destruct Hmv as [(xb & xa & Hxb & Hxa & Hrb) (xc & xa' & Hxc & Hxa' & Hrc)].
        split; [|repeat split; eauto].
        exists vb, vc, vd, (xb + xa), (xc + xa'), vd.
        repeat split; try assumption.
        assert (xb = vb) by congruence. assert (xc = vc) by congruence.
        assert (xa = xa') by congruence. lia.
      - destruct Hmv as [(xb & xa & Hxb & Hxa & Hrb) (xd & xa' & Hxd & Hxa' & Hrd)].
        split; [|repeat split; eauto].
        exists vb, vc, vd, (xb - xa), vc, (xd + xa').
        repeat split; try assumption.
        assert (xb = vb) by congruence. assert (xd = vd) by congruence.
        assert (xa = xa') by congruence. lia. }
    destruct Hstep as [Hid1 Hfin1].
    specialize (IH _ Hfin1 Hrest).
    destruct t as [[b c] d], (apply_movement (b, c, d) mv) as [[b1 c1] d1],
             (fold_left apply_movement rest (b1, c1, d1)) as [[b2 c2] d2].
    destruct Hid1 as (vb0 & vc0 & vd0 & vb1 & vc1 & vd1 & H1 & H2 & H3 & H4 & H5 & H6 & He1).
    destruct IH as (wb1 & wc1 & wd1 & vb2 & vc2 & vd2 & G1 & G2 & G3 & G4 & G5 & G6 & He2).
    exists vb0, vc0, vd0, vb2, vc2, vd2. repeat split; try assumption.
    assert (wb1 = vb1) by congruence. assert (wc1 = vc1) by congruence.
    assert (wd1 = vd1) by congruence. lia.
Qed.

(** * Properties of the anomaly detector *)

(** ** The slice of anomalies only grows *)

Lemma inspect_appends (accounts : gmap string Account.t) (tx : Transaction.t)
    (anomalies : list Anomaly.t) (wba : gmap string (list Transaction.t)) :
  (inspect accounts tx anomalies wba).1
    = anomalies ++ (inspect accounts tx [] ∅).1.
Proof.
  unfold inspect.
  destruct (negb _); cbn; [now rewrite app_nil_r|].
  destruct (_ <=? _)%float, (_ <? _)%float; cbn;
    rewrite <- ?app_assoc, ?app_nil_r; reflexivity.
Qed.

Lemma inspect_tracks (accounts : gmap string Account.t) (tx : Transaction.t)
    (anomalies : list Anomaly.t) (wba : gmap string (list Transaction.t)) :
  (inspect accounts tx anomalies wba).2
    = if String.eqb (Transaction.Status tx) "completed"
         && String.eqb (Transaction.Type_ tx) "debit"
      then track wba tx else wba.
Proof.
  unfold inspect.
  destruct (String.eqb (Transaction.Status tx) "completed"); cbn; [|reflexivity].
  destruct (String.eqb (Transaction.Type_ tx) "debit"); reflexivity.
Qed.

Lemma inspect_all_appends (accounts : gmap string Account.t)
    (txs : list Transaction.t) (anomalies : list Anomaly.t)
    (wba : gmap string (list Transaction.t)) :
  (inspect_all accounts txs anomalies wba).1
    = anomalies ++ flat_map (fun tx => (inspect accounts tx [] ∅).1) txs.
Proof.
  revert anomalies wba. induction txs as [|tx txs IH]; intros anomalies wba; cbn.
  - now rewrite app_nil_r.
  - destruct (inspect accounts tx anomalies wba) as [an1 wba1] eqn:Hi.
    rewrite IH, app_assoc. f_equal.
    change an1 with (an1, wba1).1. rewrite <- Hi. apply inspect_appends.
Qed.

Lemma scan_windows_appends (id : string) (w : list Transaction.t)
    (indices : list nat) (anomalies : list Anomaly.t) :
  scan_windows id w indices anomalies = anomalies ++ scan_windows id w indices [].
Proof.
  induction indices as [|i rest IH]; cbn [scan_windows].
  - now rewrite app_nil_r.
  - destruct (within_window w i); [reflexivity|exact IH].
Qed.

Lemma check_rapid_appends (id : string) (w : list Transaction.t)
    (anomalies : list Anomaly.t) :
  check_rapid id w anomalies = anomalies ++ check_rapid id w [].
Proof.
  unfold check_rapid. destruct (_ <=? _)%nat.
  - apply scan_windows_appends.
  - now rewrite app_nil_r.
Qed.

Lemma check_all_appends (entries : list (string * list Transaction.t))
    (anomalies : list Anomaly.t) :
  check_all entries anomalies
    = anomalies ++ flat_map (fun e => check_rapid e.1 e.2 []) entries.
Proof.
  revert anomalies. induction entries as [|[id w] rest IH]; intros anomalies; cbn.
  - now rewrite app_nil_r.
  - rewrite IH, (check_rapid_appends id w anomalies), app_assoc. reflexivity.
Qed.

(** ** What the scan of one account reports *)




Lemma scan_windows_labels (id : string) (w : list Transaction.t)
    (indices : list nat) (an : Anomaly.t) :
  an ∈ scan_windows id w indices [] ->
  Anomaly.Type_ an = "rapid_withdrawals" /\ Anomaly.AccountID an = id.
Proof.
  induction indices as [|i rest IH]; cbn [scan_windows app]; [intros H; inversion H|].
  destruct (within_window w i); [|exact IH].
  intros H. apply list_elem_of_singleton in H. subst an. split; reflexivity.
Qed.

Lemma check_rapid_labels (id : string) (w : list Transaction.t) (an : Anomaly.t) :
  an ∈ check_rapid id w [] ->
  Anomaly.Type_ an = "rapid_withdrawals" /\ Anomaly.AccountID an = id.
Proof.
  unfold check_rapid. destruct (_ <=? _)%nat.
  - apply scan_windows_labels.
  - intros H; inversion H.
Qed.


(** ** Filtering the result *)


Lemma filter_drops_all {A} (p : A -> bool) (l : list A) :
  (forall x, x ∈ l -> p x = false) -> List.filter p l = [].
Proof.
  induction l as [|x l IH]; intros Hall; cbn; [reflexivity|].
  rewrite (Hall x) by left. apply IH. intros y Hy. apply Hall. now right.
Qed.


Lemma second_loop_no_overdraft (entries : list (string * list Transaction.t)) :
  List.filter is_overdraft (flat_map (fun e => check_rapid e.1 e.2 []) entries) = [].
Proof.
  induction entries as [|[id w] rest IH]; cbn [flat_map]; [reflexivity|].
  rewrite List.filter_app, IH, app_nil_r.
  apply filter_drops_all. intros an Han. unfold is_overdraft.
  destruct (check_rapid_labels id w an Han) as [-> _]. reflexivity.
Qed.


(** What the first loop files under each account. *)
Lemma inspect_all_tracks (accounts : gmap string Account.t)
    (txs : list Transaction.t) (anomalies : list Anomaly.t)
    (wba : gmap string (list Transaction.t)) (id : string) :
  (inspect_all accounts txs anomalies wba).2 !! id
    = match wba !! id, List.filter (is_withdrawal_of id) txs with
      | Some w0, f => Some (w0 ++ f)
      | None, [] => None
      | None, f => Some f
      end.
Proof.
  revert anomalies wba. induction txs as [|tx txs IH]; intros anomalies wba.
  - cbn. destruct (wba !! id); [now rewrite app_nil_r|reflexivity].
  - cbn [inspect_all List.filter].
    destruct (inspect accounts tx anomalies wba) as [an1 wba1] eqn:Hi.
    assert (Hw : wba1 = (inspect accounts tx anomalies wba).2) by now rewrite Hi.
    rewrite inspect_tracks in Hw. rewrite IH. subst wba1.
    change (is_withdrawal_of id tx)
      with (String.eqb (Transaction.Status tx) "completed"
            && String.eqb (Transaction.Type_ tx) "debit"
            && String.eqb (Transaction.AccountID tx) id).
    destruct (String.eqb (Transaction.Status tx) "completed"
              && String.eqb (Transaction.Type_ tx) "debit"); cbn [andb];
      [|reflexivity].
    unfold track.
    destruct (String.eqb_spec (Transaction.AccountID tx) id) as [Heq|Hne].
    + rewrite Heq, lookup_insert_eq.
      destruct (wba !! id); cbn; [now rewrite <- app_assoc|reflexivity].
    + rewrite lookup_insert_ne by exact Hne. reflexivity.
Qed.

(** The run in the order of [map_to_list] is one of the possible runs. *)
Lemma DetectAnomalies_is_a_run (txs : list Transaction.t)
    (accounts : gmap string Account.t) :
  DetectAnomalies_returns txs accounts (DetectAnomalies txs accounts).
Proof.
  unfold DetectAnomalies_returns, DetectAnomalies.
  destruct (inspect_all accounts txs [] ∅) as [an wba]. cbn.
  exists (map_to_list wba). split; reflexivity.
Qed.


(** ** Claims about the anomaly detector *)

(** C8.  Whatever the order in which the accounts are visited, the
    [account_overdraft] anomalies of the result are, in input order, one for
    each transaction whose status is [completed] and whose source account has
    a negative balance in the mapping handed to the detector (the balances
    after the run), and none for any other transaction.  The severity of such
    an anomaly is [low] when the balance is not below half the overdraft
    floor, [medium] when it is below half the floor but not below 0.8 times
    the floor, and [high] when it is below 0.8 times the floor. *)
Theorem C8_overdraft_anomalies (txs : list Transaction.t)
    (accounts : gmap string Account.t) (result : list Anomaly.t) :
  DetectAnomalies_returns txs accounts result ->
  List.filter is_overdraft result
    = flat_map (fun tx =>
        let balance := Account.Balance (account_of accounts (Transaction.AccountID tx)) in
        if String.eqb (Transaction.Status tx) "completed" && (balance <? 0)%float
        then [overdraft_anomaly tx balance] else []) txs
  /\ (forall balance : float,
        (balance <? 0)%float = true ->
        ((balance <? OverdraftLimit_half)%float = false ->
           overdraft_severity balance = "low") /\
        ((balance <? OverdraftLimit_half)%float = true ->
         (balance <? OverdraftLimit_080)%float = false ->
           overdraft_severity balance = "medium") /\
        ((balance <? OverdraftLimit_080)%float = true ->
           overdraft_severity balance = "high"))
  /\ OverdraftLimit_half = (detector.OverdraftLimit / 2)%float
  /\ OverdraftLimit_080 = (detector.OverdraftLimit * 0x1.999999999999ap-1)%float.
Proof.
  intros (entries & Hperm & ->). split; [|split; [|split; reflexivity]].
  - rewrite check_all_appends, inspect_all_appends, app_nil_l, List.filter_app.
    rewrite second_loop_no_overdraft, app_nil_r.
    clear. induction txs as [|tx txs IH]; [reflexivity|].
    cbn [flat_map]. rewrite List.filter_app, IH. f_equal.
    unfold inspect.
    destruct (String.eqb (Transaction.Status tx) "completed"); cbn; [|reflexivity].
    destruct (_ <=? _)%float, (_ <? 0)%float; reflexivity.
  - intros balance _. unfold overdraft_severity.
    pose proof (ltb_800_500 balance) as Hdeeper.
    fold OverdraftLimit_half OverdraftLimit_080 in Hdeeper.
    destruct (balance <? OverdraftLimit_half)%float,
             (balance <? OverdraftLimit_080)%float;
      cbn; repeat split; intros; try reflexivity; try discriminate.
    discriminate (Hdeeper eq_refl).
Qed.




(** * Further properties of the ledger engine *)

(** ** The transactions and the table through the loop *)

(** From a run of one iteration, the case of [process_one_cases] it is. *)
Ltac invert_step Hl Hrun :=
  let st0 := fresh "st0" in
  let m0 := fresh "m0" in
  let Hrun0 := fresh "Hrun0" in
  let Hcases := fresh "Hcases" in
  let Hheap := fresh "Hheap" in
  let Hst := fresh "Hst" in
  match type of Hrun with
  | process_one ?tx (map_at ?l) ?h = _ =>
      destruct (process_one_cases tx l h _ Hl) as (st0 & m0 & Hrun0 & Hcases);
      rewrite Hrun0 in Hrun; injection Hrun as Hst Hheap;
      apply (f_equal (fun x => x !! l)) in Hheap;
      rewrite !lookup_insert_eq in Hheap; injection Hheap as Hheap;
      subst st0 m0; clear Hrun0; cbv zeta in Hcases; revert Hcases
  end.

(** The loop, with a property of the transactions processed so far, their
    stamps and the table. *)
Lemma process_loop_trace
    (J : list Transaction.t -> list Transaction.t -> gmap string Account.t -> Prop)
    (txs : list Transaction.t) :
  (forall pre spre tx m stamped m' l h,
      tx ∈ txs -> J pre spre m -> h !! l = Some m ->
      process_one tx (map_at l) h = Some ((stamped, map_at l), <[l := m']> h) ->
      J (pre ++ [tx]) (spre ++ [stamped]) m') ->
  forall pre spre l h m,
    h !! l = Some m -> J pre spre m ->
    exists stamped m',
      process_loop txs (map_at l) h = Some ((stamped, map_at l), <[l := m']> h) /\
      J (pre ++ txs) (spre ++ stamped) m'.
Proof.
  induction txs as [|tx txs IH]; intros Hstep pre spre l h m Hl HJ.
  - exists [], m. cbn. unfold ret. rewrite (insert_id h l m Hl), !app_nil_r. auto.
  - destruct (process_one_cases tx l h m Hl) as (st & m1 & Hone & _).
    assert (HJ1 : J (pre ++ [tx]) (spre ++ [st]) m1)
      by (eapply (Hstep pre spre tx m st m1 l h); [left| | |]; eassumption).
    destruct (IH (fun p sp tx' m0 st' m0' l0 h0 Hin =>
                    Hstep p sp tx' m0 st' m0' l0 h0 (list_elem_of_further _ _ _ Hin))
                 (pre ++ [tx]) (spre ++ [st]) l (<[l := m1]> h) m1
                 (lookup_insert_eq _ _ _) HJ1)
      as (sts & m2 & Hloop & HJ2).
    exists (st :: sts), m2. split.
    + rewrite (process_loop_step tx txs l h _ st Hone), Hloop.
      now rewrite insert_insert_eq.
    + rewrite <- !app_assoc in HJ2. exact HJ2.
Qed.

Lemma ProcessTransactions_trace
    (J : list Transaction.t -> list Transaction.t -> gmap string Account.t -> Prop)
    (txs : list Transaction.t) (r : mapref) (h : heap) :
  valid_ref h r ->
  (forall pre spre tx m stamped m' l h0,
      tx ∈ txs -> J pre spre m -> h0 !! l = Some m ->
      process_one tx (map_at l) h0 = Some ((stamped, map_at l), <[l := m']> h0) ->
      J (pre ++ [tx]) (spre ++ [stamped]) m') ->
  J [] [] (table h r) ->
  exists stamped m',
    ProcessTransactions txs r h
      = Some ((map_at (fresh (dom h)), stamped), <[fresh (dom h) := m']> h) /\
    J txs stamped m'.
Proof.
  intros Hvalid Hstep H0.
  destruct (ProcessTransactions_runs_loop txs r h Hvalid) as (stamped & m' & Hloop & Hrun).
  destruct (process_loop_trace J txs Hstep [] [] (fresh (dom h))
              (<[fresh (dom h) := table h r]> h) (table h r)
              (lookup_insert_eq _ _ _) H0) as (stamped' & m'' & Hloop' & HJ).
  rewrite Hloop in Hloop'. injection Hloop' as Hst Hheap.
  apply (f_equal (fun x => x !! fresh (dom h))) in Hheap.
  rewrite insert_insert_eq, !lookup_insert_eq in Hheap. injection Hheap as Hheap.
  subst stamped' m''. exists stamped, m'. split; [exact Hrun|exact HJ].
Qed.

(** The seven cases of an iteration, with the stamped transaction and the
    table replaced by what they are. *)
Ltac split_cases :=
  intros
    [(Hty & -> & ->)
    |[(Hty & Hlim & -> & ->)
    |[(Hty & Hlim & Hfl & -> & ->)
    |[(Hty & Hlim & Hfl & -> & ->)
    |[(Hty & Hfl & -> & ->)
    |[(Hty & Hfl & -> & ->)
    |(Hnc & Hnd & Hnt & -> & ->)]]]]]].

(** ** One iteration

    What an iteration that takes the table [m] to [m'] and stamps [tx] as
    [stamped] does and does not do. *)

Section StepFacts.
Context (tx stamped : Transaction.t) (l : positive) (h : heap)
        (m m' : gmap string Account.t).
Hypothesis Hl : h !! l = Some m.
Hypothesis Hrun :
  process_one tx (map_at l) h = Some ((stamped, map_at l), <[l := m']> h).

Lemma step_stamp : stamp_of tx stamped.
Proof using Hl Hrun.
  invert_step Hl Hrun. unfold stamp_of.
  split_cases.
  - exists "completed", (Transaction.ProcessingMessage tx). reflexivity.
  - exists "rejected", msg_daily_limit. reflexivity.
  - exists "rejected", msg_overdraft_limit. reflexivity.
  - destruct (_ <? 0)%float.
    + exists "completed", "Account in overdraft". reflexivity.
    + exists "completed", (Transaction.ProcessingMessage tx). reflexivity.
  - exists "rejected", msg_overdraft_limit. reflexivity.
  - destruct (_ <? 0)%float.
    + exists "completed", "Source account in overdraft". reflexivity.
    + exists "completed", (Transaction.ProcessingMessage tx). reflexivity.
  - exists (Transaction.Status tx), (Transaction.ProcessingMessage tx).
    destruct tx; reflexivity.
Qed.

Lemma step_status :
  (Transaction.Type_ tx = "credit" -> Transaction.Status stamped = "completed") /\
  (Transaction.Type_ tx = "debit" \/ Transaction.Type_ tx = "transfer" ->
     Transaction.Status stamped = "completed" \/
     Transaction.Status stamped = "rejected") /\
  (Transaction.Type_ tx <> "credit" -> Transaction.Type_ tx <> "debit" ->
   Transaction.Type_ tx <> "transfer" -> stamped = tx).
Proof using Hl Hrun.
  invert_step Hl Hrun.
  split_cases; repeat split; intros; try congruence; auto;
    try (destruct (_ <? 0)%float; cbn; auto);
    try (destruct H; congruence).
Qed.

Lemma step_not_completed :
  Transaction.Status stamped <> "completed" -> m' = m.
Proof using Hl Hrun.
  invert_step Hl Hrun.
  split_cases; intros Hnot; try reflexivity;
    try (exfalso; apply Hnot; reflexivity).
  destruct (String.eqb_spec (Transaction.Status tx) "completed"); congruence.
Qed.

Lemma step_frame (id : string) :
  id <> Transaction.AccountID tx ->
  (Transaction.Type_ tx = "transfer" -> id <> Transaction.DestinationAccountID tx) ->
  m' !! id = m !! id.
Proof using Hl Hrun.
  intros Hsrc Hdst. invert_step Hl Hrun.
  split_cases; try reflexivity;
    try (rewrite lookup_insert_ne by congruence; reflexivity).
  - specialize (Hdst Hty). rewrite !lookup_insert_ne by congruence. reflexivity.
  - destruct (String.eqb _ _); [|reflexivity].
    rewrite lookup_insert_ne by congruence. reflexivity.
Qed.

Lemma step_keeps_accounts (id : string) :
  is_Some (m !! id) -> is_Some (m' !! id).
Proof using Hl Hrun.
  intros Hsome. invert_step Hl Hrun.
  split_cases; try exact Hsome;
    repeat (apply lookup_insert_is_Some'; right); try exact Hsome.
  destruct (String.eqb _ _); [|exact Hsome].
  apply lookup_insert_is_Some'; right; exact Hsome.
Qed.

Lemma step_new_accounts (id : string) :
  is_Some (m' !! id) ->
  is_Some (m !! id) \/
  (Transaction.Status stamped = "completed" /\
   (id = Transaction.AccountID tx \/
    (Transaction.Type_ tx = "transfer" /\ id = Transaction.DestinationAccountID tx))).
Proof using Hl Hrun.
  intros Hsome. invert_step Hl Hrun.
  split_cases; auto.
  - apply lookup_insert_is_Some in Hsome as [<-|[_ Hsome]]; auto.
  - apply lookup_insert_is_Some in Hsome as [<-|[_ Hsome]]; auto.
  - assert (Hdone : Transaction.Status
              (Transaction.with_Status "completed"
                 (if (Account.Balance (account_of m (Transaction.AccountID tx))
                      - Transaction.Amount tx <? 0)%float
                  then Transaction.with_ProcessingMessage
                         "Source account in overdraft" tx
                  else tx)) = "completed") by reflexivity.
    apply lookup_insert_is_Some in Hsome as [<-|[_ Hsome]]; [auto|].
    apply lookup_insert_is_Some in Hsome as [<-|[_ Hsome]]; [auto|].
    apply lookup_insert_is_Some in Hsome as [<-|[_ Hsome]]; auto.
  - destruct (String.eqb_spec (Transaction.Status tx) "completed"); [|auto].
    apply lookup_insert_is_Some in Hsome as [<-|[_ Hsome]]; auto.
Qed.

Lemma step_keeps_ids (id : string) :
  Account.ID (account_of m' id) = Account.ID (account_of m id).
Proof using Hl Hrun.
  invert_step Hl Hrun.
  split_cases; try reflexivity.
  - destruct (decide (Transaction.AccountID tx = id)) as [<-|Hne];
      [rewrite lookup_insert_eq|rewrite lookup_insert_ne by exact Hne]; reflexivity.
  - destruct (decide (Transaction.AccountID tx = id)) as [<-|Hne];
      [rewrite lookup_insert_eq|rewrite lookup_insert_ne by exact Hne]; reflexivity.
  - destruct (decide (Transaction.AccountID tx = id)) as [<-|Hne].
    + rewrite lookup_insert_eq. cbn.
      destruct (decide (Transaction.DestinationAccountID tx = Transaction.AccountID tx))
        as [Heq|Hne'].
      * rewrite Heq, lookup_insert_eq. reflexivity.
      * rewrite lookup_insert_ne, lookup_insert_eq by exact Hne'. reflexivity.
    + rewrite lookup_insert_ne by exact Hne.
      destruct (decide (Transaction.DestinationAccountID tx = id)) as [<-|Hne'].
      * rewrite lookup_insert_eq. reflexivity.
      * rewrite !lookup_insert_ne by assumption. reflexivity.
  - destruct (String.eqb _ _); [|reflexivity].
    destruct (decide (Transaction.AccountID tx = id)) as [<-|Hne];
      [rewrite lookup_insert_eq|rewrite lookup_insert_ne by exact Hne]; reflexivity.
Qed.

Lemma step_last_time (id : string) :
  Account.LastTransactionTime (account_of m' id)
    = if String.eqb (Transaction.Status stamped) "completed"
         && String.eqb (Transaction.AccountID tx) id
      then Transaction.Timestamp tx
      else Account.LastTransactionTime (account_of m id).
Proof using Hl Hrun.
  invert_step Hl Hrun.
  split_cases; try reflexivity;
    cbn [Transaction.Status Transaction.with_Status
         Transaction.with_ProcessingMessage];
    try change (String.eqb "completed" "completed") with true;
    cbn [andb].
  - destruct (String.eqb_spec (Transaction.AccountID tx) id) as [<-|Hne];
      [rewrite lookup_insert_eq|rewrite lookup_insert_ne by exact Hne]; reflexivity.
  - destruct (String.eqb_spec (Transaction.AccountID tx) id) as [<-|Hne];
      [rewrite lookup_insert_eq|rewrite lookup_insert_ne by exact Hne]; reflexivity.
  - destruct (String.eqb_spec (Transaction.AccountID tx) id) as [<-|Hne].
    + rewrite lookup_insert_eq. reflexivity.
    + rewrite lookup_insert_ne by exact Hne.
      destruct (decide (Transaction.DestinationAccountID tx = id)) as [<-|Hne'].
      * rewrite lookup_insert_eq. reflexivity.
      * rewrite !lookup_insert_ne by assumption. reflexivity.
  - destruct (String.eqb (Transaction.Status tx) "completed"); [|reflexivity].
    cbn [andb].
    destruct (String.eqb_spec (Transaction.AccountID tx) id) as [<-|Hne];
      [rewrite lookup_insert_eq|rewrite lookup_insert_ne by exact Hne]; reflexivity.
Qed.

End StepFacts.

(** ** The whole batch *)

Lemma last_completed_app (id : string) (xs ys : list Transaction.t) (init : Time) :
  last_completed id (xs ++ ys) init = last_completed id ys (last_completed id xs init).
Proof. revert init. induction xs as [|x xs IH]; intros init; [reflexivity|apply IH]. Qed.

Lemma stamp_of_fields (tx stamped : Transaction.t) :
  stamp_of tx stamped ->
  Transaction.ID stamped = Transaction.ID tx /\
  Transaction.AccountID stamped = Transaction.AccountID tx /\
  Transaction.DestinationAccountID stamped = Transaction.DestinationAccountID tx /\
  Transaction.Timestamp stamped = Transaction.Timestamp tx /\
  Transaction.Amount stamped = Transaction.Amount tx /\
  Transaction.Type_ stamped = Transaction.Type_ tx /\
  Transaction.Description stamped = Transaction.Description tx /\
  Transaction.ValidationMessage stamped = Transaction.ValidationMessage tx.
Proof. intros (status & message & ->). repeat split. Qed.

(** ** The totals of an account through the loop *)

Lemma movements_of_app (id : string) (xs ys : list Transaction.t) :
  movements_of id (xs ++ ys) = movements_of id xs ++ movements_of id ys.
Proof. apply flat_map_app. Qed.

Lemma eqb_false (a b : string) : a <> b -> String.eqb a b = false.
Proof. apply String.eqb_neq. Qed.

(** One iteration applies to the totals of every account the movements of
    the transaction it has stamped, and changes them in no other way. *)
Lemma step_movements (tx stamped : Transaction.t) (l : positive) (h : heap)
    (m m' : gmap string Account.t) (id : string) :
  h !! l = Some m ->
  process_one tx (map_at l) h = Some ((stamped, map_at l), <[l := m']> h) ->
  totals (account_of m' id)
    = fold_left apply_movement (movement_of id stamped) (totals (account_of m id)).
Proof.
  intros Hl Hrun. invert_step Hl Hrun. split_cases.
  - (* credit *)
    unfold movement_of. cbn [Transaction.with_Status Transaction.Status Transaction.Type_
      Transaction.AccountID Transaction.DestinationAccountID Transaction.Amount].
    rewrite Hty. change (negb (String.eqb "completed" "completed")) with false.
    change (String.eqb "credit" "credit") with true. cbv iota.
    destruct (String.eqb_spec (Transaction.AccountID tx) id) as [<-|Hne].
    + rewrite lookup_insert_eq. reflexivity.
    + rewrite lookup_insert_ne by exact Hne. reflexivity.
  - reflexivity.
  - reflexivity.
  - (* completed debit *)
    assert (Hst : forall t, Transaction.Type_ t = "debit" ->
      movement_of id (Transaction.with_Status "completed" t)
      = if String.eqb (Transaction.AccountID t) id
        then [Debited (Transaction.Amount t)] else []).
    { intros t Ht. unfold movement_of. destruct t; cbn in Ht |- *. subst. reflexivity. }
    assert (Hmv : movement_of id (Transaction.with_Status "completed"
                     (if (Account.Balance (account_of m (Transaction.AccountID tx))
                          - Transaction.Amount tx <? 0)%float
                      then Transaction.with_ProcessingMessage "Account in overdraft" tx
                      else tx))
                  = if String.eqb (Transaction.AccountID tx) id
                    then [Debited (Transaction.Amount tx)] else []).
    { destruct (_ <? 0)%float; rewrite Hst; try reflexivity; exact Hty. }
    rewrite Hmv.
    destruct (String.eqb_spec (Transaction.AccountID tx) id) as [<-|Hne].
    + rewrite lookup_insert_eq. reflexivity.
    + rewrite lookup_insert_ne by exact Hne. reflexivity.
  - reflexivity.
  - (* completed transfer *)
    assert (Hst : forall t, Transaction.Type_ t = "transfer" ->
      movement_of id (Transaction.with_Status "completed" t)
      = if String.eqb (Transaction.DestinationAccountID t) id
        then [Credited (Transaction.Amount t)]
        else if String.eqb (Transaction.AccountID t) id
             then [Debited (Transaction.Amount t)] else []).
    { intros t Ht. unfold movement_of. destruct t; cbn in Ht |- *. subst. reflexivity. }
    assert (Hmv : movement_of id (Transaction.with_Status "completed"
                     (if (Account.Balance (account_of m (Transaction.AccountID tx))
                          - Transaction.Amount tx <? 0)%float
                      then Transaction.with_ProcessingMessage
                             "Source account in overdraft" tx
                      else tx))
                  = if String.eqb (Transaction.DestinationAccountID tx) id
                    then [Credited (Transaction.Amount tx)]
                    else if String.eqb (Transaction.AccountID tx) id
                         then [Debited (Transaction.Amount tx)] else []).
    { destruct (_ <? 0)%float; rewrite Hst; try reflexivity; exact Hty. }
    rewrite Hmv.
    destruct (String.eqb_spec (Transaction.AccountID tx) id) as [<-|Hne].
    + rewrite lookup_insert_eq.
      destruct (String.eqb_spec (Transaction.DestinationAccountID tx)
                  (Transaction.AccountID tx)) as [Heq|Hne].
      * rewrite Heq, lookup_insert_eq. reflexivity.
      * rewrite lookup_insert_ne, lookup_insert_eq by exact Hne. reflexivity.
    + rewrite lookup_insert_ne by exact Hne.
      destruct (String.eqb_spec (Transaction.DestinationAccountID tx) id) as [<-|Hne'].
      * rewrite lookup_insert_eq. reflexivity.
      * rewrite !lookup_insert_ne by assumption. reflexivity.
  - (* another type: the table changes at most by a timestamp *)
    assert (Hmv : movement_of id tx = []).
    { unfold movement_of.
      rewrite (eqb_false _ _ Hnc), (eqb_false _ _ Hnd), (eqb_false _ _ Hnt).
      destruct (negb _); reflexivity. }
    rewrite Hmv. cbn [fold_left].
    destruct (String.eqb _ _); [|reflexivity].
    destruct (String.eqb_spec (Transaction.AccountID tx) id) as [<-|Hne].
    + rewrite lookup_insert_eq. reflexivity.
    + rewrite lookup_insert_ne by exact Hne. reflexivity.
Qed.

(** C10, as amended.  [ProcessTransactions] returns the transactions in
    their order, each with its status, and for every account id the final
    totals are the initial ones with the movements of the returned
    transactions applied in turn: every transaction returned [completed]
    that credits the account adds its amount to the balance and to the daily
    credits, every one that debits it subtracts its amount from the balance
    and adds it to the daily debits, all in binary64 arithmetic, and nothing
    else changes the totals.  When the initial totals are finite and none of
    these additions and subtractions rounds, the change of the balance
    equals the change of the daily credits minus the change of the daily
    debits. *)
Theorem C10_counters_follow_balance (txs : list Transaction.t) (r : mapref) (h : heap) :
  valid_ref h r ->
  exists l' stamped m',
    ProcessTransactions txs r h = Some ((map_at l', stamped), <[l' := m']> h) /\
    Forall2 stamp_of txs stamped /\
    forall id,
      let before := totals (account_of (table h r) id) in
      let after := totals (account_of m' id) in
      after = fold_left apply_movement (movements_of id stamped) before /\
      (finite_totals before -> all_exact before (movements_of id stamped) ->
       accounting_identity before after).
Proof.
  intros Hvalid.
  set (J := fun (pre spre : list Transaction.t) (m : gmap string Account.t) =>
    Forall2 stamp_of pre spre /\
    forall id,
      totals (account_of m id)
        = fold_left apply_movement (movements_of id spre)
            (totals (account_of (table h r) id))).
  destruct (ProcessTransactions_trace J txs r h Hvalid)
    as (stamped & m' & Hrun & Hstamps & Hfinal).
  - intros pre spre tx m st m1 l h0 _ [Hs Hm] Hl Hone. split.
    + apply Forall2_app; [exact Hs|constructor; [|constructor]].
      exact (step_stamp tx st l h0 m m1 Hl Hone).
    + intros id. rewrite movements_of_app, fold_left_app, <- Hm.
      unfold movements_of. cbn [flat_map]. rewrite app_nil_r.
      exact (step_movements tx st l h0 m m1 id Hl Hone).
  - split; [constructor|]. intros id. reflexivity.
  - exists (fresh (dom h)), stamped, m'. split; [exact Hrun|].
    split; [exact Hstamps|].
    intros id before after. split; [exact (Hfinal id)|].
    intros Hfin Hex. subst after. rewrite (Hfinal id).
    apply exact_movements_identity; assumption.
Qed.

(** ** What the batch returns *)

(** X1.  [ProcessTransactions] returns one transaction for each one it was
    given, in the same order, and each of them is the transaction given
    with, at most, another status and another processing message: its id,
    its accounts, its timestamp, its amount, its type, its description and
    its validation message are those of the input. *)
Theorem ProcessTransactions_stamps_in_order (txs : list Transaction.t) (r : mapref)
    (h : heap) :
  valid_ref h r ->
  exists l' stamped m',
    ProcessTransactions txs r h = Some ((map_at l', stamped), <[l' := m']> h) /\
    length stamped = length txs /\
    Forall2 stamp_of txs stamped.
Proof.
  intros Hvalid.
  destruct (ProcessTransactions_trace (fun pre spre _ => Forall2 stamp_of pre spre)
              txs r h Hvalid) as (stamped & m' & Hrun & Hst).
  - intros pre spre tx m st m1 l h0 _ Hs Hl Hone.
    apply Forall2_app; [assumption|constructor; [|constructor]].
    exact (step_stamp tx st l h0 m m1 Hl Hone).
  - constructor.
  - exists (fresh (dom h)), stamped, m'. split; [exact Hrun|].
    split; [symmetry; exact (Forall2_length _ _ _ Hst)|assumption].
Qed.

(** X2.  What [ProcessTransactions] decides depends on the type alone: a
    credit always comes back [completed]; a debit or a transfer comes back
    [completed] or [rejected]; a transaction of any other type comes back
    exactly as it was given, whatever its status. *)
Theorem ProcessTransactions_outcomes (txs : list Transaction.t) (r : mapref)
    (h : heap) :
  valid_ref h r ->
  exists l' stamped m',
    ProcessTransactions txs r h = Some ((map_at l', stamped), <[l' := m']> h) /\
    Forall2 outcome_of txs stamped.
Proof.
  intros Hvalid.
  destruct (ProcessTransactions_trace (fun pre spre _ => Forall2 outcome_of pre spre)
              txs r h Hvalid) as (stamped & m' & Hrun & Hout).
  - intros pre spre tx m st m1 l h0 _ Hs Hl Hone.
    apply Forall2_app; [assumption|constructor; [|constructor]].
    exact (step_status tx st l h0 m m1 Hl Hone).
  - constructor.
  - exists (fresh (dom h)), stamped, m'. split; [exact Hrun|assumption].
Qed.

(** X3.  An account that no transaction of the batch names as its account,
    and no transfer names as its destination, is in the returned mapping
    what it is in the caller's: present with the same fields, or absent. *)
Theorem ProcessTransactions_frame (txs : list Transaction.t) (r : mapref) (h : heap)
    (id : string) :
  valid_ref h r ->
  (forall tx, tx ∈ txs ->
     Transaction.AccountID tx <> id /\
     (Transaction.Type_ tx = "transfer" -> Transaction.DestinationAccountID tx <> id)) ->
  exists l' stamped m',
    ProcessTransactions txs r h = Some ((map_at l', stamped), <[l' := m']> h) /\
    m' !! id = table h r !! id.
Proof.
  intros Hvalid Hother.
  destruct (ProcessTransactions_invariant (fun m => m !! id = table h r !! id)
              txs r h Hvalid) as (stamped & m' & Hrun & Hsame & _).
  - intros tx m st m1 l h0 Hin Hl Hm Hone. rewrite <- Hm.
    destruct (Hother tx Hin) as [Hsrc Hdst].
    apply (step_frame tx st l h0 m m1 Hl Hone id); [congruence|].
    intros Hty. specialize (Hdst Hty). congruence.
  - reflexivity.
  - exists (fresh (dom h)), stamped, m'. split; assumption.
Qed.

(** X4.  [ProcessTransactions] never removes an account: every id of the
    caller's mapping is an id of the returned mapping.  When every
    transaction names an account of the caller's mapping, and every transfer
    a destination of it, the returned mapping has exactly the ids of the
    caller's: nothing is created. *)
Theorem ProcessTransactions_accounts (txs : list Transaction.t) (r : mapref) (h : heap) :
  valid_ref h r ->
  exists l' stamped m',
    ProcessTransactions txs r h = Some ((map_at l', stamped), <[l' := m']> h) /\
    dom (table h r) ⊆ dom m' /\
    ((forall tx, tx ∈ txs ->
        is_Some (table h r !! Transaction.AccountID tx) /\
        (Transaction.Type_ tx = "transfer" ->
           is_Some (table h r !! Transaction.DestinationAccountID tx))) ->
     dom m' = dom (table h r)).
Proof.
  intros Hvalid.
  destruct (ProcessTransactions_trace
              (fun pre _ m =>
                 dom (table h r) ⊆ dom m /\
                 ((forall tx, tx ∈ pre ->
                     is_Some (table h r !! Transaction.AccountID tx) /\
                     (Transaction.Type_ tx = "transfer" ->
                        is_Some (table h r !! Transaction.DestinationAccountID tx))) ->
                  dom m ⊆ dom (table h r)))
              txs r h Hvalid) as (stamped & m' & Hrun & Hsub & Hsup).
  - intros pre spre tx m st m1 l h0 _ [Hsub Hsup] Hl Hone. split.
    + intros id Hid. apply elem_of_dom.
      apply (step_keeps_accounts tx st l h0 m m1 Hl Hone id).
      apply elem_of_dom, Hsub, Hid.
    + intros Hknown id Hid. apply elem_of_dom in Hid.
      destruct (Hknown tx) as [Hsrc Hdst];
        [apply elem_of_app; right; apply list_elem_of_singleton; reflexivity|].
      destruct (step_new_accounts tx st l h0 m m1 Hl Hone id Hid)
        as [Hold|(_ & [->|[Hty ->]])].
      * apply Hsup; [|apply elem_of_dom; exact Hold].
        intros tx' Hin. apply Hknown, elem_of_app. left. exact Hin.
      * apply elem_of_dom. exact Hsrc.
      * apply elem_of_dom. exact (Hdst Hty).
  - split; [reflexivity|]. intros _. reflexivity.
  - exists (fresh (dom h)), stamped, m'. split; [exact Hrun|].
    split; [exact Hsub|]. intros Hknown.
    apply set_eq. intros id. split; [apply Hsup; exact Hknown|apply Hsub].
Qed.

(** X5.  The [ID] field of an account never changes.  An account that the
    returned mapping holds under an id the caller's mapping did not have was
    made from the zero [Account]: its [ID] field is empty, not the id it is
    filed under. *)
Theorem ProcessTransactions_keeps_ids (txs : list Transaction.t) (r : mapref)
    (h : heap) :
  valid_ref h r ->
  exists l' stamped m',
    ProcessTransactions txs r h = Some ((map_at l', stamped), <[l' := m']> h) /\
    (forall id, Account.ID (account_of m' id) = Account.ID (account_of (table h r) id)) /\
    (forall id a, table h r !! id = None -> m' !! id = Some a -> Account.ID a = "").
Proof.
  intros Hvalid.
  destruct (ProcessTransactions_invariant
              (fun m => forall id,
                 Account.ID (account_of m id) = Account.ID (account_of (table h r) id))
              txs r h Hvalid) as (stamped & m' & Hrun & Hids & _).
  - intros tx m st m1 l h0 _ Hl Hm Hone id. rewrite <- Hm.
    exact (step_keeps_ids tx st l h0 m m1 Hl Hone id).
  - reflexivity.
  - exists (fresh (dom h)), stamped, m'. split; [exact Hrun|]. split; [exact Hids|].
    intros id a Hnone Hsome. specialize (Hids id).
    rewrite Hnone, Hsome in Hids. exact Hids.
Qed.

(** X6.  After the run the [LastTransactionTime] of an account is the
    timestamp of the last transaction that came back [completed] with that
    account as its [AccountID], and the time the account had before when
    there is none: the destination of a transfer keeps its time. *)
Theorem ProcessTransactions_last_time (txs : list Transaction.t) (r : mapref)
    (h : heap) :
  valid_ref h r ->
  exists l' stamped m',
    ProcessTransactions txs r h = Some ((map_at l', stamped), <[l' := m']> h) /\
    forall id,
      Account.LastTransactionTime (account_of m' id)
        = last_completed id stamped
            (Account.LastTransactionTime (account_of (table h r) id)).
Proof.
  intros Hvalid.
  destruct (ProcessTransactions_trace
              (fun _ spre m => forall id,
                 Account.LastTransactionTime (account_of m id)
                   = last_completed id spre
                       (Account.LastTransactionTime (account_of (table h r) id)))
              txs r h Hvalid) as (stamped & m' & Hrun & Hlast).
  - intros pre spre tx m st m1 l h0 _ Hm Hl Hone id.
    rewrite last_completed_app, <- Hm. cbn [last_completed].
    rewrite (step_last_time tx st l h0 m m1 Hl Hone id).
    destruct (stamp_of_fields tx st (step_stamp tx st l h0 m m1 Hl Hone))
      as (_ & -> & _ & -> & _).
    reflexivity.
  - reflexivity.
  - exists (fresh (dom h)), stamped, m'. split; assumption.
Qed.

(** X7.  When no transaction of the batch comes back [completed], the
    returned mapping is equal to the caller's: a plain copy. *)
Theorem ProcessTransactions_nothing_completed (txs : list Transaction.t) (r : mapref)
    (h : heap) :
  valid_ref h r ->
  exists l' stamped m',
    ProcessTransactions txs r h = Some ((map_at l', stamped), <[l' := m']> h) /\
    (Forall (fun st => Transaction.Status st <> "completed") stamped ->
     m' = table h r).
Proof.
  intros Hvalid.
  destruct (ProcessTransactions_trace
              (fun _ spre m =>
                 Forall (fun st => Transaction.Status st <> "completed") spre ->
                 m = table h r)
              txs r h Hvalid) as (stamped & m' & Hrun & Hsame).
  - intros pre spre tx m st m1 l h0 _ Hm Hl Hone Hnone.
    apply Forall_app in Hnone as [Hpre Hst]. inversion_clear Hst as [|? ? Hnot _].
    rewrite (step_not_completed tx st l h0 m m1 Hl Hone Hnot). exact (Hm Hpre).
  - reflexivity.
  - exists (fresh (dom h)), stamped, m'. split; assumption.
Qed.

(** X8.  A credit is never refused, whatever its amount and whatever the
    account: the iteration stamps it [completed], adds the amount to the
    balance and to the daily credits of its account, sets the account's last
    transaction time, and leaves every other field and every other account
    as it was. *)
Theorem credit_always_completes (tx : Transaction.t) (l : positive) (h : heap)
    (m : gmap string Account.t) :
  h !! l = Some m ->
  Transaction.Type_ tx = "credit" ->
  let a := account_of m (Transaction.AccountID tx) in
  process_one tx (map_at l) h
    = Some ((Transaction.with_Status "completed" tx, map_at l),
            <[l := <[Transaction.AccountID tx :=
                       Account.mk (Account.ID a)
                         (Account.Balance a + Transaction.Amount tx)%float
                         (Account.DailyDebits a)
                         (Account.DailyCredits a + Transaction.Amount tx)%float
                         (Transaction.Timestamp tx)
                         (Account.OverdraftCount a)]> m]> h).
Proof.
  intros Hl Hty a.
  destruct (process_one_cases tx l h m Hl) as (st & m1 & Hone & Hcases).
  cbv zeta in Hcases. rewrite Hone.
  destruct Hcases as [(_ & -> & ->)|[(H & _)|[(H & _)|[(H & _)|[(H & _)|[(H & _)|(H & _)]]]]]];
    [reflexivity|congruence..].
Qed.

(** * Properties of validation *)

(** For a pending transaction the flag of [check] is [accepts], and the
    reason it leaves for a refused one is [refusal]. *)
Lemma check_decides (accounts : gmap string Account.t) (tx : Transaction.t) :
  Transaction.Status tx = "pending" ->
  (check accounts tx).1 = accepts accounts tx /\
  (accepts accounts tx = false -> (check accounts tx).2 = refusal accounts tx).
Proof.
  intros Hpending. unfold check, accepts, refusal. rewrite Hpending.
  change (String.eqb "pending" "rejected") with false.
  change (String.eqb "pending" "pending") with true.
  destruct (Transaction.Amount tx <=? 0)%float;
    destruct (has_account accounts (Transaction.AccountID tx));
    destruct (String.eqb (Transaction.Type_ tx) "transfer");
    destruct (String.eqb (Transaction.DestinationAccountID tx) "");
    destruct (has_account accounts (Transaction.DestinationAccountID tx));
    destruct (String.eqb (Transaction.DestinationAccountID tx)
                         (Transaction.AccountID tx));
    cbn; split; try reflexivity; intros H; try discriminate H; reflexivity.
Qed.

(** The loop appends to the two slices, in input order. *)
Lemma validate_loop_partition (accounts : gmap string Account.t)
    (txs valid invalid : list Transaction.t) :
  validate_loop accounts txs valid invalid
    = (valid ++ List.filter (accepts accounts) txs,
       invalid ++ map (fun tx => Transaction.with_ValidationMessage (refusal accounts tx) tx)
                      (List.filter (fun tx => negb (accepts accounts tx)) txs)).
Proof.
  revert valid invalid. induction txs as [|tx txs IH]; intros valid invalid.
  - cbn. now rewrite !app_nil_r.
  - cbn [validate_loop List.filter].
    destruct (String.eqb (Transaction.Status tx) "rejected") eqn:Hrej.
    { assert (Hacc : accepts accounts tx = false).
      { unfold accepts. apply String.eqb_eq in Hrej. rewrite Hrej. reflexivity. }
      assert (Href : refusal accounts tx = "Already rejected in input file")
        by (unfold refusal; now rewrite Hrej).
      rewrite IH, Hacc. cbn [negb map]. now rewrite Href, <- app_assoc. }
    destruct (String.eqb (Transaction.Status tx) "pending") eqn:Hpending; cbn [negb].
    + apply String.eqb_eq in Hpending.
      destruct (check_decides accounts tx Hpending) as [Hvalid Hreason].
      destruct (check accounts tx) as [ok reason]. cbn in Hvalid, Hreason.
      rewrite <- Hvalid. destruct ok; cbn [negb map]; rewrite IH.
      * now rewrite <- app_assoc.
      * rewrite (Hreason (eq_sym Hvalid)). now rewrite <- app_assoc.
    + assert (Hacc : accepts accounts tx = false)
        by (unfold accepts; now rewrite Hpending).
      assert (Href : refusal accounts tx = "Only pending transactions can be processed")
        by (unfold refusal; now rewrite Hrej, Hpending).
      rewrite IH, Hacc. cbn [negb map]. now rewrite Href, <- app_assoc.
Qed.

Lemma refusal_not_empty (accounts : gmap string Account.t) (tx : Transaction.t) :
  refusal accounts tx <> "".
Proof.
  unfold refusal.
  repeat match goal with
         | |- context [if ?b then _ else _] => destruct b
         end; discriminate.
Qed.

(** X9.  [ValidateTransactions] splits its input: the valid slice holds the
    transactions that pass every test, unchanged and in input order; the
    invalid slice holds the others, in input order, each with a validation
    message that is not empty; no transaction is lost or repeated.  When
    several tests fail the message is that of the test that comes last in
    the source: a failure of the destination of a transfer hides a missing
    account, which hides an amount that is not positive. *)
Theorem ValidateTransactions_partition (txs : list Transaction.t)
    (accounts : gmap string Account.t) :
  let valid := (ValidateTransactions txs accounts).1 in
  let invalid := (ValidateTransactions txs accounts).2 in
  valid = List.filter (accepts accounts) txs /\
  invalid = map (fun tx => Transaction.with_ValidationMessage (refusal accounts tx) tx)
                (List.filter (fun tx => negb (accepts accounts tx)) txs) /\
  (length valid + length invalid = length txs)%nat /\
  Forall (fun tx => Transaction.ValidationMessage tx <> "") invalid.
Proof.
  unfold ValidateTransactions. rewrite validate_loop_partition. cbn [fst snd app].
  split; [reflexivity|]. split; [reflexivity|]. split.
  - rewrite length_map. induction txs as [|tx txs IH]; [reflexivity|].
    cbn [List.filter]. destruct (accepts accounts tx); cbn; lia.
  - apply Forall_forall. intros inv Hin. apply list_elem_of_In, in_map_iff in Hin.
    destruct Hin as (tx & <- & _). apply refusal_not_empty.
Qed.

(** What [accepts] tests, as a proposition. *)
Lemma accepts_validated (accounts : gmap string Account.t) (tx : Transaction.t) :
  accepts accounts tx = true <->
  validated accounts tx /\
  (Transaction.Type_ tx = "transfer" -> Transaction.DestinationAccountID tx <> "").
Proof.
  unfold accepts, validated, has_account.
  destruct (String.eqb_spec (Transaction.Status tx) "pending") as [Hp|Hp];
    destruct (Transaction.Amount tx <=? 0)%float;
    destruct (accounts !! Transaction.AccountID tx) as [a|];
    destruct (String.eqb_spec (Transaction.Type_ tx) "transfer") as [Ht|Ht];
    destruct (String.eqb_spec (Transaction.DestinationAccountID tx) "") as [He|He];
    destruct (accounts !! Transaction.DestinationAccountID tx) as [d|];
    destruct (String.eqb_spec (Transaction.DestinationAccountID tx)
                              (Transaction.AccountID tx)) as [Hs|Hs];
    cbn; split;
    try discriminate;
    try (intros _; repeat split; eauto; try (intros; contradiction); fail);
    try (intros ((H1 & H2 & H3 & H4) & H5); exfalso;
         first [ contradiction
               | discriminate
               | apply is_Some_None in H3; contradiction
               | destruct (H4 Ht) as [H6 H7];
                 first [contradiction | apply is_Some_None in H7; contradiction]
               | apply (H5 Ht); assumption ]).
Qed.

(** X10.  A transaction is in the valid slice exactly when it is in the
    input, is pending, has an amount that is not [<= 0], names an existing
    account and, if it is a transfer, names a destination that is not empty,
    exists and differs from the source. *)
Theorem ValidateTransactions_sound_and_complete (txs : list Transaction.t)
    (accounts : gmap string Account.t) (tx : Transaction.t) :
  tx ∈ (ValidateTransactions txs accounts).1 <->
  tx ∈ txs /\ validated accounts tx /\
  (Transaction.Type_ tx = "transfer" -> Transaction.DestinationAccountID tx <> "").
Proof.
  unfold ValidateTransactions. rewrite validate_loop_partition. cbn [fst app].
  rewrite list_elem_of_In, filter_In, <- list_elem_of_In, accepts_validated.
  tauto.
Qed.

(** * Further properties of the anomaly detector *)

(** ** Large transactions *)

Lemma second_loop_no_large (entries : list (string * list Transaction.t)) :
  List.filter is_large (flat_map (fun e => check_rapid e.1 e.2 []) entries) = [].
Proof.
  induction entries as [|[id w] rest IH]; cbn [flat_map]; [reflexivity|].
  rewrite List.filter_app, IH, app_nil_r.
  apply filter_drops_all. intros an Han. unfold is_large.
  destruct (check_rapid_labels id w an Han) as [-> _]. reflexivity.
Qed.

(** X11.  Whatever the order in which the accounts are visited, the
    [large_transaction] anomalies of the result are, in input order, one for
    each completed transaction whose amount is at least 10000, of any type,
    with severity [medium], and none for any other transaction. *)
Theorem large_transaction_anomalies (txs : list Transaction.t)
    (accounts : gmap string Account.t) (result : list Anomaly.t) :
  DetectAnomalies_returns txs accounts result ->
  List.filter is_large result
    = flat_map (fun tx =>
        if is_completed tx
           && (LargeTransactionThreshold <=? Transaction.Amount tx)%float
        then [large_anomaly tx] else []) txs.
Proof.
  intros (entries & Hperm & ->).
  rewrite check_all_appends, inspect_all_appends, app_nil_l, List.filter_app.
  rewrite second_loop_no_large, app_nil_r.
  clear. induction txs as [|tx txs IH]; [reflexivity|].
  cbn [flat_map]. rewrite List.filter_app, IH. f_equal.
  unfold inspect, is_completed.
  destruct (String.eqb (Transaction.Status tx) "completed"); cbn; [|reflexivity].
  destruct (_ <=? _)%float, (_ <? 0)%float; reflexivity.
Qed.

(** ** Which transactions the detector reads *)

Lemma inspect_all_completed (accounts : gmap string Account.t)
    (txs : list Transaction.t) (anomalies : list Anomaly.t)
    (wba : gmap string (list Transaction.t)) :
  inspect_all accounts txs anomalies wba
    = inspect_all accounts (List.filter is_completed txs) anomalies wba.
Proof.
  revert anomalies wba. induction txs as [|tx txs IH]; intros anomalies wba;
    [reflexivity|].
  cbn [List.filter]. unfold is_completed at 1.
  destruct (String.eqb (Transaction.Status tx) "completed") eqn:Hc.
  - cbn [inspect_all]. destruct (inspect accounts tx anomalies wba). apply IH.
  - cbn [inspect_all]. unfold inspect. rewrite Hc. cbn [negb]. apply IH.
Qed.

(** X12.  Only the completed transactions matter to the detector: what it
    can return for a slice is what it can return for the completed
    transactions of that slice; with no completed transaction it returns no
    anomaly. *)
Theorem DetectAnomalies_reads_completed_only (txs : list Transaction.t)
    (accounts : gmap string Account.t) (result : list Anomaly.t) :
  (DetectAnomalies_returns txs accounts result <->
   DetectAnomalies_returns (List.filter is_completed txs) accounts result) /\
  (List.filter is_completed txs = [] ->
   DetectAnomalies_returns txs accounts result -> result = []).
Proof.
  unfold DetectAnomalies_returns. rewrite (inspect_all_completed accounts txs).
  split; [reflexivity|].
  intros -> (entries & Hperm & ->). cbn in Hperm |- *.
  rewrite map_to_list_empty in Hperm. apply Permutation_nil_r in Hperm.
  subst entries. reflexivity.
Qed.

Lemma scan_windows_index (id : string) (w : list Transaction.t)
    (indices : list nat) (an : Anomaly.t) :
  an ∈ scan_windows id w indices [] ->
  exists i, i ∈ indices /\ an = rapid_anomaly id w i.
Proof.
  induction indices as [|i rest IH]; cbn [scan_windows app]; [intros H; inversion H|].
  destruct (within_window w i).
  - intros H. apply list_elem_of_singleton in H. exists i. split; [left|exact H].
  - intros H. destruct (IH H) as (j & Hj & ->). exists j. split; [now right|reflexivity].
Qed.

Lemma check_rapid_cites (id : string) (w : list Transaction.t) (an : Anomaly.t) :
  an ∈ check_rapid id w [] ->
  exists tx, tx ∈ w /\
    Anomaly.TransactionID an = Transaction.ID tx /\
    Anomaly.AccountID an = id /\
    Anomaly.Timestamp an = Transaction.Timestamp tx.
Proof.
  unfold check_rapid. destruct (_ <=? _)%nat; [|intros H; inversion H].
  intros H. apply scan_windows_index in H as (i & Hi & ->).
  apply elem_of_seq in Hi.
  destruct (lookup_lt_is_Some_2 w i) as [tx Htx]; [lia|].
  exists tx. split; [eapply list_elem_of_lookup_2; exact Htx|].
  unfold rapid_anomaly, at_index. rewrite Htx. repeat split.
Qed.

Lemma inspect_cites (accounts : gmap string Account.t) (tx : Transaction.t)
    (an : Anomaly.t) :
  an ∈ (inspect accounts tx [] ∅).1 ->
  Transaction.Status tx = "completed" /\
  Anomaly.TransactionID an = Transaction.ID tx /\
  Anomaly.AccountID an = Transaction.AccountID tx /\
  Anomaly.Timestamp an = Transaction.Timestamp tx.
Proof.
  unfold inspect.
  destruct (String.eqb_spec (Transaction.Status tx) "completed") as [Hc|Hc]; cbn;
    [|intros H; inversion H].
  destruct (_ <=? _)%float, (_ <? _)%float; cbn; intros H;
    repeat (apply elem_of_cons in H as [->|H]; [repeat split; assumption|]);
    inversion H.
Qed.

(** X13.  Every anomaly of the result cites a completed transaction of the
    input: it carries the id, the account and the timestamp of that
    transaction. *)
Theorem anomalies_cite_completed_transactions (txs : list Transaction.t)
    (accounts : gmap string Account.t) (result : list Anomaly.t) :
  DetectAnomalies_returns txs accounts result ->
  Forall (fun an => exists tx,
            tx ∈ txs /\
            Transaction.Status tx = "completed" /\
            Anomaly.TransactionID an = Transaction.ID tx /\
            Anomaly.AccountID an = Transaction.AccountID tx /\
            Anomaly.Timestamp an = Transaction.Timestamp tx) result.
Proof.
  intros (entries & Hperm & ->). apply Forall_forall. intros an Han.
  rewrite check_all_appends, inspect_all_appends, app_nil_l in Han.
  apply elem_of_app in Han as [Han|Han].
  - apply list_elem_of_In, in_flat_map in Han as (tx & Hin & Han).
    exists tx. split; [apply list_elem_of_In; exact Hin|].
    apply inspect_cites with (accounts := accounts). apply list_elem_of_In. exact Han.
  - apply list_elem_of_In, in_flat_map in Han as ([id w] & Hin & Han).
    apply list_elem_of_In in Hin, Han. cbn [fst snd] in Han.
    rewrite Hperm in Hin. apply elem_of_map_to_list in Hin.
    rewrite inspect_all_tracks, lookup_empty in Hin.
    assert (Hw : w = List.filter (is_withdrawal_of id) txs).
    { destruct (List.filter (is_withdrawal_of id) txs); congruence. }
    destruct (check_rapid_cites id w an Han) as (tx & Htx & Hid & Hacc & Hts).
    rewrite Hw in Htx. apply list_elem_of_In, filter_In in Htx as [Htx Hwd].
    unfold is_withdrawal_of in Hwd.
    apply andb_prop in Hwd as [Hwd Hsrc]. apply andb_prop in Hwd as [Hc _].
    apply String.eqb_eq in Hc, Hsrc.
    exists tx. split; [apply list_elem_of_In; exact Htx|].
    split; [exact Hc|]. split; [exact Hid|]. split; [congruence|exact Hts].
Qed.

(** * Properties of the account summaries *)

(** ** The summary of one account

    The second loop updates the summaries through pointers; for one id, it
    is a fold of [touch] over the transactions. *)

Lemma tally_lookup (summaries : gmap string AccountSummary.t) (tx : Transaction.t)
    (id : string) :
  tally summaries tx !! id
    = (fun s => touch (has_summary summaries) id s tx) <$> summaries !! id.
Proof.
  unfold tally, touch, is_completed, has_summary.
  destruct (String.eqb (Transaction.Status tx) "completed"); cbn [negb andb];
    [|destruct (summaries !! id); reflexivity].
  destruct (summaries !! Transaction.AccountID tx) as [src|] eqn:Hsrc;
    [|destruct (summaries !! id); reflexivity].
  destruct (String.eqb (Transaction.Type_ tx) "transfer"); cbn [andb].
  - destruct (String.eqb_spec (Transaction.AccountID tx) id) as [Hs|Hs];
      destruct (String.eqb_spec (Transaction.DestinationAccountID tx) id) as [Hd|Hd].
    + rewrite Hd, <- Hs, lookup_insert_eq, lookup_insert_eq, Hsrc. reflexivity.
    + rewrite <- Hs.
      destruct (<[Transaction.AccountID tx := update_source tx src]> summaries
                  !! Transaction.DestinationAccountID tx);
        [rewrite lookup_insert_ne by congruence|];
        rewrite lookup_insert_eq, Hsrc; reflexivity.
    + rewrite Hd, lookup_insert_ne by exact Hs.
      destruct (summaries !! id) as [s|] eqn:Hid.
      * rewrite lookup_insert_eq. reflexivity.
      * rewrite lookup_insert_ne, Hid by exact Hs. reflexivity.
    + destruct (<[Transaction.AccountID tx := update_source tx src]> summaries
                  !! Transaction.DestinationAccountID tx);
        [rewrite lookup_insert_ne by exact Hd|];
        rewrite lookup_insert_ne by exact Hs;
        destruct (summaries !! id); reflexivity.
  - destruct (String.eqb_spec (Transaction.AccountID tx) id) as [Hs|Hs].
    + rewrite <- Hs, lookup_insert_eq, Hsrc. reflexivity.
    + rewrite lookup_insert_ne by exact Hs. destruct (summaries !! id); reflexivity.
Qed.

Lemma tally_has_summary (summaries : gmap string AccountSummary.t) (tx : Transaction.t)
    (id : string) :
  has_summary (tally summaries tx) id = has_summary summaries id.
Proof.
  unfold has_summary. rewrite tally_lookup.
  destruct (summaries !! id); reflexivity.
Qed.

Lemma fold_tally_lookup (known : string -> bool) (id : string)
    (txs : list Transaction.t) (summaries : gmap string AccountSummary.t) :
  (forall k, known k = has_summary summaries k) ->
  fold_left tally txs summaries !! id
    = (fun s => fold_left (touch known id) txs s) <$> summaries !! id.
Proof.
  revert summaries. induction txs as [|tx txs IH]; intros summaries Hknown.
  - cbn. destruct (summaries !! id); reflexivity.
  - cbn [fold_left]. rewrite IH.
    + rewrite tally_lookup. destruct (summaries !! id) as [s|]; [|reflexivity].
      cbn. do 2 f_equal. unfold touch. now rewrite Hknown.
    + intros k. now rewrite tally_has_summary.
Qed.

Lemma create_summaries_lookup (entries : list (string * Account.t)) (dateStr : string)
    (summaries : gmap string AccountSummary.t) (id : string) :
  NoDup (entries.*1) ->
  create_summaries entries dateStr summaries !! id
    = match (list_to_map entries : gmap string Account.t) !! id with
      | Some a => Some (new_summary id dateStr a)
      | None => summaries !! id
      end.
Proof.
  revert summaries. induction entries as [|[k a] rest IH]; intros summaries Hnd;
    [reflexivity|].
  apply NoDup_cons in Hnd as [Hk Hnd].
  cbn [create_summaries]. rewrite (IH _ Hnd), list_to_map_cons.
  destruct (String.eqb_spec k id) as [->|Hne].
  - rewrite !lookup_insert_eq.
    now rewrite (proj1 (not_elem_of_list_to_map rest id) Hk).
  - rewrite !lookup_insert_ne by exact Hne. reflexivity.
Qed.

(** The summary of every account, whatever the order of the first loop. *)
Lemma summaries_of_lookup (accounts : gmap string Account.t)
    (entries : list (string * Account.t)) (txs : list Transaction.t)
    (dateStr id : string) :
  entries ≡ₚ map_to_list accounts ->
  summaries_of entries txs dateStr !! id
    = (fun a => fold_left (touch (has_account accounts) id) txs
                  (new_summary id dateStr a)) <$> accounts !! id.
Proof.
  intros Hperm.
  assert (Hnd : NoDup (entries.*1)) by (rewrite Hperm; apply NoDup_fst_map_to_list).
  assert (Hcreate : forall k,
            create_summaries entries dateStr ∅ !! k
              = new_summary k dateStr <$> accounts !! k).
  { intros k. rewrite (create_summaries_lookup _ _ _ _ Hnd).
    rewrite (list_to_map_proper entries _ Hnd Hperm), list_to_map_to_list.
    destruct (accounts !! k); reflexivity. }
  unfold summaries_of.
  rewrite (fold_tally_lookup (has_account accounts) id).
  - rewrite Hcreate. destruct (accounts !! id); reflexivity.
  - intros k. unfold has_account, has_summary. rewrite Hcreate.
    destruct (accounts !! k); reflexivity.
Qed.

(** The fields that the second loop never writes. *)
Lemma touch_fixed (known : string -> bool) (id : string) (txs : list Transaction.t)
    (s : AccountSummary.t) :
  let s' := fold_left (touch known id) txs s in
  AccountSummary.AccountID s' = AccountSummary.AccountID s /\
  AccountSummary.Date s' = AccountSummary.Date s /\
  AccountSummary.ClosingBalance s' = AccountSummary.ClosingBalance s /\
  AccountSummary.OverdraftCount s' = AccountSummary.OverdraftCount s.
Proof.
  revert s. induction txs as [|tx txs IH]; intros s; [cbn; auto|].
  cbn [fold_left]. cbv zeta in IH |- *.
  destruct (IH (touch known id s tx)) as (-> & -> & -> & ->).
  unfold touch, update_source, update_destination.
  repeat match goal with
         | |- context [if ?b then _ else _] => destruct b
         end; cbn; auto.
Qed.

Lemma map_to_list_keys {A B} (m1 : gmap string A) (m2 : gmap string B) :
  (forall k, is_Some (m1 !! k) <-> is_Some (m2 !! k)) ->
  (map_to_list m1).*1 ≡ₚ (map_to_list m2).*1.
Proof.
  intros Hdom. apply NoDup_Permutation; [apply NoDup_fst_map_to_list..|].
  intros k. rewrite !list_elem_of_fmap. split.
  - intros ([k' a] & -> & Hin). apply elem_of_map_to_list in Hin.
    destruct (proj1 (Hdom k') (mk_is_Some _ _ Hin)) as [b Hb].
    exists (k', b). split; [reflexivity|]. apply elem_of_map_to_list. exact Hb.
  - intros ([k' b] & -> & Hin). apply elem_of_map_to_list in Hin.
    destruct (proj2 (Hdom k') (mk_is_Some _ _ Hin)) as [a Ha].
    exists (k', a). split; [reflexivity|]. apply elem_of_map_to_list. exact Ha.
Qed.

(** The summaries do not depend on the order of the first loop. *)
Lemma summaries_of_any_order (accounts : gmap string Account.t)
    (entries : list (string * Account.t)) (txs : list Transaction.t) (dateStr : string) :
  entries ≡ₚ map_to_list accounts ->
  summaries_of entries txs dateStr = summaries_of (map_to_list accounts) txs dateStr.
Proof.
  intros Hperm. apply map_eq. intros id.
  rewrite (summaries_of_lookup accounts entries) by exact Hperm.
  rewrite (summaries_of_lookup accounts (map_to_list accounts)) by reflexivity.
  reflexivity.
Qed.

(** Every summary of the result is the summary of an account, by key. *)
Lemma returned_summary (accounts : gmap string Account.t) (txs : list Transaction.t)
    (dateStr : string) (result : list AccountSummary.t) (s : AccountSummary.t) :
  GenerateAccountSummary_returns accounts txs dateStr result ->
  s ∈ result ->
  exists id a,
    accounts !! id = Some a /\
    s = fold_left (touch (has_account accounts) id) txs (new_summary id dateStr a).
Proof.
  intros (entries & visited & Hperm & Hvisited & ->) Hin.
  apply list_elem_of_fmap in Hin as ([id s'] & -> & Hin).
  rewrite Hvisited in Hin. apply elem_of_map_to_list in Hin.
  rewrite (summaries_of_lookup accounts entries) in Hin by exact Hperm.
  destruct (accounts !! id) as [a|] eqn:Ha; [|discriminate].
  injection Hin as <-. exists id, a. split; [exact Ha|reflexivity].
Qed.

(** The run in the order of [map_to_list] is one of the possible runs. *)
Lemma GenerateAccountSummary_is_a_run (accounts : gmap string Account.t)
    (txs : list Transaction.t) (dateStr : string) :
  GenerateAccountSummary_returns accounts txs dateStr
    (GenerateAccountSummary accounts txs dateStr).
Proof.
  exists (map_to_list accounts),
         (map_to_list (summaries_of (map_to_list accounts) txs dateStr)).
  split; [reflexivity|]. split; reflexivity.
Qed.

(** X14.  Whatever the order in which the two maps are visited,
    [GenerateAccountSummary] returns the same summaries up to their order;
    there is exactly one for each id of the mapping, filed under that id,
    with the date given and with the balance and the overdraft count of the
    account as closing balance and overdraft count. *)
Theorem GenerateAccountSummary_one_per_account (accounts : gmap string Account.t)
    (txs : list Transaction.t) (dateStr : string) (result : list AccountSummary.t) :
  GenerateAccountSummary_returns accounts txs dateStr result ->
  result ≡ₚ GenerateAccountSummary accounts txs dateStr /\
  map AccountSummary.AccountID result ≡ₚ (map_to_list accounts).*1 /\
  Forall (fun s => exists a,
            accounts !! AccountSummary.AccountID s = Some a /\
            AccountSummary.Date s = dateStr /\
            AccountSummary.ClosingBalance s = Account.Balance a /\
            AccountSummary.OverdraftCount s = Account.OverdraftCount a) result.
Proof.
  intros Hret. split; [|split].
  - destruct Hret as (entries & visited & Hperm & Hvisited & ->).
    unfold GenerateAccountSummary.
    rewrite Hvisited, (summaries_of_any_order accounts entries) by exact Hperm.
    reflexivity.
  - destruct Hret as (entries & visited & Hperm & Hvisited & ->).
    assert (Hkeys : map AccountSummary.AccountID visited.*2 = visited.*1).
    { assert (Hall : Forall (fun p => AccountSummary.AccountID p.2 = p.1) visited).
      { apply Forall_forall. intros [id s] Hin. rewrite Hvisited in Hin.
        apply elem_of_map_to_list in Hin.
        rewrite (summaries_of_lookup accounts entries) in Hin by exact Hperm.
        destruct (accounts !! id) as [a|]; [|discriminate]. injection Hin as <-.
        cbn. apply (touch_fixed (has_account accounts) id txs). }
      clear - Hall. induction Hall as [|[id s] rest Hid _ IH]; [reflexivity|].
      cbn in *. now rewrite Hid, IH. }
    rewrite Hkeys, Hvisited. apply map_to_list_keys. intros k.
    rewrite (summaries_of_lookup accounts entries) by exact Hperm.
    destruct (accounts !! k); cbn; split; intros [x Hx]; eauto; discriminate.
  - apply Forall_forall. intros s Hin.
    destruct (returned_summary accounts txs dateStr result s Hret Hin)
      as (id & a & Ha & ->).
    destruct (touch_fixed (has_account accounts) id txs (new_summary id dateStr a))
      as (-> & -> & -> & ->).
    exists a. cbn. auto.
Qed.

(** ** The transaction count *)

Lemma int_incr_wrap (z : Z) : int_incr (wrap_int z) = wrap_int (z + 1).
Proof.
  unfold int_incr, wrap_int. f_equal.
  replace ((z + 2 ^ 63) mod 2 ^ 64 - 2 ^ 63 + 1 + 2 ^ 63)
    with ((z + 2 ^ 63) mod 2 ^ 64 + 1) by lia.
  rewrite Z.add_mod_idemp_l by lia. f_equal. lia.
Qed.

Lemma touch_count (accounts : gmap string Account.t) (id : string)
    (txs : list Transaction.t) (s : AccountSummary.t) (n : nat) :
  has_account accounts id = true ->
  AccountSummary.TransactionCount s = wrap_int (Z.of_nat n) ->
  AccountSummary.TransactionCount (fold_left (touch (has_account accounts) id) txs s)
    = wrap_int (Z.of_nat (n + length (List.filter (counts_as_source id) txs)
                            + length (List.filter (counts_as_destination accounts id) txs))).
Proof.
  intros Hid. revert s n. induction txs as [|tx txs IH]; intros s n Hn.
  - cbn. rewrite !Nat.add_0_r. exact Hn.
  - cbn [fold_left List.filter].
    unfold counts_as_source at 1, counts_as_destination at 1.
    assert (Hsrc : forall s0,
              AccountSummary.TransactionCount (update_source tx s0)
                = int_incr (AccountSummary.TransactionCount s0)).
    { intros s0. unfold update_source.
      repeat match goal with
             | |- context [if ?b then _ else _] => destruct b
             end; reflexivity. }
    destruct (is_completed tx) eqn:Hc; cbn [andb].
    2:{ rewrite (IH _ n); [reflexivity|]. unfold touch. rewrite Hc. exact Hn. }
    destruct (String.eqb_spec (Transaction.AccountID tx) id) as [Hs|Hs].
    + rewrite Hs, Hid. cbn [andb].
      destruct (String.eqb (Transaction.Type_ tx) "transfer"
                && String.eqb (Transaction.DestinationAccountID tx) id) eqn:Hd.
      * rewrite (IH _ (S (S n))).
        { cbn [length]. do 2 f_equal. lia. }
        unfold touch. rewrite Hc, Hs, Hid, String.eqb_refl, Hd. cbn.
        rewrite Hsrc, Hn, !int_incr_wrap. f_equal. lia.
      * rewrite (IH _ (S n)).
        { cbn [length]. do 2 f_equal. lia. }
        unfold touch. rewrite Hc, Hs, Hid, String.eqb_refl, Hd. cbn [andb].
        rewrite Hsrc, Hn, int_incr_wrap. f_equal. lia.
    + destruct (has_account accounts (Transaction.AccountID tx)) eqn:Hk; cbn [andb].
      2:{ rewrite (IH _ n); [reflexivity|].
          unfold touch. rewrite Hc, Hk. exact Hn. }
      destruct (String.eqb (Transaction.Type_ tx) "transfer"
                && String.eqb (Transaction.DestinationAccountID tx) id) eqn:Hd.
      * rewrite (IH _ (S n)).
        { cbn [length]. do 2 f_equal. lia. }
        unfold touch. rewrite Hc, Hk. apply String.eqb_neq in Hs. rewrite Hs, Hd.
        cbn. rewrite Hn, int_incr_wrap. f_equal. lia.
      * rewrite (IH _ n); [reflexivity|].
        unfold touch. rewrite Hc, Hk. apply String.eqb_neq in Hs. rewrite Hs, Hd.
        exact Hn.
Qed.

(** X15.  The transaction count of a summary is the number of completed
    transactions that name the account as their account, of any type, plus
    the number of completed transfers that name it as destination and whose
    source account is in the mapping (as a 64-bit [int]).  A completed
    transfer from an account to itself counts twice. *)
Theorem summary_transaction_count (accounts : gmap string Account.t)
    (txs : list Transaction.t) (dateStr : string) (result : list AccountSummary.t) :
  GenerateAccountSummary_returns accounts txs dateStr result ->
  Forall (fun s =>
            AccountSummary.TransactionCount s
              = wrap_int (Z.of_nat
                  (length (List.filter (counts_as_source (AccountSummary.AccountID s))
                             txs)
                   + length (List.filter
                               (counts_as_destination accounts
                                  (AccountSummary.AccountID s)) txs)))) result.
Proof.
  intros Hret. apply Forall_forall. intros s Hin.
  destruct (returned_summary accounts txs dateStr result s Hret Hin)
    as (id & a & Ha & ->).
  destruct (touch_fixed (has_account accounts) id txs (new_summary id dateStr a))
    as (-> & _).
  cbn [new_summary AccountSummary.AccountID].
  rewrite (touch_count accounts id txs _ 0); [reflexivity| |reflexivity].
  unfold has_account. now rewrite Ha.
Qed.

(** ** An account the day did not touch *)

Lemma touch_elsewhere (known : string -> bool) (id : string) (txs : list Transaction.t)
    (s : AccountSummary.t) :
  (forall tx, tx ∈ txs -> Transaction.Status tx = "completed" ->
     Transaction.AccountID tx <> id /\
     (Transaction.Type_ tx = "transfer" -> Transaction.DestinationAccountID tx <> id)) ->
  fold_left (touch known id) txs s = s.
Proof.
  induction txs as [|tx txs IH]; intros Hother; [reflexivity|].
  cbn [fold_left].
  assert (Hsame : touch known id s tx = s).
  { unfold touch, is_completed.
    destruct (String.eqb_spec (Transaction.Status tx) "completed") as [Hc|_];
      [|reflexivity].
    destruct (Hother tx (list_elem_of_here _ _) Hc) as [Hsrc Hdst].
    destruct (known _); cbn [andb]; [|reflexivity].
    apply String.eqb_neq in Hsrc. rewrite Hsrc.
    destruct (String.eqb_spec (Transaction.Type_ tx) "transfer") as [Ht|_];
      [|reflexivity].
    specialize (Hdst Ht). apply String.eqb_neq in Hdst. now rewrite Hdst. }
  rewrite Hsame. apply IH. intros tx' Hin. apply Hother. now right.
Qed.

(** X24.  The summary of an account that no completed transaction names,
    as its account or as the destination of a transfer, shows no activity:
    the opening balance is the closing balance, the totals are zero and the
    transaction count is zero. *)
Theorem summary_of_untouched_account (accounts : gmap string Account.t)
    (txs : list Transaction.t) (dateStr : string) (result : list AccountSummary.t) :
  GenerateAccountSummary_returns accounts txs dateStr result ->
  Forall (fun s =>
            (forall tx, tx ∈ txs -> Transaction.Status tx = "completed" ->
               Transaction.AccountID tx <> AccountSummary.AccountID s /\
               (Transaction.Type_ tx = "transfer" ->
                  Transaction.DestinationAccountID tx <> AccountSummary.AccountID s)) ->
            AccountSummary.OpeningBalance s = AccountSummary.ClosingBalance s /\
            AccountSummary.TotalDebits s = 0%float /\
            AccountSummary.TotalCredits s = 0%float /\
            AccountSummary.TransactionCount s = 0) result.
Proof.
  intros Hret. apply Forall_forall. intros s Hin.
  destruct (returned_summary accounts txs dateStr result s Hret Hin)
    as (id & a & Ha & ->).
  destruct (touch_fixed (has_account accounts) id txs (new_summary id dateStr a))
    as (-> & _).
  cbn [new_summary AccountSummary.AccountID]. intros Hother.
  rewrite (touch_elsewhere (has_account accounts) id txs _ Hother).
  repeat split.
Qed.

(** ** The daily counters and the summaries *)

(** What one iteration of the ledger engine adds to the daily counters,
    when a transfer does not go from an account to itself. *)
Lemma step_counters (tx stamped : Transaction.t) (l : positive) (h : heap)
    (m m' : gmap string Account.t) (id : string) :
  h !! l = Some m ->
  process_one tx (map_at l) h = Some ((stamped, map_at l), <[l := m']> h) ->
  (Transaction.Type_ tx = "transfer" ->
   Transaction.DestinationAccountID tx <> Transaction.AccountID tx) ->
  Account.DailyDebits (account_of m' id)
    = debits_step id (Account.DailyDebits (account_of m id)) stamped /\
  Account.DailyCredits (account_of m' id)
    = credits_step id (Account.DailyCredits (account_of m id)) stamped.
Proof.
  intros Hl Hrun Hself.
  destruct (stamp_of_fields tx stamped (step_stamp tx stamped l h m m' Hl Hrun))
    as (_ & Hsrc & Hdst & _ & Hamt & Hty' & _).
  unfold debits_step, credits_step, is_completed. rewrite Hsrc, Hdst, Hamt, Hty'.
  clear Hsrc Hdst Hamt Hty'.
  invert_step Hl Hrun.
  split_cases.
  all: try rewrite Hty.
  all: cbn [Transaction.Status Transaction.with_Status Transaction.with_ProcessingMessage].
  all: cbn [String.eqb Ascii.eqb Bool.eqb andb orb].
  all: rewrite ?andb_true_r, ?andb_false_r, ?orb_false_r.
  all: try (split; reflexivity).
  - destruct (String.eqb_spec (Transaction.AccountID tx) id) as [<-|Hne];
      [rewrite lookup_insert_eq|rewrite lookup_insert_ne by exact Hne];
      split; reflexivity.
  - destruct (String.eqb_spec (Transaction.AccountID tx) id) as [<-|Hne];
      [rewrite lookup_insert_eq|rewrite lookup_insert_ne by exact Hne];
      split; reflexivity.
  - specialize (Hself Hty).
    destruct (String.eqb_spec (Transaction.AccountID tx) id) as [<-|Hne].
    + rewrite lookup_insert_eq, lookup_insert_ne, lookup_insert_eq by exact Hself.
      apply String.eqb_neq in Hself. rewrite Hself. split; reflexivity.
    + rewrite lookup_insert_ne by exact Hne.
      destruct (String.eqb_spec (Transaction.DestinationAccountID tx) id) as [<-|Hne'].
      * rewrite lookup_insert_eq. split; reflexivity.
      * rewrite !lookup_insert_ne by assumption. split; reflexivity.
  - apply String.eqb_neq in Hnc, Hnd, Hnt. rewrite Hnc, Hnd, Hnt.
    cbn [andb orb]. rewrite !andb_false_r.
    destruct (String.eqb (Transaction.Status tx) "completed"); [|split; reflexivity].
    destruct (String.eqb_spec (Transaction.AccountID tx) id) as [<-|Hne];
      [rewrite lookup_insert_eq|rewrite lookup_insert_ne by exact Hne];
      split; reflexivity.
Qed.

Lemma step_completed_source (tx stamped : Transaction.t) (l : positive) (h : heap)
    (m m' : gmap string Account.t) :
  h !! l = Some m ->
  process_one tx (map_at l) h = Some ((stamped, map_at l), <[l := m']> h) ->
  Transaction.Status stamped = "completed" ->
  is_Some (m' !! Transaction.AccountID tx).
Proof.
  intros Hl Hrun. invert_step Hl Hrun.
  split_cases; cbn; intros Hc; try discriminate Hc;
    try (rewrite lookup_insert_eq; eauto; fail).
  rewrite Hc. cbn. rewrite lookup_insert_eq. eauto.
Qed.

(** After the run the daily counters of every account are the sums, in
    order, of the amounts of the completed transactions that debit or
    credit it; the account of every completed transaction exists. *)
Lemma ProcessTransactions_counters (txs : list Transaction.t) (r : mapref) (h : heap) :
  valid_ref h r ->
  (forall tx, tx ∈ txs -> Transaction.Type_ tx = "transfer" ->
              Transaction.DestinationAccountID tx <> Transaction.AccountID tx) ->
  exists stamped m',
    ProcessTransactions txs r h
      = Some ((map_at (fresh (dom h)), stamped), <[fresh (dom h) := m']> h) /\
    (forall id,
       Account.DailyDebits (account_of m' id)
         = fold_left (debits_step id) stamped
             (Account.DailyDebits (account_of (table h r) id)) /\
       Account.DailyCredits (account_of m' id)
         = fold_left (credits_step id) stamped
             (Account.DailyCredits (account_of (table h r) id))) /\
    Forall (fun st => is_completed st = true ->
                      has_account m' (Transaction.AccountID st) = true) stamped.
Proof.
  intros Hvalid Hself.
  destruct (ProcessTransactions_trace
              (fun _ spre m =>
                 (forall id,
                    Account.DailyDebits (account_of m id)
                      = fold_left (debits_step id) spre
                          (Account.DailyDebits (account_of (table h r) id)) /\
                    Account.DailyCredits (account_of m id)
                      = fold_left (credits_step id) spre
                          (Account.DailyCredits (account_of (table h r) id))) /\
                 Forall (fun st => is_completed st = true ->
                                   has_account m (Transaction.AccountID st) = true) spre)
              txs r h Hvalid) as (stamped & m' & Hrun & Hcount & Hknown).
  - intros pre spre tx m st m1 l h0 Hin [Hcount Hknown] Hl Hone. split.
    + intros id. rewrite !fold_left_app. cbn [fold_left].
      destruct (Hcount id) as [<- <-].
      exact (step_counters tx st l h0 m m1 id Hl Hone (Hself tx Hin)).
    + apply Forall_app. split.
      * eapply Forall_impl; [exact Hknown|]. intros st' Hst' Hc. cbn in Hst'.
        specialize (Hst' Hc). unfold has_account in *.
        destruct (m !! Transaction.AccountID st') as [a|] eqn:Ha; [|discriminate].
        destruct (step_keeps_accounts tx st l h0 m m1 Hl Hone
                    (Transaction.AccountID st') (mk_is_Some _ _ Ha)) as [a' ->].
        reflexivity.
      * constructor; [|constructor]. intros Hc. apply String.eqb_eq in Hc.
        destruct (stamp_of_fields tx st (step_stamp tx st l h0 m m1 Hl Hone))
          as (_ & -> & _).
        destruct (step_completed_source tx st l h0 m m1 Hl Hone Hc) as [a Ha].
        unfold has_account. now rewrite Ha.
  - split; [intros id; split; reflexivity|constructor].
  - exists stamped, m'. split; [exact Hrun|]. split; assumption.
Qed.

(** The totals of a summary are the same sums, when the account of every
    completed transaction has a summary. *)
Lemma touch_totals (known : string -> bool) (id : string) (txs : list Transaction.t)
    (s : AccountSummary.t) :
  Forall (fun tx => is_completed tx = true ->
                    known (Transaction.AccountID tx) = true) txs ->
  AccountSummary.TotalDebits (fold_left (touch known id) txs s)
    = fold_left (debits_step id) txs (AccountSummary.TotalDebits s) /\
  AccountSummary.TotalCredits (fold_left (touch known id) txs s)
    = fold_left (credits_step id) txs (AccountSummary.TotalCredits s).
Proof.
  intros Hknown. revert s. induction Hknown as [|tx txs Hk _ IH]; intros s;
    [split; reflexivity|].
  cbn [fold_left]. destruct (IH (touch known id s tx)) as [-> ->].
  assert (Hstep :
            AccountSummary.TotalDebits (touch known id s tx)
              = debits_step id (AccountSummary.TotalDebits s) tx /\
            AccountSummary.TotalCredits (touch known id s tx)
              = credits_step id (AccountSummary.TotalCredits s) tx).
  { unfold touch, debits_step, credits_step, update_source, update_destination.
    destruct (is_completed tx); cbn [andb]; [|split; reflexivity].
    rewrite (Hk eq_refl).
    destruct (String.eqb (Transaction.AccountID tx) id);
      destruct (String.eqb_spec (Transaction.Type_ tx) "credit") as [Hc|Hc];
      destruct (String.eqb_spec (Transaction.Type_ tx) "debit") as [Hd|Hd];
      destruct (String.eqb_spec (Transaction.Type_ tx) "transfer") as [Ht|Ht];
      destruct (String.eqb (Transaction.DestinationAccountID tx) id);
      try congruence; cbn; split; reflexivity. }
  destruct Hstep as [-> ->]. split; reflexivity.
Qed.

(** X16.  The summaries agree with the ledger.  When the accounts start the
    day with their daily counters at zero and no transfer of the batch goes
    from an account to itself, then for the mapping and the transactions
    that [ProcessTransactions] returns, every summary reports as total
    debits and total credits exactly the daily debits and the daily credits
    of its account: the same binary64 numbers. *)
Theorem summary_totals_match_ledger (txs : list Transaction.t) (r : mapref) (h : heap)
    (dateStr : string) :
  valid_ref h r ->
  (forall id a, table h r !! id = Some a ->
                Account.DailyDebits a = 0%float /\ Account.DailyCredits a = 0%float) ->
  (forall tx, tx ∈ txs -> Transaction.Type_ tx = "transfer" ->
              Transaction.DestinationAccountID tx <> Transaction.AccountID tx) ->
  exists l' stamped m',
    ProcessTransactions txs r h = Some ((map_at l', stamped), <[l' := m']> h) /\
    forall result,
      GenerateAccountSummary_returns m' stamped dateStr result ->
      Forall (fun s =>
                AccountSummary.TotalDebits s
                  = Account.DailyDebits (account_of m' (AccountSummary.AccountID s)) /\
                AccountSummary.TotalCredits s
                  = Account.DailyCredits (account_of m' (AccountSummary.AccountID s)))
             result.
Proof.
  intros Hvalid Hzero Hself.
  destruct (ProcessTransactions_counters txs r h Hvalid Hself)
    as (stamped & m' & Hrun & Hcount & Hknown).
  exists (fresh (dom h)), stamped, m'. split; [exact Hrun|].
  intros result Hret. apply Forall_forall. intros s Hin.
  destruct (returned_summary m' stamped dateStr result s Hret Hin)
    as (id & a & Ha & ->).
  destruct (touch_fixed (has_account m') id stamped (new_summary id dateStr a))
    as (-> & _).
  destruct (touch_totals (has_account m') id stamped (new_summary id dateStr a) Hknown)
    as [-> ->].
  cbn [new_summary AccountSummary.AccountID AccountSummary.TotalDebits
       AccountSummary.TotalCredits].
  destruct (Hcount id) as [-> ->].
  assert (Hstart : Account.DailyDebits (account_of (table h r) id) = 0%float /\
                   Account.DailyCredits (account_of (table h r) id) = 0%float).
  { destruct (table h r !! id) as [a0|] eqn:Ha0; [exact (Hzero id a0 Ha0)|].
    split; reflexivity. }
  destruct Hstart as [-> ->]. split; reflexivity.
Qed.

(** ** The opening balance *)

(** X25.  The opening balance of a summary is not the balance the account
    had: it is computed back from the closing balance.  After a day with a
    single credit of [a] on an account that held [b], the summary of the
    account reports [(b + a) - a] in binary64 arithmetic as opening balance,
    [b + a] as closing balance and [0 + a] as total credits. *)
Theorem opening_balance_is_reconstructed (tx : Transaction.t) (l : positive) (h : heap)
    (m : gmap string Account.t) (dateStr : string) :
  h !! l = Some m ->
  Transaction.Type_ tx = "credit" ->
  let b := Account.Balance (account_of m (Transaction.AccountID tx)) in
  let a := Transaction.Amount tx in
  exists l' stamped m',
    ProcessTransactions [tx] (map_at l) h = Some ((map_at l', stamped), <[l' := m']> h) /\
    forall result,
      GenerateAccountSummary_returns m' stamped dateStr result ->
      exists s,
        s ∈ result /\
        AccountSummary.AccountID s = Transaction.AccountID tx /\
        AccountSummary.OpeningBalance s = (b + a - a)%float /\
        AccountSummary.ClosingBalance s = (b + a)%float /\
        AccountSummary.TotalCredits s = (0 + a)%float.
Proof.
  intros Hl Hcredit b a.
  assert (Href : valid_ref h (map_at l)) by (cbn; eauto).
  destruct (ProcessTransactions_runs_loop [tx] (map_at l) h Href)
    as (stamped & m' & Hloop & Hrun).
  rewrite (table_at _ _ _ Hl) in Hloop.
  set (l' := fresh (dom h)) in *. set (h1 := <[l' := m]> h) in *.
  assert (Hl1 : h1 !! l' = Some m) by apply lookup_insert_eq.
  destruct (process_one_cases tx l' h1 m Hl1) as (st & m1 & Hone & Hcases).
  rewrite (process_loop_step tx [] l' h1 _ st Hone) in Hloop.
  cbn in Hloop. unfold ret in Hloop. injection Hloop as <- Hheap.
  assert (Hm1 : m1 = m').
  { apply (f_equal (fun x => x !! l')) in Hheap. unfold h1 in Hheap.
    rewrite insert_insert_eq, !lookup_insert_eq in Hheap. congruence. }
  subst m1. clear Hheap. cbv zeta in Hcases.
  destruct Hcases as [(_ & -> & ->)|[(H & _)|[(H & _)|[(H & _)|[(H & _)|[(H & _)|(H & _)]]]]]];
    try congruence.
  do 3 eexists. split; [exact Hrun|].
  intros result (entries & visited & Hperm & Hvisited & ->).
  pose proof (summaries_of_lookup _ entries [Transaction.with_Status "completed" tx]
                dateStr (Transaction.AccountID tx) Hperm) as Hsum.
  rewrite lookup_insert_eq in Hsum. cbn [fmap option_fmap option_map fold_left] in Hsum.
  eexists. split.
  - apply list_elem_of_fmap. eexists (_, _). split; [reflexivity|].
    rewrite Hvisited. apply elem_of_map_to_list. exact Hsum.
  - unfold touch, is_completed, has_account, update_source.
    cbn [Transaction.Status Transaction.with_Status Transaction.AccountID
         Transaction.Type_ Transaction.Amount Transaction.DestinationAccountID].
    rewrite lookup_insert_eq, Hcredit, !String.eqb_refl.
    repeat split.
Qed.

(** * Properties of the loaders *)

(** ** [LoadAccounts] *)

Section LoaderFacts.
Context `{lib : Stdlib}.

Lemma account_of_record_fresh (record : list string) (i : nat) (a : Account.t) :
  account_of_record record i = inr a ->
  (2 <= length record)%nat /\ fresh_account (nth 0 record "") a /\
  strconv_ParseFloat (nth 1 record "") = inr (Account.Balance a).
Proof.
  unfold account_of_record.
  destruct (Nat.ltb_spec (length record) 2) as [Hlen|Hlen]; [discriminate|].
  destruct (strconv_ParseFloat (nth 1 record "")) as [err|balance]; [discriminate|].
  intros Ha. injection Ha as <-. split; [exact Hlen|].
  destruct (2 <? length record)%nat; [destruct (strconv_Atoi _)|];
    repeat split; reflexivity.
Qed.

(** The line number only shows in the error. *)
Lemma account_of_record_line (record : list string) (i j : nat) (a : Account.t) :
  account_of_record record i = inr a -> account_of_record record j = inr a.
Proof.
  unfold account_of_record.
  destruct (length record <? 2)%nat; [discriminate|].
  destruct (strconv_ParseFloat (nth 1 record "")); [discriminate|]. auto.
Qed.

(** The account the loop files under [id]. *)
Lemma load_accounts_lookup (rows : list (list string)) (i : nat)
    (accounts result : gmap string Account.t) (id : string) :
  load_accounts rows (S i) accounts = inr result ->
  result !! id
    = match deciding_row id rows with
      | Some row => match account_of_record row 0 with
                    | inr a => Some a
                    | inl _ => None
                    end
      | None => accounts !! id
      end.
Proof.
  revert i accounts. induction rows as [|row rows IH]; intros i accounts.
  - cbn. intros H. injection H as <-. reflexivity.
  - cbn [load_accounts Nat.eqb].
    destruct (account_of_record row (S i)) as [err|a] eqn:Ha; [discriminate|].
    intros Hload. rewrite (IH _ _ Hload). unfold deciding_row. cbn [List.filter].
    destruct (String.eqb_spec (nth 0 row "") id) as [Hid|Hid].
    + destruct (List.filter _ rows) as [|row' rest] eqn:Hf.
      * cbn. rewrite (account_of_record_line _ _ 0 _ Ha), Hid, lookup_insert_eq.
        reflexivity.
      * rewrite last_cons_cons. destruct (last (row' :: rest)) eqn:Hlast; [reflexivity|].
        apply last_None in Hlast. discriminate.
    + destruct (last (List.filter _ rows)); [reflexivity|].
      rewrite lookup_insert_ne by exact Hid. reflexivity.
Qed.

Lemma load_accounts_rows (rows : list (list string)) (i : nat)
    (accounts result : gmap string Account.t) (row : list string) :
  load_accounts rows (S i) accounts = inr result ->
  row ∈ rows ->
  exists a, account_of_record row 0 = inr a.
Proof.
  revert i accounts. induction rows as [|r rows IH]; intros i accounts Hload Hin;
    [inversion Hin|].
  cbn [load_accounts Nat.eqb] in Hload.
  destruct (account_of_record r (S i)) as [err|a] eqn:Ha; [discriminate|].
  apply elem_of_cons in Hin as [->|Hin].
  - exists a. exact (account_of_record_line _ _ 0 _ Ha).
  - exact (IH _ _ Hload Hin).
Qed.

Lemma LoadAccounts_loop (filePath : string) (accounts : gmap string Account.t) :
  LoadAccounts filePath = inr accounts ->
  exists f header rows,
    os_Open filePath = inr f /\
    csv_ReadAll f = inr (header :: rows) /\
    rows <> [] /\
    load_accounts rows 1 ∅ = inr accounts.
Proof.
  unfold LoadAccounts.
  destruct (os_Open filePath) as [err|f] eqn:Hopen; [discriminate|].
  destruct (csv_ReadAll f) as [err|records] eqn:Hread; [discriminate|].
  destruct (Nat.ltb_spec (length records) 2) as [Hlen|Hlen]; [discriminate|].
  destruct records as [|header rows]; [cbn in Hlen; lia|].
  cbn [load_accounts Nat.eqb]. intros Hload.
  exists f, header, rows. split; [reflexivity|]. split; [exact Hread|].
  split; [destruct rows; [cbn in Hlen; lia|discriminate]|exact Hload].
Qed.

Lemma load_accounts_decided (rows : list (list string))
    (accounts : gmap string Account.t) (id : string) (a : Account.t) :
  load_accounts rows 1 ∅ = inr accounts ->
  accounts !! id = Some a <->
  exists row, deciding_row id rows = Some row /\ account_of_record row 0 = inr a.
Proof.
  intros Hload. rewrite (load_accounts_lookup rows 0 ∅ accounts id Hload).
  destruct (deciding_row id rows) as [row|].
  - destruct (account_of_record row 0) as [err|a'] eqn:Ha'; split.
    + discriminate.
    + intros (row' & Hrow & Ha). congruence.
    + intros H. injection H as ->. eauto.
    + intros (row' & Hrow & Ha). congruence.
  - rewrite lookup_empty. split; [discriminate|]. intros (row & Hrow & _).
    discriminate.
Qed.

(** The accounts that [LoadAccounts] returns are filed under their own ids
    and start the day with their counters at zero. *)
Lemma LoadAccounts_fresh (filePath : string) (accounts : gmap string Account.t) :
  LoadAccounts filePath = inr accounts ->
  forall id a, accounts !! id = Some a -> fresh_account id a.
Proof.
  intros Hacc id a Hin.
  destruct (LoadAccounts_loop filePath accounts Hacc) as (f & header & rows & _ & _ & _ & Hload).
  apply (load_accounts_decided rows accounts id a Hload) in Hin as (row & Hrow & Ha).
  apply account_of_record_fresh in Ha as (_ & Hfresh & _).
  unfold deciding_row in Hrow. apply last_Some_elem_of, list_elem_of_In in Hrow.
  apply filter_In in Hrow as [_ Hid]. apply String.eqb_eq in Hid.
  now rewrite <- Hid.
Qed.

(** X17.  When [LoadAccounts] succeeds, the file could be opened and read
    and holds a header and at least one data row; the mapping is not empty;
    the account filed under an id is the one read from the last row whose
    first field is that id; and every account carries the id it is filed
    under, daily counters at zero and no last transaction time. *)
Theorem LoadAccounts_accounts (filePath : string) (accounts : gmap string Account.t) :
  LoadAccounts filePath = inr accounts ->
  exists f header rows,
    os_Open filePath = inr f /\
    csv_ReadAll f = inr (header :: rows) /\
    rows <> [] /\
    accounts <> ∅ /\
    (forall id a, accounts !! id = Some a <->
       exists row, deciding_row id rows = Some row /\ account_of_record row 0 = inr a) /\
    (forall id a, accounts !! id = Some a -> fresh_account id a).
Proof.
  intros Hacc.
  destruct (LoadAccounts_loop filePath accounts Hacc)
    as (f & header & rows & Hopen & Hread & Hrows & Hload).
  exists f, header, rows.
  split; [exact Hopen|]. split; [exact Hread|]. split; [exact Hrows|].
  split; [|split; [intros id a; exact (load_accounts_decided rows accounts id a Hload)
                  |exact (LoadAccounts_fresh filePath accounts Hacc)]].
  destruct (last rows) as [row|] eqn:Hlast;
    [|apply last_None in Hlast; contradiction].
  intros Hempty.
  pose proof (load_accounts_lookup rows 0 ∅ accounts (nth 0 row "") Hload) as Hrow.
  assert (Hdec : exists row', deciding_row (nth 0 row "") rows = Some row' /\
                              row' ∈ rows).
  { unfold deciding_row.
    destruct (last (List.filter (fun r => String.eqb (nth 0 r "") (nth 0 row "")) rows))
      as [row'|] eqn:Hl'.
    - exists row'. split; [reflexivity|].
      apply last_Some_elem_of, list_elem_of_In, filter_In in Hl' as [Hin _].
      apply list_elem_of_In. exact Hin.
    - apply last_None in Hl'. apply last_Some_elem_of, list_elem_of_In in Hlast.
      assert (Hin : In row (List.filter
                (fun r => String.eqb (nth 0 r "") (nth 0 row "")) rows))
        by (apply filter_In; split; [exact Hlast|apply String.eqb_refl]).
      rewrite Hl' in Hin. destruct Hin. }
  destruct Hdec as (row' & Hdec & Hin). rewrite Hdec, Hempty, lookup_empty in Hrow.
  assert (Hok : exists a, account_of_record row' 0 = inr a)
    by exact (load_accounts_rows rows 0 ∅ accounts row' Hload Hin).
  destruct Hok as [a Ha]. rewrite Ha in Hrow. discriminate.
Qed.

Lemma load_accounts_stops_at_bad_row (good rest : list (list string)) (bad : list string)
    (i : nat) (accounts : gmap string Account.t) (e : error) :
  Forall (fun row => exists a, account_of_record row 0 = inr a) good ->
  account_of_record bad (S i + length good) = inl e ->
  load_accounts (good ++ bad :: rest) (S i) accounts = inl e.
Proof.
  intros Hgood. revert i accounts.
  induction Hgood as [|row good [a Ha] _ IH]; intros i accounts Hbad.
  - cbn [app load_accounts Nat.eqb]. cbn [length] in Hbad.
    rewrite Nat.add_0_r in Hbad. now rewrite Hbad.
  - cbn [app load_accounts Nat.eqb].
    rewrite (account_of_record_line _ _ (S i) _ Ha).
    apply IH. cbn [length] in Hbad. now rewrite Nat.add_succ_r in Hbad.
Qed.

(** X18.  [LoadAccounts] stops at the first data row it cannot read: it
    returns the error of that row and no account at all, and the line the
    error gives is the position of the row in the file, the header being
    line 1. *)
Theorem LoadAccounts_first_bad_row (filePath : string) (f : file)
    (header bad : list string) (good rest : list (list string)) (e : error) :
  os_Open filePath = inr f ->
  csv_ReadAll f = inr (header :: good ++ bad :: rest) ->
  Forall (fun row => exists a, account_of_record row 0 = inr a) good ->
  account_of_record bad (length good + 1) = inl e ->
  LoadAccounts filePath = inl e /\
  line e = Some (Z.of_nat (length good) + 2).
Proof.
  intros Hopen Hread Hgood Hbad. split.
  - unfold LoadAccounts. rewrite Hopen, Hread.
    destruct (Nat.ltb_spec (length (header :: good ++ bad :: rest)) 2) as [Hlen|_].
    { cbn [length] in Hlen. rewrite length_app in Hlen. cbn [length] in Hlen. lia. }
    cbn [load_accounts Nat.eqb].
    apply load_accounts_stops_at_bad_row; [exact Hgood|].
    now rewrite Nat.add_comm in Hbad.
  - unfold account_of_record in Hbad.
    destruct (length bad <? 2)%nat.
    + injection Hbad as <-. cbn. f_equal. lia.
    + destruct (strconv_ParseFloat (nth 1 bad "")); [|discriminate].
      injection Hbad as <-. cbn. f_equal. lia.
Qed.

(** ** [LoadTransactions] and [parseTransaction] *)

(** On a record of six fields or more [parseTransaction] does not panic. *)
Lemma parseTransaction_returns (record : list string) (lineNum : Z) :
  (6 <= length record)%nat ->
  exists tx err, parseTransaction record lineNum = Some (tx, err).
Proof.
  intros Hlen.
  destruct record as [|f0 [|f1 [|f2 [|f3 [|f4 [|f5 more]]]]]];
    try (cbn in Hlen; lia).
  unfold parseTransaction. cbn [lookup list_lookup mbind option_bind].
  cbn.
  destruct (time_Parse_RFC3339 f2); [eauto|].
  destruct (strconv_ParseFloat f3); [eauto|].
  destruct (negb _ && negb _ && negb _); [eauto|].
  destruct (negb _ && negb _ && negb _); [eauto|].
  destruct (String.eqb f4 "transfer"); cbn [andb]; [|eauto].
  destruct more as [|f6 [|f7 more]]; cbn; eauto.
Qed.

Lemma three_way (s a b c : string) :
  negb (String.eqb s a) && negb (String.eqb s b) && negb (String.eqb s c) = false ->
  s = a \/ s = b \/ s = c.
Proof.
  destruct (String.eqb_spec s a), (String.eqb_spec s b), (String.eqb_spec s c);
    cbn; intros H; auto; discriminate.
Qed.

Lemma parseTransaction_parsed (record : list string) (lineNum : Z) (tx : Transaction.t) :
  parseTransaction record lineNum = Some (tx, None) -> parsed_from record tx.
Proof.
  unfold parseTransaction, parsed_from.
  destruct record as [|f0 [|f1 [|f2 [|f3 [|f4 [|f5 more]]]]]];
    cbn [lookup list_lookup mbind option_bind]; try discriminate.
  - cbn. destruct (time_Parse_RFC3339 f2); discriminate.
  - cbn. destruct (time_Parse_RFC3339 f2); [discriminate|].
    destruct (strconv_ParseFloat f3); discriminate.
  - cbn. destruct (time_Parse_RFC3339 f2); [discriminate|].
    destruct (strconv_ParseFloat f3); [discriminate|].
    destruct (negb _ && negb _ && negb _); discriminate.
  - cbn [nth]. cbn -[String.eqb Nat.ltb].
    destruct (time_Parse_RFC3339 f2) as [|ts]; [discriminate|].
    destruct (strconv_ParseFloat f3) as [|amount]; [discriminate|].
    destruct (negb (String.eqb f4 "credit") && negb (String.eqb f4 "debit")
              && negb (String.eqb f4 "transfer")) eqn:Hty; [discriminate|].
    destruct (negb (String.eqb f5 "pending") && negb (String.eqb f5 "completed")
              && negb (String.eqb f5 "rejected")) eqn:Hst; [discriminate|].
    apply three_way in Hty, Hst.
    destruct (String.eqb f4 "transfer") eqn:Htr; cbn [andb].
    + destruct more as [|f6 [|f7 more]]; cbn -[String.eqb]; try discriminate.
      intros H. injection H as <-. cbn -[String.eqb]. rewrite Htr.
      repeat split; auto.
    + destruct more as [|f6 more]; cbn -[String.eqb];
        intros H; injection H as <-; cbn -[String.eqb]; rewrite Htr;
        repeat split; auto.
Qed.

Lemma load_transactions_rows (rows : list (list string)) (i : nat)
    (transactions result : list Transaction.t) :
  load_transactions rows (S i) transactions = Some (inr result) ->
  exists loaded, result = transactions ++ loaded /\ Forall2 parsed_from rows loaded.
Proof.
  revert i transactions. induction rows as [|row rows IH]; intros i transactions.
  - cbn. intros H. injection H as <-. exists []. split; [now rewrite app_nil_r|constructor].
  - cbn [load_transactions Nat.eqb].
    destruct (length row <? 6)%nat; [discriminate|].
    destruct (parseTransaction row (Z.of_nat (S i) + 1)) as [[tx [err|]]|] eqn:Hp;
      cbn; try discriminate.
    intros Hload. destruct (IH _ _ Hload) as (loaded & -> & Hall).
    exists (tx :: loaded). split; [now rewrite <- app_assoc|].
    constructor; [|exact Hall]. exact (parseTransaction_parsed _ _ _ Hp).
Qed.

Lemma LoadTransactions_loop (filePath : string) (transactions : list Transaction.t) :
  LoadTransactions filePath = Some (inr transactions) ->
  exists f header rows,
    os_Open "data/transactions_2025-04-15.csv" = inr f /\
    csv_ReadAll f = inr (header :: rows) /\
    rows <> [] /\
    load_transactions rows 1 [] = Some (inr transactions).
Proof.
  unfold LoadTransactions.
  destruct (os_Open "data/transactions_2025-04-15.csv") as [err|f] eqn:Hopen;
    [discriminate|].
  destruct (csv_ReadAll f) as [err|records] eqn:Hread; [discriminate|].
  destruct (Nat.ltb_spec (length records) 2) as [Hlen|Hlen]; [discriminate|].
  destruct records as [|header rows]; [cbn in Hlen; lia|].
  cbn [load_transactions Nat.eqb]. intros Hload.
  exists f, header, rows. split; [reflexivity|]. split; [exact Hread|].
  split; [destruct rows; [cbn in Hlen; lia|discriminate]|exact Hload].
Qed.

(** The transactions that [LoadTransactions] returns are credits, debits
    or transfers. *)
Lemma LoadTransactions_types (filePath : string) (transactions : list Transaction.t) :
  LoadTransactions filePath = Some (inr transactions) ->
  Forall (fun tx => Transaction.Type_ tx = "credit" \/ Transaction.Type_ tx = "debit" \/
                    Transaction.Type_ tx = "transfer") transactions.
Proof.
  intros Htxs.
  destruct (LoadTransactions_loop filePath transactions Htxs)
    as (f & header & rows & _ & _ & _ & Hload).
  destruct (load_transactions_rows rows 0 [] transactions Hload) as (loaded & -> & Hall).
  cbn [app]. clear - Hall. induction Hall as [|row tx rows txs Hp _ IH]; constructor.
  - destruct Hp as (_ & _ & _ & _ & _ & Hty & _). exact Hty.
  - exact IH.
Qed.

(** X19.  When [LoadTransactions] succeeds it returns one transaction for
    each data row, in the order of the file; each has taken its id, its
    account, its timestamp, its amount, its type, its status and its
    description from its row, is a credit, a debit or a transfer, is
    pending, completed or rejected, has a destination only if it is a
    transfer, and has empty validation and processing messages. *)
Theorem LoadTransactions_rows (filePath : string) (transactions : list Transaction.t) :
  LoadTransactions filePath = Some (inr transactions) ->
  exists f header rows,
    os_Open "data/transactions_2025-04-15.csv" = inr f /\
    csv_ReadAll f = inr (header :: rows) /\
    rows <> [] /\
    Forall2 parsed_from rows transactions.
Proof.
  intros Htxs.
  destruct (LoadTransactions_loop filePath transactions Htxs)
    as (f & header & rows & Hopen & Hread & Hrows & Hload).
  destruct (load_transactions_rows rows 0 [] transactions Hload) as (loaded & -> & Hall).
  exists f, header, rows. split; [exact Hopen|]. split; [exact Hread|].
  split; [exact Hrows|exact Hall].
Qed.

Lemma load_transactions_returns (rows : list (list string)) (i : nat)
    (transactions : list Transaction.t) :
  is_Some (load_transactions rows i transactions).
Proof.
  revert i transactions. induction rows as [|row rows IH]; intros i transactions;
    [cbn; eauto|].
  cbn [load_transactions]. destruct (i =? 0)%nat; [apply IH|].
  destruct (Nat.ltb_spec (length row) 6) as [Hlen|Hlen]; [eauto|].
  destruct (parseTransaction_returns row (Z.of_nat i + 1) Hlen) as (tx & err & ->).
  cbn. destruct err; [eauto|apply IH].
Qed.

(** X20.  [LoadTransactions] never reads a field outside a record: whatever
    the file holds, it returns transactions or an error. *)
Theorem LoadTransactions_never_panics (filePath : string) :
  is_Some (LoadTransactions filePath).
Proof.
  unfold LoadTransactions.
  destruct (os_Open _); [eauto|]. destruct (csv_ReadAll _); [eauto|].
  destruct (_ <? _)%nat; [eauto|]. apply load_transactions_returns.
Qed.

End LoaderFacts.

(** * The day, end to end *)

(** Two descriptions of the same run describe the same result. *)
Lemma run_unique {A} (l : positive) (s1 s2 : A) (m1 m2 : gmap string Account.t)
    (h : heap) :
  Some ((map_at l, s1), <[l := m1]> h) = Some ((map_at l, s2), <[l := m2]> h) ->
  s1 = s2 /\ m1 = m2.
Proof.
  intros H. injection H as Hs Hh. split; [exact Hs|].
  apply (f_equal (fun x => x !! l)) in Hh. rewrite !lookup_insert_eq in Hh.
  congruence.
Qed.

(** A validated batch of transactions of the three known types: the
    accounts stay the same, every transaction is decided. *)
Lemma ProcessTransactions_validated_batch (txs : list Transaction.t) (l : positive)
    (h : heap) (accounts : gmap string Account.t) :
  h !! l = Some accounts ->
  Forall (validated accounts) txs ->
  Forall (fun tx => Transaction.Type_ tx = "credit" \/ Transaction.Type_ tx = "debit" \/
                    Transaction.Type_ tx = "transfer") txs ->
  exists stamped m',
    ProcessTransactions txs (map_at l) h
      = Some ((map_at (fresh (dom h)), stamped), <[fresh (dom h) := m']> h) /\
    dom m' = dom accounts /\
    (forall id, Account.ID (account_of m' id) = Account.ID (account_of accounts id)) /\
    Forall (fun st => Transaction.Status st = "completed" \/
                      Transaction.Status st = "rejected") stamped.
Proof.
  intros Hl Hvalid Htypes.
  assert (Href : valid_ref h (map_at l)) by (cbn; eauto).
  assert (Htable : table h (map_at l) = accounts) by (apply table_at; exact Hl).
  destruct (ProcessTransactions_trace
              (fun _ spre m =>
                 dom m = dom accounts /\
                 (forall id, Account.ID (account_of m id)
                             = Account.ID (account_of accounts id)) /\
                 Forall (fun st => Transaction.Status st = "completed" \/
                                   Transaction.Status st = "rejected") spre)
              txs (map_at l) h Href) as (stamped & m' & Hrun & Hfinal).
  - intros pre spre tx m st m1 l0 h0 Hin (Hdom & Hids & Hdone) Hl0 Hone.
    rewrite Forall_forall in Hvalid, Htypes.
    destruct (Hvalid tx Hin) as (_ & _ & Hsrc & Hdst).
    split; [|split].
    + apply set_eq. intros id. rewrite <- Hdom, !elem_of_dom. split.
      * intros Hid.
        destruct (step_new_accounts tx st l0 h0 m m1 Hl0 Hone id Hid)
          as [Hold|(_ & [->|[Hty ->]])]; [exact Hold| |].
        -- apply elem_of_dom. rewrite Hdom. apply elem_of_dom. exact Hsrc.
        -- apply elem_of_dom. rewrite Hdom. apply elem_of_dom.
           exact (proj2 (Hdst Hty)).
      * apply (step_keeps_accounts tx st l0 h0 m m1 Hl0 Hone).
    + intros id. rewrite <- Hids. exact (step_keeps_ids tx st l0 h0 m m1 Hl0 Hone id).
    + apply Forall_app. split; [exact Hdone|]. constructor; [|constructor].
      destruct (step_status tx st l0 h0 m m1 Hl0 Hone) as (Hc & Hdt & _).
      destruct (Htypes tx Hin) as [Hty|Hty]; [left; exact (Hc Hty)|exact (Hdt Hty)].
  - rewrite Htable. split; [reflexivity|]. split; [reflexivity|constructor].
  - exists stamped, m'. split; [exact Hrun|exact Hfinal].
Qed.

Section Day.
Context `{lib : Stdlib}.

(** X22.  The day as [main] runs it.  For the accounts that [LoadAccounts]
    has loaded and the transactions that [LoadTransactions] has loaded,
    [ProcessTransactions] applied to the transactions that
    [ValidateTransactions] lets through returns a mapping with exactly the
    ids loaded, in which every account carries the id it is filed under;
    every transaction comes back [completed] or [rejected]; and every
    summary that [GenerateAccountSummary] makes of the result reports the
    daily debits and the daily credits of its account. *)
Theorem day_of_processing (accountsPath transactionsPath dateStr : string)
    (accounts : gmap string Account.t) (transactions : list Transaction.t)
    (l : positive) (h : heap) :
  LoadAccounts accountsPath = inr accounts ->
  LoadTransactions transactionsPath = Some (inr transactions) ->
  h !! l = Some accounts ->
  exists l' stamped m',
    ProcessTransactions (ValidateTransactions transactions accounts).1 (map_at l) h
      = Some ((map_at l', stamped), <[l' := m']> h) /\
    dom m' = dom accounts /\
    (forall id a, m' !! id = Some a -> Account.ID a = id) /\
    Forall (fun st => Transaction.Status st = "completed" \/
                      Transaction.Status st = "rejected") stamped /\
    (forall result,
       GenerateAccountSummary_returns m' stamped dateStr result ->
       Forall (fun s =>
                 AccountSummary.TotalDebits s
                   = Account.DailyDebits (account_of m' (AccountSummary.AccountID s)) /\
                 AccountSummary.TotalCredits s
                   = Account.DailyCredits (account_of m' (AccountSummary.AccountID s)))
              result).
Proof.
  intros Hacc Htxs Hl.
  pose proof (LoadAccounts_fresh accountsPath accounts Hacc) as Hfresh.
  pose proof (ValidateTransactions_validated transactions accounts) as Hvalid.
  set (valid := (ValidateTransactions transactions accounts).1) in *.
  assert (Htypes : Forall (fun tx => Transaction.Type_ tx = "credit" \/
                                     Transaction.Type_ tx = "debit" \/
                                     Transaction.Type_ tx = "transfer") valid).
  { apply Forall_forall. intros tx Hin. subst valid.
    unfold ValidateTransactions in Hin. rewrite validate_loop_partition in Hin.
    cbn [fst app] in Hin. apply list_elem_of_In, filter_In in Hin as [Hin _].
    pose proof (LoadTransactions_types transactionsPath transactions Htxs) as Hall.
    rewrite Forall_forall in Hall. apply Hall, list_elem_of_In, Hin. }
  assert (Href : valid_ref h (map_at l)) by (cbn; eauto).
  assert (Htable : table h (map_at l) = accounts) by (apply table_at; exact Hl).
  destruct (ProcessTransactions_validated_batch valid l h accounts Hl Hvalid Htypes)
    as (stamped & m' & Hrun & Hdom & Hids & Hdone).
  destruct (ProcessTransactions_counters valid (map_at l) h Href)
    as (stamped' & m'' & Hrun' & Hcount & Hknown).
  { intros tx Hin Hty. rewrite Forall_forall in Hvalid.
    destruct (Hvalid tx Hin) as (_ & _ & _ & Hdst). exact (proj1 (Hdst Hty)). }
  rewrite Hrun in Hrun'. apply run_unique in Hrun' as [<- <-].
  exists (fresh (dom h)), stamped, m'. split; [exact Hrun|].
  split; [exact Hdom|]. split; [|split; [exact Hdone|]].
  - intros id a Ha. specialize (Hids id). rewrite Ha in Hids. cbn in Hids.
    assert (Hin : id ∈ dom accounts) by (rewrite <- Hdom; apply elem_of_dom; eauto).
    apply elem_of_dom in Hin as [a0 Ha0]. rewrite Ha0 in Hids. cbn in Hids.
    rewrite Hids. exact (proj1 (Hfresh id a0 Ha0)).
  - intros result Hret. apply Forall_forall. intros s Hin.
    destruct (returned_summary m' stamped dateStr result s Hret Hin)
      as (id & a & Ha & ->).
    destruct (touch_fixed (has_account m') id stamped (new_summary id dateStr a))
      as (-> & _).
    destruct (touch_totals (has_account m') id stamped (new_summary id dateStr a) Hknown)
      as [-> ->].
    cbn [new_summary AccountSummary.AccountID AccountSummary.TotalDebits
         AccountSummary.TotalCredits].
    destruct (Hcount id) as [-> ->]. rewrite Htable.
    assert (Hstart : Account.DailyDebits (account_of accounts id) = 0%float /\
                     Account.DailyCredits (account_of accounts id) = 0%float).
    { destruct (accounts !! id) as [a0|] eqn:Ha0; [|split; reflexivity].
      destruct (Hfresh id a0 Ha0) as (_ & Hd & Hc & _). split; assumption. }
    destruct Hstart as [-> ->]. split; reflexivity.
Qed.

End Day.

(** ** The detector on the result of the engine *)

Lemma inspect_overdraft (accounts : gmap string Account.t) (tx : Transaction.t)
    (an : Anomaly.t) :
  an ∈ (inspect accounts tx [] ∅).1 ->
  Anomaly.Type_ an = "account_overdraft" ->
  let balance := Account.Balance (account_of accounts (Transaction.AccountID tx)) in
  an = overdraft_anomaly tx balance /\ (balance <? 0)%float = true.
Proof.
  unfold inspect. destruct (negb _); cbn; [intros H; inversion H|].
  destruct (_ <=? _)%float, (_ <? 0)%float eqn:Hneg; cbn; intros H Hty;
    repeat (apply elem_of_cons in H as [->|H];
            [first [discriminate Hty|split; reflexivity]|]); inversion H.
Qed.

(** X23.  When every account starts at or above the overdraft floor and
    every amount is a non-negative finite number, every [account_overdraft]
    anomaly that the detector raises on the result of [ProcessTransactions]
    reports a balance that is negative and not below the floor of -1000,
    with the severity of that balance. *)
Theorem overdraft_alerts_within_floor (txs : list Transaction.t) (r : mapref)
    (h : heap) :
  valid_ref h r ->
  above_floor (table h r) ->
  (forall tx, tx ∈ txs ->
              (0 <=? Transaction.Amount tx)%float = true /\
              (Transaction.Amount tx <? infinity)%float = true) ->
  exists l' stamped m',
    ProcessTransactions txs r h = Some ((map_at l', stamped), <[l' := m']> h) /\
    forall result an,
      DetectAnomalies_returns stamped m' result ->
      an ∈ result ->
      Anomaly.Type_ an = "account_overdraft" ->
      exists balance,
        Anomaly.Description an = AccountOverdraftText balance /\
        Anomaly.Severity an = overdraft_severity balance /\
        (processor.OverdraftLimit <=? balance)%float = true /\
        (balance <? 0)%float = true.
Proof.
  intros Hvalid Hinit Hamounts.
  destruct (ProcessTransactions_invariant above_floor txs r h Hvalid)
    as (stamped & m' & Hrun & Hfinal & _).
  - intros tx m st m1 l h0 Hin Hl Hm Hone.
    destruct (Hamounts tx Hin) as [Hpos Hfin].
    exact (process_one_above_floor tx l h0 m m1 st Hpos Hfin Hl Hm Hone).
  - exact Hinit.
  - exists (fresh (dom h)), stamped, m'. split; [exact Hrun|].
    intros result an (entries & Hperm & ->) Han Hty.
    rewrite check_all_appends, inspect_all_appends, app_nil_l in Han.
    apply elem_of_app in Han as [Han|Han].
    + apply list_elem_of_In, in_flat_map in Han as (tx & _ & Han).
      apply list_elem_of_In in Han.
      destruct (inspect_overdraft m' tx an Han Hty) as [-> Hneg].
      exists (Account.Balance (account_of m' (Transaction.AccountID tx))).
      split; [reflexivity|]. split; [reflexivity|].
      split; [apply above_floor_account_of; exact Hfinal|exact Hneg].
    + apply list_elem_of_In, in_flat_map in Han as ([id w] & _ & Han).
      apply list_elem_of_In in Han.
      destruct (check_rapid_labels id w an Han) as [Hrapid _].
      rewrite Hrapid in Hty. discriminate Hty.
Qed.

(** * Concrete runs *)

(** The scenarios of the specification. *)

Example debit_of_50_completes :
  exists h',
    process_one examples.debit_50 (map_at 1) examples.store
      = Some ((Transaction.with_Status "completed" examples.debit_50, map_at 1), h') /\
    totals (account_of (table h' (map_at 1)) "A1") = (50%float, 0%float, 50%float).
Proof. eexists. split; [reflexivity|]. vm_compute. reflexivity. Qed.

Example debit_of_1200_is_rejected :
  process_one examples.debit_1200 (map_at 1) examples.store
    = Some ((Transaction.with_ProcessingMessage "Would exceed overdraft limit of $1000.00"
               (Transaction.with_Status "rejected" examples.debit_1200), map_at 1),
            examples.store).
Proof. vm_compute. reflexivity. Qed.

Example transfer_of_200_overdraws :
  exists h',
    process_one examples.transfer_200 (map_at 1) examples.store
      = Some ((Transaction.with_Status "completed"
                 (Transaction.with_ProcessingMessage "Source account in overdraft"
                    examples.transfer_200), map_at 1), h') /\
    Account.Balance (account_of (table h' (map_at 1)) "A1") = (-100)%float /\
    Account.OverdraftCount (account_of (table h' (map_at 1)) "A1") = 1 /\
    Account.Balance (account_of (table h' (map_at 1)) "A2") = 250%float.
Proof. eexists. split; [reflexivity|]. vm_compute. repeat split. Qed.

Example four_debits_one_rapid_anomaly :
  List.filter (is_rapid_for "A2") (DetectAnomalies examples.four_debits examples.final_accounts)
    = [Anomaly.mk "W3" "A2" (5 * examples.minute) "rapid_withdrawals"
         (RapidWithdrawalsText 3 300%float 5) "high"].
Proof. vm_compute. reflexivity. Qed.

(** The time test accepts a span of exactly sixty minutes and refuses one
    nanosecond more; a span that runs backwards passes. *)
Example window_boundary :
  (Duration_Minutes (60 * Minute) <=? RapidWithdrawalTimeWindowMins)%float = true /\
  (Duration_Minutes (60 * Minute + 1) <=? RapidWithdrawalTimeWindowMins)%float = false /\
  (Duration_Minutes (- (90 * Minute)) <=? RapidWithdrawalTimeWindowMins)%float = true.
Proof. vm_compute. repeat split. Qed.

(** An amount that is not a number is let through by validation, since
    [NaN <= 0] is false; once credited, the balance is not a number either
    and is not at or above the floor. *)
Example nan_amount_is_validated :
  let tx := examples.pending "T8" "A1" "" 12 nan "credit" in
  ValidateTransactions [tx] examples.accounts = ([tx], []) /\
  exists stamped h',
    process_one tx (map_at 1) examples.store = Some ((stamped, map_at 1), h') /\
    Transaction.Status stamped = "completed" /\
    (processor.OverdraftLimit
       <=? Account.Balance (account_of (table h' (map_at 1)) "A1"))%float = false.
Proof.
  cbv zeta. split; [vm_compute; reflexivity|].
  remember (process_one _ _ _) as run eqn:Hrun.
  vm_compute in Hrun. subst run.
  eexists _, _. split; [reflexivity|]. split; vm_compute; reflexivity.
Qed.

(** A transfer from an account to itself is refused by
    [ValidateTransactions] and never reaches the engine; the engine itself
    would complete it and only credit the account, the write of the
    destination coming after that of the source. *)
Example self_transfer_is_refused :
  ValidateTransactions [examples.self_transfer] examples.accounts
    = ([], [Transaction.with_ValidationMessage
              "Source and destination accounts cannot be the same"
              examples.self_transfer]) /\
  exists stamped h',
    process_one examples.self_transfer (map_at 1) examples.store
      = Some ((stamped, map_at 1), h') /\
    Transaction.Status stamped = "completed" /\
    Account.Balance (account_of (table h' (map_at 1)) "A1") = 130%float.
Proof.
  split; [vm_compute; reflexivity|].
  remember (process_one _ _ _) as run eqn:Hrun.
  vm_compute in Hrun. subst run.
  eexists _, _. split; [reflexivity|]. split; vm_compute; reflexivity.
Qed.

(** * Where the claims as stated fail *)

(** C1 as stated fails: nothing keeps an account from starting the day below
    the floor.  [A1] starts at -2000; a credit of 100 is completed and leaves
    it at -1900, below the floor of -1000. *)
Lemma C1_counterexample :
  exists r' stamped h',
    ProcessTransactions [examples.credit_100] (map_at 1) examples.overdrawn_store
      = Some ((r', stamped), h') /\
    Forall (fun tx => Transaction.Status tx = "completed") stamped /\
    is_Some (table h' r' !! "A1") /\
    Account.Balance (account_of (table h' r') "A1") = (-1900)%float /\
    (processor.OverdraftLimit <=? Account.Balance (account_of (table h' r') "A1"))%float
      = false.
Proof.
  remember (ProcessTransactions _ _ _) as run eqn:Hrun.
  vm_compute in Hrun. subst run.
  eexists _, _, _. split; [reflexivity|].
  split; [repeat constructor|].
  split; [eexists; vm_compute; reflexivity|].
  split; vm_compute; reflexivity.
Qed.

(** C2 as stated fails inside the contract of the engine: binary64
    subtraction rounds.  The transfer of 1 from [A1], which holds 1e16, to
    [A2], which holds 50, passes [ValidateTransactions] and is completed;
    [1e16 - 1] is not a binary64 number and rounds back to 1e16, so the
    balance of the source does not decrease at all, while the balance of the
    destination goes from 50 to 51. *)
Lemma C2_counterexample :
  ValidateTransactions [examples.transfer_1] examples.large_accounts = ([examples.transfer_1], []) /\
  Transaction.AccountID examples.transfer_1 <> Transaction.DestinationAccountID examples.transfer_1 /\
  exists r' stamped h',
    ProcessTransactions [examples.transfer_1] (map_at 1) examples.large_store
      = Some ((r', [stamped]), h') /\
    Transaction.Type_ stamped = "transfer" /\
    Transaction.Status stamped = "completed" /\
    let before := Account.Balance (account_of (table examples.large_store (map_at 1)) "A1") in
    let after := Account.Balance (account_of (table h' r') "A1") in
    before = 1e16%float /\
    Transaction.Amount stamped = 1%float /\
    after = 1e16%float /\
    ~ exact_difference before (Transaction.Amount stamped) after /\
    Account.Balance (account_of (table examples.large_store (map_at 1)) "A2") = 50%float /\
    Account.Balance (account_of (table h' r') "A2") = 51%float.
Proof.
  split; [vm_compute; reflexivity|].
  split; [discriminate|].
  remember (ProcessTransactions _ _ _) as run eqn:Hrun.
  vm_compute in Hrun. subst run.
  eexists _, _, _. split; [reflexivity|]. cbv zeta.
  split; [reflexivity|]. split; [reflexivity|].
  split; [vm_compute; reflexivity|]. split; [reflexivity|].
  split; [vm_compute; reflexivity|].
  split; [|split; vm_compute; reflexivity].
  intros (vx & va & Hx & Ha & Hr).
  vm_compute in Hx, Ha.
  injection Hx as <-. injection Ha as <-. vm_compute in Hr. discriminate Hr.
Qed.

(** C3 as stated fails for transfers: a transfer of 6000 out of an account
    that holds 10000 is completed and leaves the daily debit total of the
    source at 6000, above the limit of 5000. *)
Lemma C3_counterexample :
  exists stamped h',
    process_one examples.transfer_6000 (map_at 1) examples.rich_store
      = Some ((stamped, map_at 1), h') /\
    Transaction.Type_ examples.transfer_6000 = "transfer" /\
    Transaction.Status stamped = "completed" /\
    Account.DailyDebits (account_of (table h' (map_at 1)) "A1") = 6000%float /\
    (Account.DailyDebits (account_of (table h' (map_at 1)) "A1")
       <=? MaxDailyWithdrawalLimit)%float = false.
Proof.
  remember (process_one _ _ _) as run eqn:Hrun.
  vm_compute in Hrun. subst run.
  eexists _, _. split; [reflexivity|].
  repeat split; vm_compute; reflexivity.
Qed.

(** C10 as stated fails: binary64 addition rounds.  [A1] holds 0.1 and is
    credited 0.2: the balance becomes 0.30000000000000004 while the daily
    credits become 0.2, so the balance has changed by more than the daily
    credits, whether the two changes are compared as exact values or
    computed in binary64 arithmetic. *)
Lemma C10_counterexample :
  exists r' stamped h',
    ProcessTransactions [examples.credit_020] (map_at 1) examples.dime_store
      = Some ((r', stamped), h') /\
    let before := totals (account_of (table examples.dime_store (map_at 1)) "A1") in
    let after := totals (account_of (table h' r') "A1") in
    finite_totals before /\ finite_totals after /\
    ~ accounting_identity before after /\
    accounting_identity_float before after = false.
Proof.
  remember (ProcessTransactions _ _ _) as run eqn:Hrun.
  vm_compute in Hrun. subst run.
  eexists _, _, _. split; [reflexivity|]. cbv zeta.
  split; [repeat split; eexists; vm_compute; reflexivity|].
  split; [repeat split; eexists; vm_compute; reflexivity|].
  split; [|vm_compute; reflexivity].
  intros (vb0 & vc0 & vd0 & vb1 & vc1 & vd1 & H1 & H2 & H3 & H4 & H5 & H6 & Heq).
  vm_compute in H1, H2, H3, H4, H5, H6.
  injection H1 as <-. injection H2 as <-. injection H3 as <-.
  injection H4 as <-. injection H5 as <-. injection H6 as <-.
  vm_compute in Heq. discriminate Heq.
Qed.

(** * The theorems at concrete inputs *)

Lemma store_holds_accounts : examples.store !! 1%positive = Some examples.accounts.
Proof. reflexivity. Defined.

Lemma store_is_valid : valid_ref examples.store (map_at 1).
Proof. exists examples.accounts. reflexivity. Defined.

Lemma C1_witness :
  valid_ref examples.store (map_at 1) /\
  exists l' stamped m',
    ProcessTransactions [examples.debit_50; examples.transfer_200; examples.credit_100]
      (map_at 1) examples.store
      = Some ((map_at l', stamped), <[l' := m']> examples.store) /\
    (forall id a, m' !! id = Some a ->
                  (processor.OverdraftLimit <=? Account.Balance a)%float = true).
Proof.
  split; [exact store_is_valid|].
  apply (C1_balances_stay_above_floor
           [examples.debit_50; examples.transfer_200; examples.credit_100]
           (map_at 1) examples.store store_is_valid).
  - intros id a Hlook.
    rewrite (table_at _ _ _ store_holds_accounts) in Hlook.
    unfold examples.accounts in Hlook.
    apply lookup_insert_Some in Hlook as [[_ <-]|[_ Hlook]]; [reflexivity|].
    apply lookup_singleton_Some in Hlook as [_ <-]. reflexivity.
  - intros tx Hin.
    repeat (apply elem_of_cons in Hin as [->|Hin]; [split; reflexivity|]).
    inversion Hin.
Defined.

Lemma C2_witness :
  exists stamped m',
    process_one examples.transfer_200 (map_at 1) examples.store
      = Some ((stamped, map_at 1), <[1%positive := m']> examples.store) /\
    (Transaction.Status stamped = "completed" \/ Transaction.Status stamped = "rejected") /\
    (Transaction.Status stamped = "completed" ->
       Account.Balance (account_of m' "A1")
         = (Account.Balance (account_of examples.accounts "A1") - 200)%float /\
       Account.Balance (account_of m' "A2")
         = (Account.Balance (account_of examples.accounts "A2") + 200)%float) /\
    (Transaction.Status stamped = "rejected" ->
       m' = examples.accounts /\ <[1%positive := m']> examples.store = examples.store).
Proof.
  apply (C2_transfer_atomic examples.transfer_200 1%positive examples.store
           examples.accounts store_holds_accounts).
  - reflexivity.
  - discriminate.
Defined.

Lemma C3_witness :
  exists stamped m',
    process_one examples.debit_50 (map_at 1) examples.store
      = Some ((stamped, map_at 1), <[1%positive := m']> examples.store) /\
    (Transaction.Status stamped = "completed" ->
       let total := Account.DailyDebits (account_of m' "A1") in
       total = (Account.DailyDebits (account_of examples.accounts "A1") + 50)%float /\
       gtb total MaxDailyWithdrawalLimit = false /\
       ((total =? total)%float = true ->
        (total <=? MaxDailyWithdrawalLimit)%float = true)).
Proof.
  apply (C3_completed_debit_within_limit examples.debit_50 1%positive examples.store
           examples.accounts store_holds_accounts).
  reflexivity.
Defined.

Lemma C4_witness :
  exists stamped h',
    process_one examples.debit_50 (map_at 1) examples.store
      = Some ((stamped, map_at 1), h') /\
    Transaction.Status stamped = "completed" /\
    exists a',
      h' = <[1%positive := <["A1" := a']> examples.accounts]> examples.store /\
      Account.Balance a' = 50%float /\
      Account.DailyDebits a' = 50%float /\
      Account.OverdraftCount a' = 0.
Proof.
  destruct (C4_debit_decision examples.debit_50 1%positive examples.store
              examples.accounts store_holds_accounts eq_refl)
    as (stamped & h' & Hrun & _ & _ & Hdone).
  destruct (Hdone eq_refl eq_refl) as (Hst & a' & Hh' & Hb & Hd & _ & _ & _ & Hcount).
  exists stamped, h'. split; [exact Hrun|]. split; [exact Hst|].
  exists a'. split; [exact Hh'|]. split; [exact Hb|]. split; [exact Hd|].
  exact (proj1 (Hcount eq_refl)).
Defined.

Lemma C5_witness :
  exists stamped h',
    process_one examples.transfer_200 (map_at 1) examples.store
      = Some ((stamped, map_at 1), h') /\
    (Transaction.Status stamped = "rejected" <->
     (Account.Balance (account_of examples.accounts "A1") - 200
        <? processor.OverdraftLimit)%float = true) /\
    (Transaction.Status stamped = "rejected" \/ Transaction.Status stamped = "completed").
Proof.
  destruct (C5_transfer_rejection examples.transfer_200 1%positive examples.store
              examples.accounts store_holds_accounts eq_refl)
    as (stamped & h' & Hrun & Hiff & Hor & _).
  exists stamped, h'. split; [exact Hrun|]. split; [exact Hiff|exact Hor].
Defined.

Lemma C6_witness :
  exists stamped h',
    process_one examples.debit_1200 (map_at 1) examples.store
      = Some ((stamped, map_at 1), h') /\
    (Transaction.Status stamped = "rejected" ->
       h' = examples.store /\
       table h' (map_at 1) !! "A1" = examples.accounts !! "A1" /\
       table h' (map_at 1) !! "" = examples.accounts !! "").
Proof.
  exact (C6_rejection_changes_nothing examples.debit_1200 1%positive examples.store
           examples.accounts store_holds_accounts).
Defined.

Lemma C7_witness :
  valid_ref examples.store (map_at 1) /\
  exists l' stamped m',
    ProcessTransactions [examples.debit_50; examples.transfer_200] (map_at 1) examples.store
      = Some ((map_at l', stamped), <[l' := m']> examples.store) /\
    examples.store !! l' = None /\
    map_at l' <> map_at 1 /\
    (forall l, is_Some (examples.store !! l) ->
               <[l' := m']> examples.store !! l = examples.store !! l) /\
    (forall id, table (<[l' := m']> examples.store) (map_at 1) !! id
                = table examples.store (map_at 1) !! id).
Proof.
  split; [exact store_is_valid|].
  exact (C7_caller_mapping_unchanged [examples.debit_50; examples.transfer_200]
           (map_at 1) examples.store store_is_valid).
Defined.

Lemma day_is_a_run :
  DetectAnomalies_returns examples.day examples.final_accounts
    (DetectAnomalies examples.day examples.final_accounts).
Proof.
  exists (map_to_list (inspect_all examples.final_accounts examples.day [] ∅).2).
  split; [reflexivity|]. unfold DetectAnomalies.
  destruct (inspect_all examples.final_accounts examples.day [] ∅). reflexivity.
Defined.

Lemma C8_witness :
  List.filter is_overdraft (DetectAnomalies examples.day examples.final_accounts)
    = flat_map (fun tx =>
        let balance := Account.Balance
                         (account_of examples.final_accounts (Transaction.AccountID tx)) in
        if String.eqb (Transaction.Status tx) "completed" && (balance <? 0)%float
        then [overdraft_anomaly tx balance] else []) examples.day.
Proof.
  exact (proj1 (C8_overdraft_anomalies examples.day examples.final_accounts
                  (DetectAnomalies examples.day examples.final_accounts) day_is_a_run)).
Defined.


Lemma C10_witness :
  valid_ref examples.store (map_at 1) /\
  exists l' stamped m',
    ProcessTransactions [examples.debit_50; examples.credit_100] (map_at 1) examples.store
      = Some ((map_at l', stamped), <[l' := m']> examples.store) /\
    Forall2 stamp_of [examples.debit_50; examples.credit_100] stamped /\
    movements_of "A1" stamped = [Debited 50%float; Credited 100%float] /\
    movements_of "A2" stamped = [] /\
    totals (account_of m' "A1") = (150%float, 100%float, 50%float) /\
    accounting_identity (totals (account_of examples.accounts "A1"))
                        (totals (account_of m' "A1")) /\
    forall id,
      totals (account_of m' id)
        = fold_left apply_movement (movements_of id stamped)
            (totals (account_of examples.accounts id)) /\
      (finite_totals (totals (account_of examples.accounts id)) ->
       all_exact (totals (account_of examples.accounts id)) (movements_of id stamped) ->
       accounting_identity (totals (account_of examples.accounts id))
                           (totals (account_of m' id))).
Proof.
  split; [exact store_is_valid|].
  destruct (C10_counters_follow_balance [examples.debit_50; examples.credit_100]
              (map_at 1) examples.store store_is_valid)
    as (l' & stamped & m' & Hrun & Hstamps & Hall).
  exists l', stamped, m'. split; [exact Hrun|]. split; [exact Hstamps|].
  assert (Hst : stamped = [Transaction.with_Status "completed" examples.debit_50;
                           Transaction.with_Status "completed" examples.credit_100]).
  { remember (ProcessTransactions _ _ _) as run eqn:E in Hrun.
    vm_compute in E. subst run. injection Hrun as _ Hs _. subst stamped.
    vm_compute. reflexivity. }
  assert (Hmv1 : movements_of "A1" stamped = [Debited 50%float; Credited 100%float])
    by (rewrite Hst; vm_compute; reflexivity).
  assert (Hmv2 : movements_of "A2" stamped = [])
    by (rewrite Hst; vm_compute; reflexivity).
  split; [exact Hmv1|]. split; [exact Hmv2|].
  destruct (Hall "A1") as [Hfold Hid].
  rewrite (table_at _ _ _ store_holds_accounts) in Hfold, Hid.
  cbv zeta in Hfold, Hid.
  split; [rewrite Hfold, Hmv1; vm_compute; reflexivity|].
  split.
  - apply Hid.
    + repeat split; eexists; vm_compute; reflexivity.
    + rewrite Hmv1. cbn [all_exact]. split; [|split; [|exact I]].
      * split; do 2 eexists; repeat split; vm_compute; reflexivity.
      * split; do 2 eexists; repeat split; vm_compute; reflexivity.
  - intros id. specialize (Hall id).
    rewrite (table_at _ _ _ store_holds_accounts) in Hall. exact Hall.
Defined.

(** ** The further theorems at concrete inputs *)

Lemma busy_day_is_a_run :
  DetectAnomalies_returns files.busy_day examples.final_accounts
    (DetectAnomalies files.busy_day examples.final_accounts).
Proof. apply DetectAnomalies_is_a_run. Defined.

Lemma day_summaries_are_a_run :
  GenerateAccountSummary_returns examples.final_accounts examples.day "2025-04-15"
    (GenerateAccountSummary examples.final_accounts examples.day "2025-04-15").
Proof. apply GenerateAccountSummary_is_a_run. Defined.

Lemma files_accounts_loaded :
  LoadAccounts (lib := files.lib) "data/accounts.csv" = inr examples.accounts.
Proof. vm_compute. reflexivity. Defined.

Lemma files_transactions_loaded :
  LoadTransactions (lib := files.lib) "data/transactions.csv"
    = Some (inr [examples.debit_50; examples.transfer_200]).
Proof. vm_compute. reflexivity. Defined.

Lemma ProcessTransactions_stamps_in_order_witness :
  valid_ref examples.store (map_at 1) /\
  exists l' stamped m',
    ProcessTransactions [examples.debit_50; examples.debit_1200] (map_at 1) examples.store
      = Some ((map_at l', stamped), <[l' := m']> examples.store) /\
    length stamped = 2%nat /\
    Forall2 stamp_of [examples.debit_50; examples.debit_1200] stamped.
Proof.
  split; [exact store_is_valid|].
  exact (ProcessTransactions_stamps_in_order [examples.debit_50; examples.debit_1200]
           (map_at 1) examples.store store_is_valid).
Defined.

Lemma ProcessTransactions_outcomes_witness :
  valid_ref examples.store (map_at 1) /\
  exists l' stamped m',
    ProcessTransactions [examples.credit_100; examples.debit_1200] (map_at 1) examples.store
      = Some ((map_at l', stamped), <[l' := m']> examples.store) /\
    Forall2 outcome_of [examples.credit_100; examples.debit_1200] stamped.
Proof.
  split; [exact store_is_valid|].
  exact (ProcessTransactions_outcomes [examples.credit_100; examples.debit_1200]
           (map_at 1) examples.store store_is_valid).
Defined.

Lemma ProcessTransactions_frame_witness :
  valid_ref examples.store (map_at 1) /\
  exists l' stamped m',
    ProcessTransactions [examples.debit_50; examples.credit_100] (map_at 1) examples.store
      = Some ((map_at l', stamped), <[l' := m']> examples.store) /\
    m' !! "A2" = table examples.store (map_at 1) !! "A2".
Proof.
  split; [exact store_is_valid|].
  apply (ProcessTransactions_frame [examples.debit_50; examples.credit_100]
           (map_at 1) examples.store "A2" store_is_valid).
  intros tx Hin.
  repeat (apply elem_of_cons in Hin as [->|Hin]; [split; [discriminate|discriminate]|]).
  inversion Hin.
Defined.

Lemma ProcessTransactions_accounts_witness :
  valid_ref examples.store (map_at 1) /\
  exists l' stamped m',
    ProcessTransactions [examples.debit_50; examples.transfer_200] (map_at 1) examples.store
      = Some ((map_at l', stamped), <[l' := m']> examples.store) /\
    dom (table examples.store (map_at 1)) ⊆ dom m'.
Proof.
  split; [exact store_is_valid|].
  destruct (ProcessTransactions_accounts [examples.debit_50; examples.transfer_200]
              (map_at 1) examples.store store_is_valid)
    as (l' & stamped & m' & Hrun & Hsub & _).
  exists l', stamped, m'. split; [exact Hrun|exact Hsub].
Defined.

Lemma ProcessTransactions_keeps_ids_witness :
  valid_ref examples.store (map_at 1) /\
  exists l' stamped m',
    ProcessTransactions [examples.debit_50; examples.transfer_200] (map_at 1) examples.store
      = Some ((map_at l', stamped), <[l' := m']> examples.store) /\
    (forall id, Account.ID (account_of m' id)
                = Account.ID (account_of (table examples.store (map_at 1)) id)) /\
    (forall id a, table examples.store (map_at 1) !! id = None ->
                  m' !! id = Some a -> Account.ID a = "").
Proof.
  split; [exact store_is_valid|].
  exact (ProcessTransactions_keeps_ids [examples.debit_50; examples.transfer_200]
           (map_at 1) examples.store store_is_valid).
Defined.

Lemma ProcessTransactions_last_time_witness :
  valid_ref examples.store (map_at 1) /\
  exists l' stamped m',
    ProcessTransactions [examples.debit_50; examples.transfer_200] (map_at 1) examples.store
      = Some ((map_at l', stamped), <[l' := m']> examples.store) /\
    forall id,
      Account.LastTransactionTime (account_of m' id)
        = last_completed id stamped
            (Account.LastTransactionTime
               (account_of (table examples.store (map_at 1)) id)).
Proof.
  split; [exact store_is_valid|].
  exact (ProcessTransactions_last_time [examples.debit_50; examples.transfer_200]
           (map_at 1) examples.store store_is_valid).
Defined.

Lemma ProcessTransactions_nothing_completed_witness :
  valid_ref examples.store (map_at 1) /\
  exists l' stamped m',
    ProcessTransactions [examples.debit_1200] (map_at 1) examples.store
      = Some ((map_at l', stamped), <[l' := m']> examples.store) /\
    (Forall (fun st => Transaction.Status st <> "completed") stamped ->
     m' = table examples.store (map_at 1)).
Proof.
  split; [exact store_is_valid|].
  exact (ProcessTransactions_nothing_completed [examples.debit_1200]
           (map_at 1) examples.store store_is_valid).
Defined.

Lemma credit_always_completes_witness :
  process_one examples.credit_100 (map_at 1) examples.store
    = Some ((Transaction.with_Status "completed" examples.credit_100, map_at 1),
            <[1%positive := <["A1" := Account.mk "A1" 200%float 0%float 100%float 8 0]>
                              examples.accounts]> examples.store).
Proof.
  exact (credit_always_completes examples.credit_100 1%positive examples.store
           examples.accounts store_holds_accounts eq_refl).
Defined.

Lemma large_transaction_anomalies_witness :
  List.filter is_large (DetectAnomalies files.busy_day examples.final_accounts)
    = flat_map (fun tx =>
        if is_completed tx
           && (LargeTransactionThreshold <=? Transaction.Amount tx)%float
        then [large_anomaly tx] else []) files.busy_day.
Proof.
  exact (large_transaction_anomalies files.busy_day examples.final_accounts
           (DetectAnomalies files.busy_day examples.final_accounts) busy_day_is_a_run).
Defined.

Lemma anomalies_cite_completed_transactions_witness :
  Forall (fun an => exists tx,
            tx ∈ files.busy_day /\
            Transaction.Status tx = "completed" /\
            Anomaly.TransactionID an = Transaction.ID tx /\
            Anomaly.AccountID an = Transaction.AccountID tx /\
            Anomaly.Timestamp an = Transaction.Timestamp tx)
         (DetectAnomalies files.busy_day examples.final_accounts).
Proof.
  exact (anomalies_cite_completed_transactions files.busy_day examples.final_accounts
           (DetectAnomalies files.busy_day examples.final_accounts) busy_day_is_a_run).
Defined.

Lemma GenerateAccountSummary_one_per_account_witness :
  map AccountSummary.AccountID
      (GenerateAccountSummary examples.final_accounts examples.day "2025-04-15")
    ≡ₚ (map_to_list examples.final_accounts).*1.
Proof.
  exact (proj1 (proj2 (GenerateAccountSummary_one_per_account examples.final_accounts
                         examples.day "2025-04-15"
                         (GenerateAccountSummary examples.final_accounts examples.day
                            "2025-04-15")
                         day_summaries_are_a_run))).
Defined.

Lemma summary_transaction_count_witness :
  Forall (fun s =>
            AccountSummary.TransactionCount s
              = wrap_int (Z.of_nat
                  (length (List.filter (counts_as_source (AccountSummary.AccountID s))
                             examples.day)
                   + length (List.filter
                               (counts_as_destination examples.final_accounts
                                  (AccountSummary.AccountID s))
                               examples.day))))
         (GenerateAccountSummary examples.final_accounts examples.day "2025-04-15").
Proof.
  exact (summary_transaction_count examples.final_accounts examples.day "2025-04-15"
           (GenerateAccountSummary examples.final_accounts examples.day "2025-04-15")
           day_summaries_are_a_run).
Defined.

Lemma store_starts_the_day :
  forall id a, table examples.store (map_at 1) !! id = Some a ->
               Account.DailyDebits a = 0%float /\ Account.DailyCredits a = 0%float.
Proof.
  intros id a Hlook.
  rewrite (table_at _ _ _ store_holds_accounts) in Hlook.
  unfold examples.accounts in Hlook.
  apply lookup_insert_Some in Hlook as [[_ <-]|[_ Hlook]]; [split; reflexivity|].
  apply lookup_singleton_Some in Hlook as [_ <-]. split; reflexivity.
Defined.

Lemma summary_totals_match_ledger_witness :
  valid_ref examples.store (map_at 1) /\
  exists l' stamped m',
    ProcessTransactions [examples.debit_50; examples.transfer_200] (map_at 1) examples.store
      = Some ((map_at l', stamped), <[l' := m']> examples.store) /\
    forall result,
      GenerateAccountSummary_returns m' stamped "2025-04-15" result ->
      Forall (fun s =>
                AccountSummary.TotalDebits s
                  = Account.DailyDebits (account_of m' (AccountSummary.AccountID s)) /\
                AccountSummary.TotalCredits s
                  = Account.DailyCredits (account_of m' (AccountSummary.AccountID s)))
             result.
Proof.
  split; [exact store_is_valid|].
  apply (summary_totals_match_ledger [examples.debit_50; examples.transfer_200]
           (map_at 1) examples.store "2025-04-15" store_is_valid store_starts_the_day).
  intros tx Hin.
  repeat (apply elem_of_cons in Hin as [->|Hin]; [intros Hty; discriminate|]).
  inversion Hin.
Defined.

Lemma LoadAccounts_accounts_witness :
  LoadAccounts (lib := files.lib) "data/accounts.csv" = inr examples.accounts /\
  examples.accounts <> ∅ /\
  (forall id a, examples.accounts !! id = Some a -> fresh_account id a).
Proof.
  split; [exact files_accounts_loaded|].
  destruct (LoadAccounts_accounts (lib := files.lib) "data/accounts.csv"
              examples.accounts files_accounts_loaded)
    as (f & header & rows & _ & _ & _ & Hne & _ & Hfresh).
  split; [exact Hne|exact Hfresh].
Defined.

Lemma LoadAccounts_first_bad_row_witness :
  LoadAccounts (lib := files.lib) "data/broken.csv"
    = inl (Errorf "invalid record format at line %d: insufficient fields" (Some 3) None).
Proof.
  refine (proj1 (LoadAccounts_first_bad_row (lib := files.lib) "data/broken.csv"
                   files.broken_csv ["account_id"; "balance"] ["A2"] [["A1"; "100"]] []
                   (Errorf "invalid record format at line %d: insufficient fields"
                      (Some 3) None)
                   eq_refl eq_refl _ eq_refl)).
  constructor; [|constructor].
  exists (examples.account "A1" 100%float). reflexivity.
Defined.

Lemma LoadTransactions_rows_witness :
  exists f header rows,
    os_Open (Stdlib := files.lib) "data/transactions_2025-04-15.csv" = inr f /\
    csv_ReadAll f = inr (header :: rows) /\
    rows <> [] /\
    Forall2 (parsed_from (lib := files.lib)) rows
            [examples.debit_50; examples.transfer_200].
Proof.
  exact (LoadTransactions_rows (lib := files.lib) "data/transactions.csv"
           [examples.debit_50; examples.transfer_200] files_transactions_loaded).
Defined.

Lemma day_of_processing_witness :
  exists l' stamped m',
    ProcessTransactions
      (ValidateTransactions [examples.debit_50; examples.transfer_200] examples.accounts).1
      (map_at 1) examples.store
      = Some ((map_at l', stamped), <[l' := m']> examples.store) /\
    dom m' = dom examples.accounts /\
    (forall id a, m' !! id = Some a -> Account.ID a = id) /\
    Forall (fun st => Transaction.Status st = "completed" \/
                      Transaction.Status st = "rejected") stamped.
Proof.
  destruct (day_of_processing (lib := files.lib) "data/accounts.csv"
              "data/transactions.csv" "2025-04-15" examples.accounts
              [examples.debit_50; examples.transfer_200] 1%positive examples.store
              files_accounts_loaded files_transactions_loaded store_holds_accounts)
    as (l' & stamped & m' & Hrun & Hdom & Hids & Hdone & _).
  exists l', stamped, m'.
  split; [exact Hrun|]. split; [exact Hdom|]. split; [exact Hids|exact Hdone].
Defined.

Lemma store_is_above_floor : above_floor (table examples.store (map_at 1)).
Proof.
  intros id a Hlook.
  rewrite (table_at _ _ _ store_holds_accounts) in Hlook.
  unfold examples.accounts in Hlook.
  apply lookup_insert_Some in Hlook as [[_ <-]|[_ Hlook]]; [reflexivity|].
  apply lookup_singleton_Some in Hlook as [_ <-]. reflexivity.
Defined.

Lemma overdraft_alerts_within_floor_witness :
  valid_ref examples.store (map_at 1) /\
  exists l' stamped m',
    ProcessTransactions [examples.debit_50; examples.transfer_200] (map_at 1) examples.store
      = Some ((map_at l', stamped), <[l' := m']> examples.store) /\
    forall result an,
      DetectAnomalies_returns stamped m' result ->
      an ∈ result ->
      Anomaly.Type_ an = "account_overdraft" ->
      exists balance,
        Anomaly.Description an = AccountOverdraftText balance /\
        Anomaly.Severity an = overdraft_severity balance /\
        (processor.OverdraftLimit <=? balance)%float = true /\
        (balance <? 0)%float = true.
Proof.
  split; [exact store_is_valid|].
  apply (overdraft_alerts_within_floor [examples.debit_50; examples.transfer_200]
           (map_at 1) examples.store store_is_valid store_is_above_floor).
  intros tx Hin.
  repeat (apply elem_of_cons in Hin as [->|Hin]; [split; reflexivity|]).
  inversion Hin.
Defined.

Lemma summary_of_untouched_account_witness :
  Forall (fun s =>
            (forall tx, tx ∈ examples.four_debits -> Transaction.Status tx = "completed" ->
               Transaction.AccountID tx <> AccountSummary.AccountID s /\
               (Transaction.Type_ tx = "transfer" ->
                  Transaction.DestinationAccountID tx <> AccountSummary.AccountID s)) ->
            AccountSummary.OpeningBalance s = AccountSummary.ClosingBalance s /\
            AccountSummary.TotalDebits s = 0%float /\
            AccountSummary.TotalCredits s = 0%float /\
            AccountSummary.TransactionCount s = 0)
         (GenerateAccountSummary examples.final_accounts examples.four_debits "2025-04-15").
Proof.
  exact (summary_of_untouched_account examples.final_accounts examples.four_debits
           "2025-04-15"
           (GenerateAccountSummary examples.final_accounts examples.four_debits
              "2025-04-15")
           (GenerateAccountSummary_is_a_run _ _ _)).
Defined.

Lemma opening_balance_is_reconstructed_witness :
  (0x1.999999999999ap-4 + 0x1.999999999999ap-3 - 0x1.999999999999ap-3
     =? 0x1.999999999999ap-4)%float = false /\
  exists l' stamped m',
    ProcessTransactions [examples.credit_020] (map_at 1) examples.dime_store
      = Some ((map_at l', stamped), <[l' := m']> examples.dime_store) /\
    forall result,
      GenerateAccountSummary_returns m' stamped "2025-04-15" result ->
      exists s,
        s ∈ result /\
        AccountSummary.AccountID s = "A1" /\
        AccountSummary.OpeningBalance s
          = (0x1.999999999999ap-4 + 0x1.999999999999ap-3 - 0x1.999999999999ap-3)%float /\
        AccountSummary.ClosingBalance s
          = (0x1.999999999999ap-4 + 0x1.999999999999ap-3)%float /\
        AccountSummary.TotalCredits s = (0 + 0x1.999999999999ap-3)%float.
Proof.
  split; [reflexivity|].
  exact (opening_balance_is_reconstructed examples.credit_020 1%positive
           examples.dime_store
           {[ "A1" := examples.account "A1" 0x1.999999999999ap-4%float ]}
           "2025-04-15" eq_refl eq_refl).
Defined.
